(** * Web-Content Q&A backend (app.py): a shallow embedding and its properties

    The Flask application of [src/app.py] is embedded function by function:
    [clean_text], [extract_main_content], [scrape_url], the two request
    handlers [fetch_content] and [ask_question], the regular-expression
    rewrites they apply and the [urljoin] that resolves the links.  Python
    strings are lists of Unicode code points;
    calls that leave the process (the HTTP fetch, the model API) are nodes of
    a tree of calls that is run against an arbitrary environment. *)

From Stdlib Require Import String Ascii.
From Stdlib Require Import List NArith Bool Arith Lia.
Import ListNotations.

Set Implicit Arguments.
Set Warnings "-register-all,-abstract-large-number".

(** ** Python strings *)

(** A [str] is a sequence of code points, as Python 3 has it. *)
Definition char := N.
Definition str := list char.

(** Code points of an ASCII literal. *)
Definition lit (s : string) : str :=
  map N_of_ascii (list_ascii_of_string s).

Definition NL : char := 10%N.
Definition SP : char := 32%N.
Definition QUOTE : char := 34%N.

Fixpoint str_eqb (a b : str) : bool :=
  match a, b with
  | [], [] => true
  | x :: a', y :: b' => N.eqb x y && str_eqb a' b'
  | _, _ => false
  end.

Definition in_range (lo hi c : char) : bool := (N.leb lo c && N.leb c hi)%bool.

Local Open Scope N_scope.

(** Whitespace as [str.strip] and the pattern [\s] see it: the code points for
    which [str.isspace] holds. *)
Definition is_space (c : char) : bool :=
  (in_range 9 13 c || in_range 28 32 c || N.eqb c 133 || N.eqb c 160
   || N.eqb c 5760 || in_range 8192 8202 c || N.eqb c 8232 || N.eqb c 8233
   || N.eqb c 8239 || N.eqb c 8287 || N.eqb c 12288)%bool.

Definition ascii_alnum (c : char) : bool :=
  (in_range 48 57 c || in_range 65 90 c || in_range 97 122 c)%bool.

Section Unicode.

(** The Unicode database of the interpreter decides [\w] and [\d] outside
    ASCII; it is not part of the repository and stays a parameter:
    [uni_alnum c] is [chr(c).isalnum()], [uni_decimal c] is
    [chr(c).isdecimal()], both asked only for [c >= 128]. *)
Variable uni_alnum : char -> bool.
Variable uni_decimal : char -> bool.

(** [\w]: alphanumeric or underscore. *)
Definition is_word (c : char) : bool :=
  if N.ltb c 128 then (ascii_alnum c || N.eqb c 95)%bool else uni_alnum c.

(** [\d]: a decimal digit. *)
Definition is_digit (c : char) : bool :=
  if N.ltb c 128 then in_range 48 57 c else uni_decimal c.

End Unicode.

(** The characters [[^\w\s.,!?-]] leaves in place, given the word characters. *)
Definition kept_class (word : char -> bool) (c : char) : bool :=
  (word c || is_space c
   || N.eqb c 46 || N.eqb c 44 || N.eqb c 33 || N.eqb c 63 || N.eqb c 45)%bool.

Local Close Scope N_scope.

(** [str.strip()] with no argument. *)
Fixpoint lstrip (s : str) : str :=
  match s with
  | [] => []
  | c :: r => if is_space c then lstrip r else s
  end.

Definition rstrip (s : str) : str := rev (lstrip (rev s)).

Definition strip (s : str) : str := rstrip (lstrip s).

(** [sep.join(parts)]. *)
Fixpoint join (sep : str) (parts : list str) : str :=
  match parts with
  | [] => []
  | [p] => p
  | p :: ps => p ++ sep ++ join sep ps
  end.

Fixpoint is_prefix (p s : str) : bool :=
  match p, s with
  | [], _ => true
  | x :: p', y :: s' => N.eqb x y && is_prefix p' s'
  | _ :: _, [] => false
  end.

(** [s.replace(old, new)] for a non-empty [old]: occurrences are replaced from
    the left and do not overlap; [skip] counts the characters of the
    occurrence being replaced that are still to be passed over. *)
Fixpoint replace_go (old new : str) (skip : nat) (s : str) : str :=
  match s with
  | [] => []
  | c :: rest =>
      match skip with
      | S k => replace_go old new k rest
      | O =>
          if is_prefix old s
          then new ++ replace_go old new (pred (length old)) rest
          else c :: replace_go old new 0 rest
      end
  end.

Definition str_replace (old new s : str) : str := replace_go old new 0 s.

(** ** Regular expressions

    The fragment of Python's [re] that app.py uses: literals and character
    classes, greedy repetition of a class, capture groups, concatenation and
    alternation and [^] under [re.MULTILINE].  Matching is by backtracking, so the first
    success is the match [re] reports. *)
Module Re.

Inductive regex : Type :=
| Eps : regex
| Bol : regex
| One : (char -> bool) -> regex
| Many : nat -> (char -> bool) -> regex
| Grp : regex -> regex
| Cat : regex -> regex -> regex
| Alt : regex -> regex -> regex.

Section Exec.

Variable X : Type.

(** Greedy repetition of class [p], at least [need] more times: take one more
    character when possible, and fall back to stopping here when the rest of
    the pattern fails further on. *)
Fixpoint many (p : char -> bool) (need : nat) (before after : str)
  (k : str -> str -> option X) : option X :=
  let stop := match need with O => k before after | S _ => None end in
  match after with
  | c :: rest =>
      if p c then
        match many p (pred need) (c :: before) rest k with
        | Some x => Some x
        | None => stop
        end
      else stop
  | [] => stop
  end.

(** The position is the text [before] it, reversed, and the text [after] it;
    [gs] are the groups closed so far, in order. *)
Fixpoint exec (r : regex) (before after : str) (gs : list str)
  (k : str -> str -> list str -> option X) : option X :=
  match r with
  | Eps => k before after gs
  | Bol =>
      match before with
      | [] => k before after gs
      | c :: _ => if N.eqb c NL then k before after gs else None
      end
  | One p =>
      match after with
      | c :: rest => if p c then k (c :: before) rest gs else None
      | [] => None
      end
  | Many n p => many p n before after (fun b a => k b a gs)
  | Grp r' =>
      exec r' before after gs
        (fun b a gs' =>
           k b a (gs' ++ [rev (firstn (length b - length before) b)]))
  | Cat r1 r2 =>
      exec r1 before after gs (fun b a gs' => exec r2 b a gs' k)
  | Alt r1 r2 =>
      match exec r1 before after gs k with
      | Some x => Some x
      | None => exec r2 before after gs k
      end
  end.

End Exec.

(** [pattern.match] at one position: the groups and the number of characters
    matched. *)
Definition match_at (r : regex) (before after : str) : option (list str * nat) :=
  exec r before after []
    (fun _ a gs => Some (gs, length after - length a)).

(** [re.sub(pattern, repl, s)]: scan from the left; at a match emit the
    replacement and resume after it, elsewhere copy the character.  [skip]
    counts the characters of the current match still to pass over.  An empty
    match emits the replacement and copies the character (Python 3.7 and
    later); none of the patterns below has one. *)
Fixpoint sub_go (r : regex) (repl : list str -> str) (skip : nat)
  (before after : str) : str :=
  match after with
  | [] =>
      match skip with
      | O => match match_at r before [] with
             | Some (gs, _) => repl gs
             | None => []
             end
      | S _ => []
      end
  | c :: rest =>
      match skip with
      | S k => sub_go r repl k (c :: before) rest
      | O =>
          match match_at r before after with
          | Some (gs, S n) => repl gs ++ sub_go r repl n (c :: before) rest
          | Some (gs, O) => repl gs ++ c :: sub_go r repl 0 (c :: before) rest
          | None => c :: sub_go r repl 0 (c :: before) rest
          end
      end
  end.

Definition sub (r : regex) (repl : list str -> str) (s : str) : str :=
  sub_go r repl 0 [] s.

(** Group [i] of a match, numbered from 1. *)
Definition group (gs : list str) (i : nat) : str := nth (pred i) gs [].

(** [pattern.search(s)] as a truth value: a match at some position. *)
Fixpoint search_go (r : regex) (before after : str) : bool :=
  match match_at r before after with
  | Some _ => true
  | None =>
      match after with
      | [] => false
      | c :: rest => search_go r (c :: before) rest
      end
  end.

Definition search (r : regex) (s : str) : bool := search_go r [] s.

(** A word of the pattern, one class per character. *)
Fixpoint word (cls : char -> char -> bool) (w : str) : regex :=
  match w with
  | [] => Eps
  | c :: w' => Cat (One (cls c)) (word cls w')
  end.

End Re.

Definition is_char (x : char) : char -> bool := N.eqb x.
Definition not_char (x : char) : char -> bool := fun c => negb (N.eqb x c).

(** ** clean_text *)

Section CleanText.

Variable uni_alnum : char -> bool.

Definition kept : char -> bool := kept_class (is_word uni_alnum).

(** [\s+] *)
Definition re_spaces : Re.regex := Re.Many 1 is_space.

(** [[^\w\s.,!?-]] *)
Definition re_special : Re.regex := Re.One (fun c => negb (kept c)).

Definition clean_text (text : str) : str :=
  let text := Re.sub re_spaces (fun _ => [SP]) text in
  let text := Re.sub re_special (fun _ => []) text in
  strip text.

End CleanText.

(** ** The answer rewrites of ask_question *)

Section FormatAnswer.

Variable uni_decimal : char -> bool.

Local Open Scope N_scope.

(** [^(\d+)\.\s+([^\n]+)] *)
Definition re_numbered : Re.regex :=
  Re.Cat Re.Bol
    (Re.Cat (Re.Grp (Re.Many 1 (is_digit uni_decimal)))
       (Re.Cat (Re.One (is_char 46))
          (Re.Cat (Re.Many 1 is_space)
             (Re.Grp (Re.Many 1 (not_char NL)))))).

(** [<h3>\1. \2</h3>] *)
Definition repl_heading (gs : list str) : str :=
  lit "<h3>" ++ Re.group gs 1 ++ lit ". " ++ Re.group gs 2 ++ lit "</h3>".

(** A double quote, a group of characters other than the double quote, and
    a double quote: the pattern of line 198. *)
Definition re_quoted : Re.regex :=
  Re.Cat (Re.One (is_char QUOTE))
    (Re.Cat (Re.Grp (Re.Many 0 (not_char QUOTE))) (Re.One (is_char QUOTE))).

(** The quoted span in bold, quotes kept: replacement of line 198. *)
Definition repl_bold (gs : list str) : str :=
  lit "<b>" ++ [QUOTE] ++ Re.group gs 1 ++ [QUOTE] ++ lit "</b>".

(** [^-\s+] *)
Definition re_dash : Re.regex :=
  Re.Cat Re.Bol (Re.Cat (Re.One (is_char 45)) (Re.Many 1 is_space)).

(** The replacement literal of the last rewrite, as the source file spells
    it: U+00E2, U+20AC, U+00A2 and a space. *)
Definition bullet_literal : str := [226; 8364; 162; 32].

(** The bullet glyph U+2022. *)
Definition BULLET : char := 8226.

Local Close Scope N_scope.

(** Lines 192 to 200 of ask_question, on the text of the model's response. *)
Definition format_answer (text : str) : str :=
  let answer := strip text in
  let answer := Re.sub re_numbered repl_heading answer in
  let answer := str_replace [NL; NL] (lit "<br><br>") answer in
  let answer := Re.sub re_quoted repl_bold answer in
  let answer := Re.sub re_dash (fun _ => bullet_literal) answer in
  answer.

End FormatAnswer.

(** The scenario of the specification: a numbered line [1. Hello], a blank
    line, [World says] with a quoted [hi], and a dash line. *)
Definition scenario_answer : str :=
  lit "1. Hello" ++ [NL; NL] ++ lit "World says " ++ [QUOTE] ++ lit "hi"
  ++ [QUOTE] ++ lit " and" ++ [NL] ++ lit "- a bullet".

(** ** Dictionaries *)

(** A Python dict with string keys, in insertion order. *)
Definition dict (A : Type) : Type := list (str * A).

(** [d.get(k)] *)
Fixpoint dict_get (A : Type) (k : str) (d : dict A) : option A :=
  match d with
  | [] => None
  | (k', v) :: d' => if str_eqb k k' then Some v else dict_get k d'
  end.

(** [k in d] *)
Definition dict_has (A : Type) (k : str) (d : dict A) : bool :=
  match dict_get k d with Some _ => true | None => false end.

(** [d[k] = v]: a present key keeps its place. *)
Fixpoint dict_set (A : Type) (k : str) (v : A) (d : dict A) : dict A :=
  match d with
  | [] => [(k, v)]
  | (k', v') :: d' =>
      if str_eqb k k' then (k, v) :: d' else (k', v') :: dict_set k v d'
  end.

(** ** The parsed document *)

(** What [BeautifulSoup(text, 'html.parser')] hands to the code: tags with
    their attribute dictionary and children, and strings of two sorts.  A
    [Text] is a string that [get_text] reports (the classes NavigableString
    and CData); a [Comment] is a string of any other class (a comment, a
    declaration, a doctype, a processing instruction, or a string that the
    parser classes apart), which [get_text] passes over but which counts as
    a child of its tag, for [.string] too.
    A [soup] is the content of the document object. *)
Inductive node : Type :=
| Text (s : str)
| Comment (s : str)
| Elem (name : str) (attrs : dict str) (kids : list node).

Definition soup := list node.

Section NodeInd.

Variable P : node -> Prop.
Hypothesis P_text : forall s, P (Text s).
Hypothesis P_comment : forall s, P (Comment s).
Hypothesis P_elem : forall n a ks, Forall P ks -> P (Elem n a ks).

Fixpoint node_ind' (n : node) : P n :=
  match n with
  | Text s => P_text s
  | Comment s => P_comment s
  | Elem nm a ks =>
      P_elem nm a
        ((fix all (l : list node) : Forall P l :=
            match l with
            | [] => Forall_nil P
            | x :: l' => Forall_cons x (node_ind' x) (all l')
            end) ks)
  end.

End NodeInd.

Definition is_tag (nm : str) (n : node) : bool :=
  match n with Elem nm' _ _ => str_eqb nm nm' | _ => false end.

(** [tag.get(key)] *)
Definition attr (key : str) (n : node) : option str :=
  match n with Elem _ a _ => dict_get key a | _ => None end.

(** A node and what is below it in document order, each tag before its own
    descendants: the order in which [find] and [find_all] visit them. *)
Fixpoint descendants_of (n : node) : list node :=
  match n with
  | Text _ => [n]
  | Comment _ => [n]
  | Elem _ _ ks => n :: flat_map descendants_of ks
  end.

Definition descendants (d : soup) : list node := flat_map descendants_of d.

(** [soup.find(...)]: the first match in document order, or None. *)
Definition find (p : node -> bool) (d : soup) : option node :=
  List.find p (descendants d).

(** [soup.find_all(...)] *)
Definition find_all (p : node -> bool) (d : soup) : list node :=
  filter p (descendants d).

Definition kids_of (n : node) : list node :=
  match n with Elem _ _ ks => ks | _ => [] end.

(** The strings [get_text] visits under a list of nodes: those of the
    classes it reports, in document order. *)
Fixpoint strings_of (n : node) : list str :=
  match n with
  | Text s => [s]
  | Comment _ => []
  | Elem _ _ ks => flat_map strings_of ks
  end.

Definition all_strings (d : list node) : list str := flat_map strings_of d.

Definition nonempty (s : str) : bool :=
  match s with [] => false | _ :: _ => true end.

(** [get_text(separator=sep, strip=True)] over the nodes [d]: every string is
    stripped, the empty ones are dropped, the rest joined. *)
Definition get_text (sep : str) (d : list node) : str :=
  join sep (filter nonempty (map strip (all_strings d))).

(** ** extract_main_content *)

Definition removed_kinds : list str :=
  [lit "header"; lit "footer"; lit "nav"; lit "script"; lit "style";
   lit "iframe"; lit "form"].

Definition is_removed (nm : str) : bool := existsb (str_eqb nm) removed_kinds.

(** The loop [for element in soup([...]): element.decompose()]: every tag of
    a removed kind leaves the tree with all that is below it. *)
Fixpoint decompose (n : node) : list node :=
  match n with
  | Text s => [Text s]
  | Comment s => [Comment s]
  | Elem nm a ks =>
      if is_removed nm then [] else [Elem nm a (flat_map decompose ks)]
  end.

Definition decompose_all (d : soup) : soup := flat_map decompose d.

Local Open Scope N_scope.

(** A pattern letter under [re.I]: the letter, its capital, and for [i] the
    two further letters the Unicode case tables relate to it. *)
Definition ci (x c : char) : bool :=
  (N.eqb c x || N.eqb (c + 32) x
   || (N.eqb x 105 && (N.eqb c 304 || N.eqb c 305)))%bool.

Local Close Scope N_scope.

(** [re.compile(r'content|main|article', re.I)] *)
Definition re_content_class : Re.regex :=
  Re.Alt (Re.word ci (lit "content"))
    (Re.Alt (Re.word ci (lit "main")) (Re.word ci (lit "article"))).

(** [value.split()]: the class attribute as the parser stores it, a list of
    whitespace-separated names. *)
Fixpoint split_ws (cur : str) (s : str) : list str :=
  match s with
  | [] => match cur with [] => [] | _ => [rev cur] end
  | c :: r =>
      if is_space c
      then match cur with [] => split_ws [] r | _ => rev cur :: split_ws [] r end
      else split_ws (c :: cur) r
  end.

(** A compiled pattern against the multi-valued class attribute: some class
    name matches, or the names joined by spaces do. *)
Definition class_matches (r : Re.regex) (n : node) : bool :=
  match attr (lit "class") n with
  | None => false
  | Some v =>
      let names := split_ws [] v in
      (existsb (Re.search r) names || Re.search r (join [SP] names))%bool
  end.

Definition orelse (A : Type) (x y : option A) : option A :=
  match x with Some _ => x | None => y end.

(** The region whose text is extracted, if one is found: a tag is always
    truthy, so [or] picks the first search that finds something. *)
Definition main_content (d : soup) : option node :=
  orelse (find (is_tag (lit "main")) d)
    (orelse (find (is_tag (lit "article")) d)
       (find (fun n => is_tag (lit "div") n && class_matches re_content_class n)%bool d)).

(** [extract_main_content(soup)]: the text, and the soup as the call leaves
    it, since the removal is done in place on the caller's object. *)
Definition extract_main_content (d : soup) : str * soup :=
  let d' := decompose_all d in
  match main_content d' with
  | Some region => (get_text [SP] (kids_of region), d')
  | None => (get_text [SP] d', d')
  end.

(** ** JSON values and HTTP responses *)

Inductive json : Type :=
| JNull
| JBool (b : bool)
| JNum (repr : str)
| JStr (s : str)
| JArr (items : list json)
| JObj (items : dict json).

(** What a handler returns: [jsonify(body), status]. *)
Record response : Type := Response { status : nat; body : json }.

Definition error_body (msg : str) : json := JObj [(lit "error", JStr msg)].

(** A step of the program that may raise; [Raised] carries [str(e)]. *)
Inductive result (A : Type) : Type :=
| Ok (a : A)
| Raised (msg : str).

Arguments Raised {A} msg.

(** [len(v)], defined on strings, lists and dicts. *)
Definition py_len (v : json) : option nat :=
  match v with
  | JStr s => Some (length s)
  | JArr l => Some (length l)
  | JObj d => Some (length d)
  | _ => None
  end.

(** What [for x in v] goes through: the elements of a list, the characters
    of a string, the keys of a dict. *)
Definition py_iter (v : json) : list json :=
  match v with
  | JArr l => l
  | JStr s => map (fun c => JStr [c]) s
  | JObj d => map (fun kv => JStr (fst kv)) d
  | _ => []
  end.

Definition default (A : Type) (d : A) (o : option A) : A :=
  match o with Some a => a | None => d end.

(** ** Calls that leave the process *)

(** [requests.get] with [raise_for_status] and the parse: an exception, or
    the parsed document. *)
Inductive fetched : Type :=
| FetchRaised (msg : str)
| Fetched (d : soup).

(** [model.generate_content] and [response.text]: an exception, or the text
    of a response. *)
Inductive generated : Type :=
| GenRaised (msg : str)
| GenText (text : str).

Inductive io (A : Type) : Type :=
| Ret (a : A)
| HttpGet (url : str) (k : fetched -> io A)
| Generate (prompt : str) (k : generated -> io A).

Arguments Ret {A} a.
Arguments HttpGet {A} url k.
Arguments Generate {A} prompt k.

Fixpoint bind (A B : Type) (m : io A) (f : A -> io B) : io B :=
  match m with
  | Ret a => f a
  | HttpGet url k => HttpGet url (fun r => bind (k r) f)
  | Generate prompt k => Generate prompt (fun r => bind (k r) f)
  end.

Inductive call : Type :=
| CallGet (url : str)
| CallGenerate (prompt : str).

(** The world outside: what each call answers, given the calls made so far. *)
Record env : Type := Env {
  on_get : list call -> str -> fetched;
  on_generate : list call -> str -> generated
}.

(** Run a handler against an environment: its result and the calls it has
    made, oldest first. *)
Fixpoint run (A : Type) (e : env) (hist : list call) (p : io A) : A * list call :=
  match p with
  | Ret a => (a, hist)
  | HttpGet url k => run e (hist ++ [CallGet url]) (k (on_get e hist url))
  | Generate prompt k =>
      run e (hist ++ [CallGenerate prompt]) (k (on_generate e hist prompt))
  end.

(** The [try ... except Exception as e: return jsonify(error), 500] around a
    handler's body. *)
Definition handler (p : io (result response)) : io response :=
  bind p (fun r =>
    Ret (match r with
         | Ok resp => resp
         | Raised msg => Response 500 (error_body msg)
         end)).

(** Exceptions the interpreter raises on a value of the wrong type: an
    attribute the value has not, [len] of a value without length, a slice
    of a value that cannot be subscripted, and a slice handed to a dict,
    which takes it for a key. *)
Inductive fault : Type :=
| NoAttribute (v : json) (name : str)
| NotSized (v : json)
| NotSubscriptable (v : json)
| SliceAsKey (v : json).

(** ** urllib.parse.urljoin

    The resolver that scrape_url calls on every href, as the standard
    library of CPython 3.11 defines it for two [str] arguments, function by
    function: [urlsplit], [urlparse], [urlunsplit], [urlunparse] and
    [urljoin].  Two checks of [urlsplit] lean on other modules and stay
    parameters: the NFKC normal form of [unicodedata], asked only for a
    network location outside ASCII, and [_check_bracketed_host], which asks
    [ipaddress] about a host in square brackets. *)
Module Url.

Local Open Scope N_scope.

Definition COLON : char := 58.
Definition SLASH : char := 47.
Definition QMARK : char := 63.
Definition HASH : char := 35.
Definition SEMI : char := 59.
Definition AT : char := 64.
Definition LBRACKET : char := 91.
Definition RBRACKET : char := 93.
Definition DOT : char := 46.

(** [c in s] *)
Definition has (c : char) (s : str) : bool := existsb (N.eqb c) s.

(** [x in names] for a list of strings. *)
Definition among (names : list str) (x : str) : bool := existsb (str_eqb x) names.

(** The text before the first [c] and the text after it, when [c] occurs:
    [s.find(c)], [s.partition(c)] and [s.split(c, 1)]. *)
Fixpoint cut (c : char) (s : str) : option (str * str) :=
  match s with
  | [] => None
  | x :: r =>
      if N.eqb x c then Some ([], r)
      else match cut c r with
           | Some (a, b) => Some (x :: a, b)
           | None => None
           end
  end.

(** The same at the last [c]: [s.rfind(c)] and [s.rpartition(c)]. *)
Definition rcut (c : char) (s : str) : option (str * str) :=
  match cut c (rev s) with
  | Some (a, b) => Some (rev b, rev a)
  | None => None
  end.

(** [s.split(c)]: never empty. *)
Fixpoint split (c : char) (s : str) : list str :=
  match s with
  | [] => [[]]
  | x :: r =>
      if N.eqb x c then [] :: split c r
      else match split c r with
           | seg :: segs => (x :: seg) :: segs
           | [] => [[x]]
           end
  end.

(** The characters of [_WHATWG_C0_CONTROL_OR_SPACE]. *)
Definition c0_or_space (c : char) : bool := N.leb c 32.

Fixpoint lstrip_c0 (s : str) : str :=
  match s with
  | [] => []
  | c :: r => if c0_or_space c then lstrip_c0 r else s
  end.

Definition strip_c0 (s : str) : str := rev (lstrip_c0 (rev (lstrip_c0 s))).

(** The characters of [_UNSAFE_URL_BYTES_TO_REMOVE]: tab, CR and LF. *)
Definition unsafe (c : char) : bool := (N.eqb c 9 || N.eqb c 13 || N.eqb c 10)%bool.

Definition remove_unsafe (s : str) : str := filter (fun c => negb (unsafe c)) s.

Definition ascii_letter (c : char) : bool := (in_range 65 90 c || in_range 97 122 c)%bool.

(** [scheme_chars]: letters, digits, plus, minus and dot. *)
Definition scheme_char (c : char) : bool :=
  (ascii_alnum c || N.eqb c 43 || N.eqb c 45 || N.eqb c 46)%bool.

(** [str.lower] on ASCII. *)
Definition lower (c : char) : char := if in_range 65 90 c then c + 32 else c.

Definition is_ascii (s : str) : bool := forallb (fun c => N.ltb c 128) s.

Local Close Scope N_scope.

Definition uses_relative : list str :=
  [lit ""; lit "ftp"; lit "http"; lit "gopher"; lit "nntp"; lit "imap";
   lit "wais"; lit "file"; lit "https"; lit "shttp"; lit "mms";
   lit "prospero"; lit "rtsp"; lit "rtspu"; lit "sftp";
   lit "svn"; lit "svn+ssh"; lit "ws"; lit "wss"].

Definition uses_netloc : list str :=
  [lit ""; lit "ftp"; lit "http"; lit "gopher"; lit "nntp"; lit "telnet";
   lit "imap"; lit "wais"; lit "file"; lit "mms"; lit "https"; lit "shttp";
   lit "snews"; lit "prospero"; lit "rtsp"; lit "rtspu"; lit "rsync";
   lit "svn"; lit "svn+ssh"; lit "sftp"; lit "nfs"; lit "git"; lit "git+ssh";
   lit "ws"; lit "wss"].

Definition uses_params : list str :=
  [lit ""; lit "ftp"; lit "hdl"; lit "prospero"; lit "http"; lit "imap";
   lit "https"; lit "shttp"; lit "rtsp"; lit "rtspu"; lit "sip"; lit "sips";
   lit "mms"; lit "sftp"; lit "tel"].

(** The six components of [urlparse]; [urlsplit] leaves [params] empty. *)
Record parts : Type := Parts {
  scheme : str;
  netloc : str;
  path : str;
  params : str;
  query : str;
  fragment : str
}.

(** [_splitnetloc(url, 2)] on the text after the two slashes: the network
    location ends at the first slash, question mark or hash. *)
Fixpoint splitnetloc (s : str) : str * str :=
  match s with
  | [] => ([], [])
  | c :: r =>
      if (N.eqb c SLASH || N.eqb c QMARK || N.eqb c HASH)%bool then ([], s)
      else let (a, b) := splitnetloc r in (c :: a, b)
  end.

(** [_splitparams(url)], called when a semicolon occurs in [url]: the
    parameters start at the first semicolon of the last path segment. *)
Definition splitparams (url : str) : str * str :=
  match rcut SLASH url with
  | Some (before, last) =>
      match cut SEMI last with
      | Some (a, b) => (before ++ SLASH :: a, b)
      | None => (url, [])
      end
  | None =>
      match cut SEMI url with
      | Some (a, b) => (a, b)
      | None => (url, [])
      end
  end.

(** [urlunsplit] and [urlunparse]. *)
Definition urlunsplit (scheme netloc url query fragment : str) : str :=
  let url :=
    if (nonempty netloc
        || (nonempty scheme && among uses_netloc scheme
            && negb (is_prefix [SLASH; SLASH] url)))%bool
    then
      let url :=
        if (nonempty url && negb (is_prefix [SLASH] url))%bool
        then SLASH :: url else url in
      [SLASH; SLASH] ++ netloc ++ url
    else url in
  let url := if nonempty scheme then scheme ++ COLON :: url else url in
  let url := if nonempty query then url ++ QMARK :: query else url in
  let url := if nonempty fragment then url ++ HASH :: fragment else url in
  url.

Definition urlunparse (p : parts) : str :=
  let url := if nonempty (params p) then path p ++ SEMI :: params p else path p in
  urlunsplit (scheme p) (netloc p) url (query p) (fragment p).

(** The segments of the merged path, resolved: a double dot takes the last
    segment away when there is one, a single dot is dropped. [acc] is the
    resolved path so far, last segment first. *)
Fixpoint resolve (acc : list str) (segments : list str) : list str :=
  match segments with
  | [] => rev acc
  | seg :: rest =>
      if str_eqb seg [DOT; DOT] then resolve (tl acc) rest
      else if str_eqb seg [DOT] then resolve acc rest
      else resolve (seg :: acc) rest
  end.

(** [segments[1:-1] = filter(None, segments[1:-1])] *)
Definition drop_empty_inside (segments : list str) : list str :=
  match segments with
  | first :: (_ :: _) as rest =>
      first :: filter nonempty (removelast rest) ++ [last rest []]
  | _ => segments
  end.

Section Library.

(** [unicodedata.normalize('NFKC', s)] *)
Variable nfkc : str -> str.

(** [_check_bracketed_host(hostname)]: the message of the ValueError it
    raises, or None when it returns. *)
Variable check_bracketed_host : str -> option str.

(** [_check_bracketed_netloc(netloc)]: the message of the ValueError it
    raises, or None. *)
Definition check_bracketed_netloc (netloc : str) : option str :=
  let hostname_and_port :=
    match rcut AT netloc with
    | Some (_, after) => after
    | None => netloc
    end in
  match cut LBRACKET hostname_and_port with
  | Some (before_bracket, bracketed) =>
      if nonempty before_bracket then Some (lit "Invalid IPv6 URL")
      else
        let (hostname, port) :=
          match cut RBRACKET bracketed with
          | Some (h, p) => (h, p)
          | None => (bracketed, [])
          end in
        if (nonempty port && negb (is_prefix [COLON] port))%bool
        then Some (lit "Invalid IPv6 URL")
        else check_bracketed_host hostname
  | None =>
      let hostname :=
        match cut COLON hostname_and_port with
        | Some (h, _) => h
        | None => hostname_and_port
        end in
      check_bracketed_host hostname
  end.

(** [_checknetloc(netloc)]: the message of the ValueError it raises, or
    None. *)
Definition checknetloc (netloc : str) : option str :=
  if (negb (nonempty netloc) || is_ascii netloc)%bool then None
  else
    let n :=
      filter (fun c => negb (N.eqb c AT || N.eqb c COLON || N.eqb c HASH
                             || N.eqb c QMARK)%bool) netloc in
    let netloc2 := nfkc n in
    if str_eqb n netloc2 then None
    else if existsb (fun c => has c netloc2) [SLASH; QMARK; HASH; AT; COLON]
    then Some (lit "netloc '" ++ netloc
               ++ lit "' contains invalid characters under NFKC normalization")
    else None.

(** [urlsplit(url, scheme)] *)
Definition urlsplit (url scheme : str) : result parts :=
  let url := remove_unsafe (lstrip_c0 url) in
  let scheme := remove_unsafe (strip_c0 scheme) in
  let (scheme, url) :=
    match cut COLON url with
    | Some (c :: name, rest) =>
        if (ascii_letter c && forallb scheme_char (c :: name))%bool
        then (map lower (c :: name), rest)
        else (scheme, url)
    | _ => (scheme, url)
    end in
  let (netloc, url) :=
    match url with
    | a :: b :: rest =>
        if (N.eqb a SLASH && N.eqb b SLASH)%bool then splitnetloc rest
        else ([], url)
    | _ => ([], url)
    end in
  let bracket_error :=
    if (has LBRACKET netloc && negb (has RBRACKET netloc)
        || has RBRACKET netloc && negb (has LBRACKET netloc))%bool
    then Some (lit "Invalid IPv6 URL")
    else if (has LBRACKET netloc && has RBRACKET netloc)%bool
    then check_bracketed_netloc netloc
    else None in
  match bracket_error with
  | Some msg => Raised msg
  | None =>
      let (url, fragment) :=
        match cut HASH url with
        | Some (a, b) => (a, b)
        | None => (url, [])
        end in
      let (url, query) :=
        match cut QMARK url with
        | Some (a, b) => (a, b)
        | None => (url, [])
        end in
      match checknetloc netloc with
      | Some msg => Raised msg
      | None => Ok (Parts scheme netloc url [] query fragment)
      end
  end.

(** [urlparse(url, scheme)] *)
Definition urlparse (url scheme : str) : result parts :=
  match urlsplit url scheme with
  | Raised msg => Raised msg
  | Ok (Parts scheme netloc url _ query fragment) =>
      let (url, params) :=
        if (among uses_params scheme && has SEMI url)%bool
        then splitparams url
        else (url, []) in
      Ok (Parts scheme netloc url params query fragment)
  end.

(** [urljoin(base, url)] *)
Definition urljoin (base url : str) : result str :=
  if negb (nonempty base) then Ok url
  else if negb (nonempty url) then Ok base
  else
    match urlparse base [] with
    | Raised msg => Raised msg
    | Ok (Parts bscheme bnetloc bpath bparams bquery bfragment) =>
        match urlparse url bscheme with
        | Raised msg => Raised msg
        | Ok (Parts scheme netloc path params query fragment) =>
            if (negb (str_eqb scheme bscheme)
                || negb (among uses_relative scheme))%bool
            then Ok url
            else if (among uses_netloc scheme && nonempty netloc)%bool
            then Ok (urlunparse (Parts scheme netloc path params query fragment))
            else
              let netloc := if among uses_netloc scheme then bnetloc else netloc in
              if (negb (nonempty path) && negb (nonempty params))%bool
              then
                let query := if nonempty query then query else bquery in
                Ok (urlunparse (Parts scheme netloc bpath bparams query fragment))
              else
                let base_parts := split SLASH bpath in
                let base_parts :=
                  if nonempty (last base_parts []) then removelast base_parts
                  else base_parts in
                let segments :=
                  if is_prefix [SLASH] path then split SLASH path
                  else drop_empty_inside (base_parts ++ split SLASH path) in
                let resolved_path := resolve [] segments in
                let resolved_path :=
                  if (str_eqb (last segments []) [DOT]
                      || str_eqb (last segments []) [DOT; DOT])%bool
                  then resolved_path ++ [[]]
                  else resolved_path in
                let joined := join [SLASH] resolved_path in
                Ok (urlunparse
                      (Parts scheme netloc
                         (if nonempty joined then joined else [SLASH])
                         params query fragment))
        end
    end.

End Library.

End Url.

(** ** The prompt template of ask_question *)

Definition prompt_head : str :=
  join [NL]
    [lit "You are a knowledgeable and thorough research assistant. Analyze the provided content and answer the question comprehensively.";
     lit "";
     lit "Question: "].

Definition prompt_mid : str :=
  join [NL]
    [lit "";
     lit "";
     lit "Reference Content:";
     lit ""].

Definition prompt_tail : str :=
  join [NL]
    [lit "";
     lit "";
     lit "Please provide a detailed response following this structure:";
     lit "";
     lit "1. Direct Answer:";
     lit "   - Begin with a clear, direct answer to the question";
     lit "   - Highlight key points and main findings";
     lit "";
     lit "2. Supporting Evidence:";
     lit "   - Quote relevant passages from the source material using quotation marks";
     lit "   - Cite the specific source URL for each quote";
     lit "   - Explain how each piece of evidence supports the answer";
     lit "";
     lit "3. Analysis & Context:";
     lit "   - Provide additional context or background information";
     lit "   - Explain any important relationships or implications";
     lit "   - Address any potential limitations or caveats";
     lit "";
     lit "4. Summary:";
     lit "   - Conclude with a brief summary of the key points";
     lit "   - Highlight any remaining uncertainties or areas needing clarification";
     lit "";
     lit "If the provided content doesn't contain sufficient information to answer the question:";
     lit "- Clearly state what information is missing";
     lit "- Explain what additional information would be needed";
     lit "- Note any partial insights that can be drawn from the available content";
     lit "";
     lit "Format your response using clear headings and bullet points for readability."].

(** The separator of [join] on line 152. *)
Definition context_sep : str := [NL; NL] ++ lit "---" ++ [NL; NL].

(** The text after the content in a block, up to the closing quotes. *)
Definition stray_comment : str := lit "  # Limit content length per URL".

Definition block_end : str := stray_comment ++ [NL] ++ lit "                ".

Section App.

(** What the interpreter and its libraries supply: the Unicode tables, the
    resolver of hrefs, [str()] of a value that is not a string, and the
    message of an exception the interpreter raises.  The resolver of the
    program is [Url.urljoin]; what does not depend on how an href is
    resolved is proved for any resolver. *)
Variable uni_alnum : char -> bool.
Variable uni_decimal : char -> bool.
Variable urljoin : str -> str -> result str.
Variable py_repr : json -> str.
Variable fault_msg : fault -> str.

(** ** scrape_url *)

(** [soup.title.string if soup.title else '']: [.string] of a tag is None
    unless the tag has exactly one child; it is that child when the child is
    a string of any class, a comment included, and the [.string] of that
    child when the child is a tag. *)
Fixpoint dot_string (n : node) : option str :=
  match n with
  | Text s => Some s
  | Comment s => Some s
  | Elem _ _ [k] => dot_string k
  | Elem _ _ _ => None
  end.

Definition title_of (d : soup) : option str :=
  match find (is_tag (lit "title")) d with
  | Some t => dot_string t
  | None => Some []
  end.

Definition json_of_title (t : option str) : json :=
  match t with Some s => JStr s | None => JNull end.

(** [soup.find_all('a', href=True)]: the anchors that carry an href. *)
Definition has_href (n : node) : bool :=
  match attr (lit "href") n with Some _ => true | None => false end.

Definition anchors (d : soup) : list node :=
  find_all (fun n => is_tag (lit "a") n && has_href n)%bool d.

Definition hrefs (d : soup) : list str :=
  map (fun a => default [] (attr (lit "href") a)) (anchors d).

(** The list comprehension of line 71: every href is resolved, in order; the
    first exception ends it. *)
Fixpoint join_all (url : str) (hs : list str) : result (list str) :=
  match hs with
  | [] => Ok []
  | h :: hs' =>
      match urljoin url h with
      | Raised msg => Raised msg
      | Ok l =>
          match join_all url hs' with
          | Raised msg => Raised msg
          | Ok ls => Ok (l :: ls)
          end
      end
  end.

Definition page_record (title : option str) (content : str) (links : list str)
  : dict json :=
  [(lit "title", json_of_title title);
   (lit "content", JStr content);
   (lit "links", JArr (map JStr links))].

Definition error_record (url msg : str) : dict json :=
  [(lit "error", JStr (lit "Error scraping " ++ url ++ lit ": " ++ msg))].

(** Lines 59 to 79: from the parsed document to the record. *)
Definition scrape_soup (url : str) (d : soup) : result (dict json) :=
  let title := title_of d in
  let (content, d') := extract_main_content d in
  let cleaned_content := clean_text uni_alnum content in
  match join_all url (hrefs d') with
  | Raised msg => Raised msg
  | Ok links => Ok (page_record title cleaned_content (firstn 5 links))
  end.

Definition scrape_url (url : str) : io (dict json) :=
  HttpGet url (fun r =>
    Ret (match r with
         | FetchRaised msg => error_record url msg
         | Fetched d =>
             match scrape_soup url d with
             | Ok record => record
             | Raised msg => error_record url msg
             end
         end)).

(** ** fetch_content *)

(** The loop of lines 106 to 112 over the remaining [urls], with the map
    [content] built so far. *)
Fixpoint fetch_loop (urls : list json) (content : dict json)
  : io (result response) :=
  match urls with
  | [] => Ret (Ok (Response 200 (JObj [(lit "content", JObj content)])))
  | JStr url :: rest =>
      if nonempty (strip url) then
        bind (scrape_url url) (fun record =>
          match dict_get (lit "error") record with
          | Some e => Ret (Ok (Response 400 (JObj [(lit "error", e)])))
          | None => fetch_loop rest (dict_set url (JObj record) content)
          end)
      else fetch_loop rest content
  | v :: _ => Ret (Raised (fault_msg (NoAttribute v (lit "strip"))))
  end.

(** [fetch_content()], as a function of [request.json]. *)
Definition fetch_content (request_json : json) : io response :=
  handler
    match request_json with
    | JObj data =>
        let urls := default (JArr []) (dict_get (lit "urls") data) in
        match py_len urls with
        | None => Ret (Raised (fault_msg (NotSized urls)))
        | Some O => Ret (Ok (Response 400 (error_body (lit "No URLs provided"))))
        | Some (S _) => fetch_loop (py_iter urls) []
        end
    | v => Ret (Raised (fault_msg (NoAttribute v (lit "get"))))
    end.

(** ** ask_question *)

(** An f-string field: a string as it is, anything else through [str()]. *)
Definition fmt (v : json) : str :=
  match v with JStr s => s | _ => py_repr v end.

(** [data['content'][:1500]] inside the f-string: a string and a list are
    cut, a dict looks the slice up as a key and raises, any other value
    cannot be subscripted. *)
Definition content_field (v : json) : result str :=
  match v with
  | JStr s => Ok (firstn 1500 s)
  | JArr l => Ok (py_repr (JArr (firstn 1500 l)))
  | JObj _ => Raised (fault_msg (SliceAsKey v))
  | _ => Raised (fault_msg (NotSubscriptable v))
  end.

(** The f-string of lines 145 to 150. *)
Definition block (url title content : str) : str :=
  [NL] ++ lit "Source: " ++ url ++ [NL] ++ lit "Title: " ++ title ++ [NL]
  ++ lit "Content:" ++ [NL] ++ content ++ block_end.

(** The loop of lines 143 to 150. *)
Fixpoint context_parts (items : dict json) : result (list str) :=
  match items with
  | [] => Ok []
  | (url, data) :: rest =>
      let more (parts : list str) :=
        match context_parts rest with
        | Ok ps => Ok (parts ++ ps)
        | Raised msg => Raised msg
        end in
      match data with
      | JObj d =>
          match dict_get (lit "title") d, dict_get (lit "content") d with
          | Some t, Some c =>
              match content_field c with
              | Ok text => more [block url (fmt t) text]
              | Raised msg => Raised msg
              end
          | _, _ => more []
          end
      | _ => more []
      end
  end.

Definition prompt_of (question context : str) : str :=
  prompt_head ++ question ++ prompt_mid ++ context ++ prompt_tail.

(** [ask_question()], as a function of [request.json]. *)
Definition ask_question (request_json : json) : io response :=
  handler
    match request_json with
    | JObj data =>
        let content := default (JObj []) (dict_get (lit "content") data) in
        match default (JStr []) (dict_get (lit "question") data) with
        | JStr q =>
            let question := strip q in
            match py_len content with
            | None => Ret (Raised (fault_msg (NotSized content)))
            | Some O =>
                Ret (Ok (Response 400 (error_body (lit "No content provided"))))
            | Some (S _) =>
                if negb (nonempty question) then
                  Ret (Ok (Response 400 (error_body (lit "No question provided"))))
                else
                  match content with
                  | JObj items =>
                      match context_parts items with
                      | Raised msg => Ret (Raised msg)
                      | Ok parts =>
                          let context := join context_sep parts in
                          Generate (prompt_of question context) (fun r =>
                            Ret (match r with
                                 | GenRaised msg => Raised msg
                                 | GenText text =>
                                     if nonempty text then
                                       Ok (Response 200
                                             (JObj [(lit "answer",
                                                     JStr (format_answer uni_decimal text))]))
                                     else
                                       Ok (Response 500
                                             (error_body (lit "No response generated")))
                                 end))
                      end
                  | v => Ret (Raised (fault_msg (NoAttribute v (lit "items"))))
                  end
            end
        | v => Ret (Raised (fault_msg (NoAttribute v (lit "strip"))))
        end
    | v => Ret (Raised (fault_msg (NoAttribute v (lit "get"))))
    end.

End App.

(** * Properties *)

Arguments is_space : simpl never.
Arguments kept : simpl never.
Arguments is_removed : simpl never.

(** ** Auxiliary definitions *)

(** Length of the longest prefix of [s] inside the class [p]. *)
Fixpoint run_len (p : char -> bool) (s : str) : nat :=
  match s with
  | c :: r => if p c then S (run_len p r) else 0
  | [] => 0
  end.

(** Every whitespace run becomes one space; [in_run] says that the previous
    character was whitespace. *)
Fixpoint squeeze (in_run : bool) (s : str) : str :=
  match s with
  | [] => []
  | c :: r =>
      if is_space c
      then (if in_run then squeeze true r else SP :: squeeze true r)
      else c :: squeeze false r
  end.

(** The strings [squeeze] leaves alone: whitespace is a single space between
    other characters. *)
Fixpoint squeezed (in_run : bool) (s : str) : bool :=
  match s with
  | [] => true
  | c :: r =>
      if is_space c
      then (negb in_run && N.eqb c SP && squeezed true r)%bool
      else squeezed false r
  end.

(** A pattern that can match the empty string. *)
Fixpoint nullable (r : Re.regex) : bool :=
  match r with
  | Re.Eps => true
  | Re.Bol => true
  | Re.One _ => false
  | Re.Many n _ => Nat.eqb n 0
  | Re.Grp r' => nullable r'
  | Re.Cat r1 r2 => (nullable r1 && nullable r2)%bool
  | Re.Alt r1 r2 => (nullable r1 || nullable r2)%bool
  end.

(** The kinds of element that the specification lists for removal. *)
Definition boilerplate (nm : str) : Prop :=
  nm = lit "header" \/ nm = lit "footer" \/ nm = lit "nav"
  \/ nm = lit "script" \/ nm = lit "style" \/ nm = lit "iframe"
  \/ nm = lit "form".

(** Two documents that agree outside the headers, footers, navs, scripts,
    styles, iframes and forms: such tags come and go on either side, with
    anything below them. *)
Inductive agree : list node -> list node -> Prop :=
| agree_nil : agree [] []
| agree_text s l1 l2 :
    agree l1 l2 -> agree (Text s :: l1) (Text s :: l2)
| agree_comment s l1 l2 :
    agree l1 l2 -> agree (Comment s :: l1) (Comment s :: l2)
| agree_elem nm a k1 k2 l1 l2 :
    ~ boilerplate nm -> agree k1 k2 -> agree l1 l2 ->
    agree (Elem nm a k1 :: l1) (Elem nm a k2 :: l2)
| agree_left nm a ks l1 l2 :
    boilerplate nm -> agree l1 l2 -> agree (Elem nm a ks :: l1) l2
| agree_right nm a ks l1 l2 :
    boilerplate nm -> agree l1 l2 -> agree l1 (Elem nm a ks :: l2).

(** Stand-ins for the interpreter's tables in the examples: no letters or
    digits outside ASCII. *)
Definition ascii_only : char -> bool := fun _ => false.

(** A record with both a title and a content field. *)
Definition has_both (v : json) : bool :=
  match v with
  | JObj d => (dict_has (lit "title") d && dict_has (lit "content") d)%bool
  | _ => false
  end.

(** A field of a record; null when the record has none. *)
Definition field (k : str) (v : json) : json :=
  match v with
  | JObj d => default JNull (dict_get k d)
  | _ => JNull
  end.

(** The characters of a string value. *)
Definition text_of (v : json) : str :=
  match v with JStr s => s | _ => [] end.

(** The blocks as the specification words them: one for each URL whose
    record has both fields, with the URL, the title and the first 1500
    characters of the content. *)
Definition spec_blocks (py_repr : json -> str) (items : dict json) : list str :=
  map (fun kv => block (fst kv) (fmt py_repr (field (lit "title") (snd kv)))
                   (firstn 1500 (text_of (field (lit "content") (snd kv)))))
    (filter (fun kv => has_both (snd kv)) items).

(** Records as the data model types them: a content that comes with a title
    is a string.  The title itself may be null, as scrape_url leaves it for
    a page whose title tag has no single string. *)
Definition typed_record (v : json) : bool :=
  match v with
  | JObj d =>
      match dict_get (lit "title") d, dict_get (lit "content") d with
      | Some _, Some (JStr _) => true
      | Some _, Some _ => false
      | _, _ => true
      end
  | _ => true
  end.

(** [e] is the first node of [d], in document order, that satisfies [p]. *)
Definition first_in_order (p : node -> bool) (d : soup) (e : node) : Prop :=
  exists before after,
    descendants d = before ++ e :: after
    /\ p e = true
    /\ Forall (fun n => p n = false) before.

(** No node of [d] satisfies [p]. *)
Definition none_in (p : node -> bool) (d : soup) : Prop :=
  Forall (fun n => p n = false) (descendants d).

Definition is_main : node -> bool := is_tag (lit "main").
Definition is_article : node -> bool := is_tag (lit "article").
Definition is_content_div (n : node) : bool :=
  (is_tag (lit "div") n && class_matches re_content_class n)%bool.

(** The priority order of the selection, with a div in the third place. *)
Inductive selects (d : soup) : option node -> Prop :=
| sel_main e :
    first_in_order is_main d e -> selects d (Some e)
| sel_article e :
    none_in is_main d -> first_in_order is_article d e -> selects d (Some e)
| sel_div e :
    none_in is_main d -> none_in is_article d ->
    first_in_order is_content_div d e -> selects d (Some e)
| sel_document :
    none_in is_main d -> none_in is_article d -> none_in is_content_div d ->
    selects d None.

(** The text of a selected region, or of the whole document. *)
Definition region_text (d : soup) (r : option node) : str :=
  match r with
  | Some e => get_text [SP] (kids_of e)
  | None => get_text [SP] d
  end.

(** The selection as the specification words it: in the third place the
    first element, of any kind, whose class matches. *)
Definition spec_main_content (d : soup) : option node :=
  orelse (find is_main d)
    (orelse (find is_article d) (find (class_matches re_content_class) d)).

Definition spec_extract (d : soup) : str :=
  region_text (decompose_all d) (spec_main_content (decompose_all d)).

(** A section with a matching class next to a paragraph. *)
Definition section_doc : soup :=
  [Elem (lit "section") [(lit "class", lit "content")] [Text (lit "A")];
   Elem (lit "p") [] [Text (lit "B")]].

(** A thing to see in a document: a string, a comment, or a tag with its
    attributes. *)
Inductive item : Type :=
| IText (s : str)
| IComment (s : str)
| ITag (name : str) (attrs : dict str).

Definition item_of (n : node) : item :=
  match n with
  | Text s => IText s
  | Comment s => IComment s
  | Elem nm a _ => ITag nm a
  end.

(** [shows root i]: [i] is in the tree of [root], and neither it nor any tag
    above it is a header, footer, nav, script, style, iframe or form. *)
Inductive shows : node -> item -> Prop :=
| shows_text s : shows (Text s) (IText s)
| shows_comment s : shows (Comment s) (IComment s)
| shows_tag nm a ks :
    ~ boilerplate nm -> shows (Elem nm a ks) (ITag nm a)
| shows_below nm a ks k i :
    ~ boilerplate nm -> In k ks -> shows k i -> shows (Elem nm a ks) i.

Definition outside_removed (d : soup) (i : item) : Prop :=
  exists root, In root d /\ shows root i.

(** The hrefs of the anchors that carry the attribute, empty or not, in
    document order. *)
Definition carried_hrefs (d : soup) : list str :=
  flat_map (fun n =>
              match n with
              | Elem nm a _ =>
                  if str_eqb (lit "a") nm
                  then match dict_get (lit "href") a with
                       | Some h => [h]
                       | None => []
                       end
                  else []
              | _ => []
              end) (descendants d).

(** The hrefs as the specification words them: of the anchors whose href is
    not empty. *)
Definition spec_hrefs (d : soup) : list str :=
  filter nonempty (carried_hrefs d).

(** The part of [base] before its third slash: scheme and host of a URL of
    the form scheme://host/path. *)
Fixpoint origin (slashes : nat) (base : str) : str :=
  match base with
  | [] => []
  | c :: r =>
      if N.eqb c 47
      then match slashes with
           | O => []
           | S n => c :: origin n r
           end
      else c :: origin slashes r
  end.

(** A resolver for the examples.  It answers as urljoin does in two cases,
    for a base of the form scheme://host/path: an empty reference gives the
    base, and a reference that starts with one slash replaces the path.  Any
    other reference is returned as it is. *)
Definition example_urljoin (base u : str) : result str :=
  match u with
  | [] => Ok base
  | c :: u' =>
      if (N.eqb c 47 && negb (is_prefix [47%N] u'))%bool
      then Ok (origin 2 base ++ u)
      else Ok u
  end.

(** A page with one anchor whose href is empty. *)
Definition empty_href_doc : soup :=
  [Elem (lit "a") [(lit "href", [])] [Text (lit "top")]].

(** A page with an anchor in the navigation and one in the text. *)
Definition about_doc : soup :=
  [Elem (lit "nav") [] [Elem (lit "a") [(lit "href", lit "/menu")] [Text (lit "Menu")]];
   Elem (lit "main") []
     [Text (lit "Read "); Elem (lit "a") [(lit "href", lit "/about")] [Text (lit "about")]]].

Definition page_url : str := lit "https://a.com/x".
Definition bad_url : str := lit "http://bad.invalid".

Definition example_fault (f : fault) : str := lit "TypeError".
Definition example_repr (v : json) : str := lit "<value>".

(** An environment for the examples: the host bad.invalid cannot be reached,
    every other URL serves [about_doc]; the model answers with the scenario
    text. *)
Definition example_env : env :=
  Env (fun _ url =>
         if str_eqb url bad_url
         then FetchRaised (lit "connection failed")
         else Fetched about_doc)
      (fun _ _ => GenText scenario_answer).

(** A content map with a page record and an error record. *)
Definition example_content : dict json :=
  [(page_url, JObj [(lit "title", JStr (lit "About"));
                    (lit "content", JStr (lit "Read about"));
                    (lit "links", JArr [JStr (lit "https://a.com/about")])]);
   (bad_url, JObj [(lit "error", JStr (lit "Error scraping"))])].

Definition example_question : dict json -> str -> json :=
  fun content question =>
    JObj [(lit "content", JObj content); (lit "question", JStr question)].

(** A character that clean_text keeps and that is not whitespace. *)
Definition solid (uni_alnum : char -> bool) (c : char) : bool :=
  (kept uni_alnum c && negb (is_space c))%bool.

(** A resolver for the examples that fails as urljoin does on a reference
    with an opening bracket in the place of the host: the message is that of
    the ValueError of the library. *)
Definition bracket_urljoin (base u : str) : result str :=
  if is_prefix (lit "http://[") u
  then Raised (lit "Invalid IPv6 URL")
  else example_urljoin base u.

Definition anchor_to (href : str) : node :=
  Elem (lit "a") [(lit "href", href)] [Text (lit "link")].

(** A page with six anchors; the last one cannot be resolved. *)
Definition six_links_doc : soup :=
  [Elem (lit "main") []
     [anchor_to (lit "/1"); anchor_to (lit "/2"); anchor_to (lit "/3");
      anchor_to (lit "/4"); anchor_to (lit "/5"); anchor_to (lit "http://[")]].

(** A page whose title tag stands inside a header. *)
Definition header_title_doc : soup :=
  [Elem (lit "header") [] [Elem (lit "title") [] [Text (lit "Shop")]];
   Elem (lit "p") [] [Text (lit "Open daily")]].

(** An environment that serves one document for every URL. *)
Definition serving (d : soup) : env :=
  Env (fun _ _ => Fetched d) (fun _ _ => GenText []).

(** [list(d.keys())] *)
Definition dict_keys (A : Type) (d : dict A) : list str := map fst d.

(** The keys after [d[k] = v]: a new key goes to the end. *)
Definition add_key (k : str) (ks : list str) : list str :=
  if existsb (str_eqb k) ks then ks else ks ++ [k].

(** A value of the content map that fetch_content builds. *)
Definition is_page_record (v : json) : Prop :=
  exists title content links,
    v = JObj (page_record title content links) /\ length links <= 5.

(** A JSON value that is not a string. *)
Definition not_a_string (v : json) : bool :=
  match v with JStr _ => false | _ => true end.

(** A record whose string content is cut to its first 1500 characters. *)
Definition truncate_record (v : json) : json :=
  match v with
  | JObj d =>
      match dict_get (lit "content") d with
      | Some (JStr c) => JObj (dict_set (lit "content") (JStr (firstn 1500 c)) d)
      | _ => v
      end
  | _ => v
  end.

Definition truncate_map (items : dict json) : dict json :=
  map (fun kv => (fst kv, truncate_record (snd kv))) items.


(** The body of a request to ask_question. *)
Definition question_request (content : json) (question : str) : json :=
  JObj [(lit "content", content); (lit "question", JStr question)].

(** An environment whose model answers with a line break and spaces. *)
Definition blank_reply_env : env :=
  Env (fun _ _ => FetchRaised []) (fun _ _ => GenText [NL; SP; SP]).


(** Whether a position is at the start of a line, as [^] under
    [re.MULTILINE] sees it: nothing before it, or a line break. *)
Definition line_start_of (before : str) : bool :=
  match before with
  | [] => true
  | c :: _ => N.eqb c NL
  end.

(** No line of [s] begins with a character of the class [bad];
    [line_start] says whether [s] itself begins a line. *)
Fixpoint no_line_starts (bad : char -> bool) (line_start : bool) (s : str) : bool :=
  match s with
  | [] => true
  | c :: r =>
      (negb (line_start && bad c) && no_line_starts bad (N.eqb c NL) r)%bool
  end.

(** The first character of [s] is there and is not whitespace. *)
Definition starts_solid (s : str) : bool :=
  match s with
  | [] => false
  | c :: _ => negb (is_space c)
  end.

(** The last character of [s] is there and is not whitespace. *)
Definition ends_solid (s : str) : bool := starts_solid (rev s).

(** The characters that make a line a numbered line or a dash line. *)
Definition digit_or_dash (uni_decimal : char -> bool) (c : char) : bool :=
  (is_digit uni_decimal c || is_char 45%N c)%bool.

(** A text that the rewrites of the answer have nothing to do with: no line
    begins with a digit or a dash, no line is empty, and there is no double
    quote.  [line_start] says whether the text itself begins a line. *)
Definition plain (uni_decimal : char -> bool) (line_start : bool) (s : str) : bool :=
  (no_line_starts (digit_or_dash uni_decimal) line_start s
   && no_line_starts (is_char NL) false s
   && forallb (not_char QUOTE) s)%bool.

(** The state of [no_line_starts] after a text. *)
Definition line_start_after (ls : bool) (s : str) : bool :=
  match rev s with
  | [] => ls
  | c :: _ => N.eqb c NL
  end.

(** A pattern that asks for the start of a line and then for one character
    of the class [bad] finds nothing where no line begins with one. *)
Definition headed (r : Re.regex) (bad : char -> bool) : Prop :=
  forall before after,
    (line_start_of before = false
     \/ match after with [] => True | c :: _ => bad c = false end) ->
    Re.match_at r before after = None.

(** A character that neither is of class [bad] nor ends a line. *)
Definition inert (bad : char -> bool) (c : char) : bool :=
  (negb (bad c) && not_char NL c)%bool.

(** The schemes of the pages that can be fetched. *)
Definition web_scheme (s : str) : Prop := s = lit "http" \/ s = lit "https".

Definition among_netloc (s : str) : bool := Url.among Url.uses_netloc s.

(** The scheme of a parsed reference, if it parses. *)
Definition option_scheme (r : result Url.parts) : option str :=
  match r with Ok u => Some (Url.scheme u) | Raised _ => None end.

(** A link [l] for the href [h] on a page [base] of scheme [s] is absolute:
    it is the page's URL for an empty href; or the href as it stands, which
    names another scheme than the page ([hs] is the scheme the href parses
    to); or it starts with the scheme of the page, a colon and two
    slashes. *)
Definition absolute_against (base s : str) (hs : option str) (h l : str) : Prop :=
  (h = [] /\ l = base)
  \/ (l = h /\ hs <> Some s)
  \/ exists rest, l = s ++ lit "://" ++ rest.

(** Stand-ins for the two library checks of urlsplit in the examples: a
    normal form that changes nothing, and no objection to a bracketed host.
    Neither is asked on a URL whose host is plain ASCII. *)
Definition plain_nfkc (s : str) : str := s.
Definition lenient_host (h : str) : option str := None.

(** A page with an anchor in the navigation and seven in the text: a
    path from the root, an empty href, a mail address, a relative path, a
    host of its own, a fragment and a step up. *)
Definition links_doc : soup :=
  [Elem (lit "nav") [] [anchor_to (lit "/menu")];
   Elem (lit "main") []
     [anchor_to (lit "/about"); anchor_to []; anchor_to (lit "mailto:a@b.c");
      anchor_to (lit "docs/start"); anchor_to (lit "//cdn.b.org/lib.js");
      anchor_to (lit "#top"); anchor_to (lit "../up")]].

(** A page with text and an anchor under each of the seven kinds, and a
    sentence with one anchor outside them. *)
Definition boilerplate_doc : soup :=
  [Elem (lit "header") [] [Text (lit "Site header"); anchor_to (lit "/home")];
   Elem (lit "nav") [] [anchor_to (lit "/menu")];
   Elem (lit "div") []
     [Elem (lit "script") [] [Text (lit "var tracked = 1")];
      Elem (lit "style") [] [Text (lit "p color red")];
      Text (lit "Read ");
      Elem (lit "a") [(lit "href", lit "/about")] [Text (lit "about")];
      Elem (lit "form") [] [Text (lit "Search"); anchor_to (lit "/search")];
      Elem (lit "iframe") [] [Text (lit "Advert"); anchor_to (lit "/ad")]];
   Elem (lit "footer") [] [Text (lit "Imprint"); anchor_to (lit "/imprint")]].

(** The title as the f-string shows it: a string as it is, any other value
    as [str()] prints it. *)
Definition shown_title (py_repr : json -> str) (v : json) : str :=
  match v with JStr s => s | _ => py_repr v end.

(** A block as the prompt has to hold it for one entry of the map: the
    source URL, the title, and the first 1500 characters of the content,
    each on the line that names it. *)
Definition spec_block (py_repr : json -> str) (kv : str * json) : str :=
  [NL] ++ lit "Source: " ++ fst kv ++ [NL]
  ++ lit "Title: " ++ shown_title py_repr (field (lit "title") (snd kv)) ++ [NL]
  ++ lit "Content:" ++ [NL]
  ++ firstn 1500 (text_of (field (lit "content") (snd kv)))
  ++ lit "  # Limit content length per URL" ++ [NL] ++ lit "                ".

(** The blocks with the separator between them: an empty line, three
    dashes, an empty line. *)
Definition spec_context (blocks : list str) : str :=
  match blocks with
  | [] => []
  | b :: rest =>
      b ++ concat (map (fun b' => [NL; NL] ++ lit "---" ++ [NL; NL] ++ b') rest)
  end.

(** A content map with two page records, the first longer than 1500
    characters, an error record between them and a record without
    content. *)
Definition two_block_content : dict json :=
  [(page_url, JObj [(lit "title", JStr (lit "About"));
                    (lit "content", JStr (repeat 97%N 1600));
                    (lit "links", JArr [])]);
   (bad_url, JObj [(lit "error", JStr (lit "Error scraping"))]);
   (lit "https://a.com/y", JObj [(lit "title", JStr (lit "Prices"));
                                 (lit "content", JStr (lit "Second page"))]);
   (lit "https://a.com/z", JObj [(lit "title", JStr (lit "Empty"))])].




(** [.string] of a tag with the children [ks], as the library words it: the
    only child when it is a string of any class; the [.string] of the only
    child when it is a tag; None when there is no child or more than one. *)
Inductive tag_string : list node -> option str -> Prop :=
| tag_string_text s : tag_string [Text s] (Some s)
| tag_string_comment s : tag_string [Comment s] (Some s)
| tag_string_nested nm a ks r :
    tag_string ks r -> tag_string [Elem nm a ks] r
| tag_string_none ks : length ks <> 1 -> tag_string ks None.

(** A page whose title holds a text and a comment. *)
Definition comment_title_doc : soup :=
  [Elem (lit "title") [] [Text (lit "Shop"); Comment (lit " v2 ")];
   Elem (lit "p") [] [Text (lit "Open daily")]].

(** ** The regular-expression substitutions of clean_text *)

Lemma many_greedy (p : char -> bool) (gs : list str) (L : nat) :
  forall (after before : str) (need : nat),
    Re.many p need before after (fun _ a => Some (gs, L - length a))
    = if need <=? run_len p after
      then Some (gs, L - (length after - run_len p after))
      else None.
Proof.
  induction after as [|c rest IH]; intros before need; simpl.
  - destruct need; reflexivity.
  - destruct (p c) eqn:Hc.
    + rewrite IH. destruct need as [|need]; simpl.
      * reflexivity.
      * destruct (need <=? run_len p rest); reflexivity.
    + destruct need; simpl; reflexivity.
Qed.

Lemma run_len_le (p : char -> bool) (s : str) : run_len p s <= length s.
Proof.
  induction s as [|c r IH]; simpl; [lia|]. destruct (p c); simpl; lia.
Qed.

Lemma match_at_plus (p : char -> bool) (before after : str) :
  Re.match_at (Re.Many 1 p) before after
  = match run_len p after with
    | O => None
    | S n => Some ([], S n)
    end.
Proof.
  unfold Re.match_at. simpl Re.exec. rewrite many_greedy.
  pose proof (run_len_le p after) as Hle.
  destruct (run_len p after) as [|n] eqn:E; simpl; [reflexivity|].
  do 2 f_equal. lia.
Qed.

Lemma sub_spaces_go :
  forall (after before : str),
    Re.sub_go re_spaces (fun _ => [SP]) 0 before after = squeeze false after
    /\ Re.sub_go re_spaces (fun _ => [SP]) (run_len is_space after) before after
       = squeeze true after.
Proof.
  unfold re_spaces.
  induction after as [|c rest IH]; intros before.
  - cbn [Re.sub_go run_len]. rewrite match_at_plus. simpl. split; reflexivity.
  - destruct (IH (c :: before)) as [IH0 IH1].
    assert (H0 : Re.sub_go (Re.Many 1 is_space) (fun _ => [SP]) 0 before (c :: rest)
                 = squeeze false (c :: rest)).
    { cbn [Re.sub_go]. rewrite match_at_plus. cbn [run_len squeeze].
      destruct (is_space c) eqn:Hc.
      - rewrite IH1. reflexivity.
      - rewrite IH0. reflexivity. }
    split; [exact H0|].
    cbn [run_len]. destruct (is_space c) eqn:Hc.
    + cbn [Re.sub_go squeeze]. rewrite Hc. exact IH1.
    + rewrite H0. cbn [squeeze]. rewrite Hc. reflexivity.
Qed.

Lemma sub_spaces (s : str) :
  Re.sub re_spaces (fun _ => [SP]) s = squeeze false s.
Proof. unfold Re.sub. apply sub_spaces_go. Qed.

Lemma match_at_one (p : char -> bool) (before after : str) :
  Re.match_at (Re.One p) before after
  = match after with
    | c :: _ => if p c then Some ([], 1) else None
    | [] => None
    end.
Proof.
  unfold Re.match_at. cbn [Re.exec]. destruct after as [|c rest]; [reflexivity|].
  destruct (p c); [|reflexivity].
  do 2 f_equal. cbn [length]. lia.
Qed.

Lemma sub_one_go (p : char -> bool) :
  forall (after before : str),
    Re.sub_go (Re.One p) (fun _ => []) 0 before after
    = filter (fun c => negb (p c)) after.
Proof.
  induction after as [|c rest IH]; intros before; cbn [Re.sub_go filter].
  - rewrite match_at_one. reflexivity.
  - rewrite match_at_one. destruct (p c); cbn [negb app].
    + apply IH.
    + f_equal. apply IH.
Qed.

(** ** No pattern of the program matches the empty string *)

Lemma many_progress (X : Type) (p : char -> bool) (k : str -> str -> option X)
  (x : X) :
  forall (after before : str) (need : nat),
    Re.many p need before after k = Some x ->
    exists b a,
      k b a = Some x /\ length a <= length after
      /\ (need <> 0 -> length a < length after).
Proof.
  induction after as [|c rest IH]; intros before need H; simpl in H.
  - destruct need; [|discriminate].
    exists before, []. repeat split; auto. intros Hn. congruence.
  - assert (Hstop : match need with O => k before (c :: rest) | S _ => None end
                    = Some x ->
                    exists b a,
                      k b a = Some x /\ length a <= length (c :: rest)
                      /\ (need <> 0 -> length a < length (c :: rest))).
    { destruct need; [|discriminate]. intros Hk.
      exists before, (c :: rest). repeat split; auto. intros Hn. congruence. }
    destruct (p c); [|exact (Hstop H)].
    destruct (Re.many p (pred need) (c :: before) rest k) as [y|] eqn:E;
      [|exact (Hstop H)].
    inversion H; subst y.
    destruct (IH _ _ E) as [b [a [Hk [Hle _]]]].
    exists b, a. simpl. repeat split; auto; lia.
Qed.

Lemma exec_progress (X : Type) (r : Re.regex) :
  forall (before after : str) (gs : list str)
         (k : str -> str -> list str -> option X) (x : X),
    Re.exec r before after gs k = Some x ->
    exists b a g,
      k b a g = Some x /\ length a <= length after
      /\ (nullable r = false -> length a < length after).
Proof.
  induction r as [| | p | n p | r IH | r1 IH1 r2 IH2 | r1 IH1 r2 IH2];
    intros before after gs k x H; cbn [Re.exec nullable] in *.
  - exists before, after, gs. repeat split; auto. discriminate.
  - assert (Hk : k before after gs = Some x).
    { destruct before as [|c b]; [exact H|].
      destruct (N.eqb c NL); [exact H | discriminate]. }
    exists before, after, gs. repeat split; auto. discriminate.
  - destruct after as [|c rest]; [discriminate|].
    destruct (p c); [|discriminate].
    exists (c :: before), rest, gs. simpl. repeat split; auto.
  - destruct (@many_progress _ _ _ _ _ _ _ H) as [b [a [Hk [Hle Hlt]]]].
    exists b, a, gs. repeat split; auto.
    intros Hn. apply Hlt. intros ->. discriminate.
  - destruct (IH _ _ _ _ _ H) as [b [a [g [Hk Hrest]]]].
    exists b, a, (g ++ [rev (firstn (length b - length before) b)]).
    split; [exact Hk | exact Hrest].
  - destruct (IH1 _ _ _ _ _ H) as [b1 [a1 [g1 [H2 [Hle1 Hlt1]]]]].
    destruct (IH2 _ _ _ _ _ H2) as [b [a [g [Hk [Hle2 Hlt2]]]]].
    exists b, a, g. split; [exact Hk|]. split; [lia|].
    intros Hn. apply andb_false_iff in Hn. destruct Hn as [Hn | Hn].
    + specialize (Hlt1 Hn). lia.
    + specialize (Hlt2 Hn). lia.
  - destruct (Re.exec r1 before after gs k) as [y|] eqn:E.
    + inversion H; subst y.
      destruct (IH1 _ _ _ _ _ E) as [b [a [g [Hk [Hle Hlt]]]]].
      exists b, a, g. repeat split; auto.
      intros Hn. apply orb_false_iff in Hn. apply Hlt, Hn.
    + destruct (IH2 _ _ _ _ _ H) as [b [a [g [Hk [Hle Hlt]]]]].
      exists b, a, g. repeat split; auto.
      intros Hn. apply orb_false_iff in Hn. apply Hlt, Hn.
Qed.

(** A match of a pattern that is not nullable takes at least one character,
    so [Re.sub_go] never goes through its branch for empty matches. *)
Lemma match_at_nonempty (r : Re.regex) (before after : str) (gs : list str)
  (n : nat) :
  nullable r = false -> Re.match_at r before after = Some (gs, n) -> 0 < n.
Proof.
  intros Hn H. unfold Re.match_at in H.
  destruct (@exec_progress _ _ _ _ _ _ _ H) as [b [a [g [Hk [_ Hlt]]]]].
  inversion Hk; subst. specialize (Hlt Hn). lia.
Qed.

Lemma patterns_not_nullable (uni_alnum uni_decimal : char -> bool) :
  nullable re_spaces = false
  /\ nullable (re_special uni_alnum) = false
  /\ nullable (re_numbered uni_decimal) = false
  /\ nullable re_quoted = false
  /\ nullable re_dash = false.
Proof. repeat split; reflexivity. Qed.

(** ** Stripping *)

Lemma lstrip_app (u v : str) :
  lstrip (u ++ v)
  = match lstrip u with
    | [] => lstrip v
    | c :: u' => (c :: u') ++ v
    end.
Proof.
  induction u as [|a u IH]; simpl; [destruct (lstrip v); reflexivity|].
  destruct (is_space a); [exact IH | reflexivity].
Qed.

Lemma rstrip_cons (c : char) (r : str) :
  rstrip (c :: r)
  = match rstrip r with
    | [] => if is_space c then [] else [c]
    | d :: r' => c :: d :: r'
    end.
Proof.
  unfold rstrip. simpl rev. rewrite lstrip_app.
  destruct (lstrip (rev r)) as [|a u] eqn:E.
  - simpl. destruct (is_space c); reflexivity.
  - rewrite rev_app_distr. simpl rev at 1. cbn [app].
    destruct (rev (a :: u)) eqn:E'; [|reflexivity].
    apply (f_equal (@length _)) in E'. rewrite length_rev in E'. discriminate.
Qed.

Lemma rstrip_nil : rstrip [] = [].
Proof. reflexivity. Qed.

Lemma lstrip_fixed (s : str) : lstrip (lstrip s) = lstrip s.
Proof.
  induction s as [|c r IH]; simpl; [reflexivity|].
  destruct (is_space c) eqn:Hc; [exact IH|]. simpl. rewrite Hc. reflexivity.
Qed.

Lemma rstrip_fixed (s : str) : rstrip (rstrip s) = rstrip s.
Proof.
  unfold rstrip. rewrite rev_involutive, lstrip_fixed. reflexivity.
Qed.

(** Trailing whitespace goes without touching a clean start. *)
Lemma lstrip_rstrip (s : str) : lstrip s = s -> lstrip (rstrip s) = rstrip s.
Proof.
  destruct s as [|c r]; [reflexivity|]. simpl.
  destruct (is_space c) eqn:Hc.
  - intros H. apply (f_equal (@length _)) in H. simpl in H.
    assert (Hle : forall t, length (lstrip t) <= length t).
    { induction t as [|a t IH]; simpl; [lia|].
      destruct (is_space a); simpl; lia. }
    specialize (Hle r). lia.
  - intros _. rewrite rstrip_cons.
    destruct (rstrip r); rewrite ?Hc; simpl; rewrite ?Hc; reflexivity.
Qed.

Lemma strip_fixed (s : str) : strip (strip s) = strip s.
Proof.
  unfold strip at 1.
  assert (H : lstrip (strip s) = strip s).
  { unfold strip. apply lstrip_rstrip, lstrip_fixed. }
  rewrite H. unfold strip. apply rstrip_fixed.
Qed.

Lemma Forall_lstrip (P : char -> Prop) (s : str) :
  Forall P s -> Forall P (lstrip s).
Proof.
  induction 1 as [|c r Hc Hr IH]; simpl; [constructor|].
  destruct (is_space c); [exact IH | constructor; assumption].
Qed.

Lemma Forall_strip (P : char -> Prop) (s : str) :
  Forall P s -> Forall P (strip s).
Proof.
  intros H. unfold strip, rstrip.
  apply Forall_rev, Forall_lstrip, Forall_rev, Forall_lstrip, H.
Qed.

(** ** Squeezing whitespace runs *)

Lemma squeezed_squeeze (s : str) :
  forall b, squeezed b (squeeze b s) = true.
Proof.
  induction s as [|c r IH]; intros b; simpl; [reflexivity|].
  destruct (is_space c) eqn:Hc.
  - destruct b; [apply IH|]. simpl. rewrite IH. reflexivity.
  - simpl. rewrite Hc. apply IH.
Qed.

Lemma squeeze_squeezed (s : str) :
  forall b, squeezed b s = true -> squeeze b s = s.
Proof.
  induction s as [|c r IH]; intros b; simpl; [reflexivity|].
  destruct (is_space c) eqn:Hc.
  - destruct b; simpl; [discriminate|].
    intros H. apply andb_prop in H. destruct H as [Hsp Hr].
    apply N.eqb_eq in Hsp. subst c. rewrite (IH true Hr). reflexivity.
  - intros H. rewrite (IH false H). reflexivity.
Qed.

Lemma squeezed_weaken (s : str) :
  squeezed true s = true -> squeezed false s = true.
Proof.
  destruct s as [|c r]; simpl; [reflexivity|].
  destruct (is_space c); simpl; [discriminate | trivial].
Qed.

Lemma squeezed_lstrip (s : str) :
  squeezed false s = true -> squeezed false (lstrip s) = true.
Proof.
  destruct s as [|c r]; simpl; [reflexivity|].
  destruct (is_space c) eqn:Hc; simpl.
  - intros H. apply andb_prop in H. destruct H as [_ Hr].
    destruct r as [|d r']; [reflexivity|]. simpl in *.
    destruct (is_space d) eqn:Hd; [discriminate|].
    simpl. rewrite Hd. exact Hr.
  - rewrite Hc. trivial.
Qed.

Lemma squeezed_rstrip (s : str) :
  forall b, squeezed b s = true -> squeezed b (rstrip s) = true.
Proof.
  induction s as [|c r IH]; intros b H; [reflexivity|].
  rewrite rstrip_cons. simpl in H.
  destruct (rstrip r) as [|d r'] eqn:E.
  - destruct (is_space c) eqn:Hc; simpl; [reflexivity|]. rewrite Hc. reflexivity.
  - cbn [squeezed]. destruct (is_space c) eqn:Hc.
    + apply andb_prop in H. destruct H as [H1 H2]. rewrite H1.
      apply (IH true H2).
    + apply (IH false H).
Qed.

Lemma squeezed_strip (s : str) :
  squeezed false s = true -> squeezed false (strip s) = true.
Proof.
  intros H. unfold strip. apply squeezed_rstrip, squeezed_lstrip, H.
Qed.

Section CleanTextFacts.

Variable uni_alnum : char -> bool.

Lemma sub_special (s : str) :
  Re.sub (re_special uni_alnum) (fun _ => []) s = filter (kept uni_alnum) s.
Proof.
  unfold Re.sub, re_special. rewrite sub_one_go.
  apply filter_ext. intros c. apply negb_involutive.
Qed.

(** clean_text without the regular expressions. *)
Lemma clean_text_eq (x : str) :
  clean_text uni_alnum x = strip (filter (kept uni_alnum) (squeeze false x)).
Proof.
  unfold clean_text. rewrite sub_spaces, sub_special. reflexivity.
Qed.

Lemma kept_space : kept uni_alnum SP = true.
Proof. unfold kept, kept_class. rewrite orb_true_r. reflexivity. Qed.

Lemma Forall_kept_squeeze (s : str) :
  Forall (fun c => kept uni_alnum c = true) s ->
  forall b, Forall (fun c => kept uni_alnum c = true) (squeeze b s).
Proof.
  induction 1 as [|c r Hc Hr IH]; intros b; simpl; [constructor|].
  destruct (is_space c).
  - destruct b; [apply IH|]. constructor; [apply kept_space | apply IH].
  - constructor; [exact Hc | apply IH].
Qed.

Lemma filter_kept_id (s : str) :
  Forall (fun c => kept uni_alnum c = true) s -> filter (kept uni_alnum) s = s.
Proof.
  induction 1 as [|c r Hc Hr IH]; simpl; [reflexivity|].
  rewrite Hc, IH. reflexivity.
Qed.

Lemma Forall_kept_filter (s : str) :
  Forall (fun c => kept uni_alnum c = true) (filter (kept uni_alnum) s).
Proof.
  apply Forall_forall. intros c Hc. apply filter_In in Hc. apply Hc.
Qed.

(** Whatever clean_text returns holds only characters of the kept class. *)
Lemma clean_text_kept (x : str) :
  Forall (fun c => kept uni_alnum c = true) (clean_text uni_alnum x).
Proof.
  rewrite clean_text_eq. apply Forall_strip, Forall_kept_filter.
Qed.

(** On a text that holds nothing to remove, clean_text squeezes and strips,
    and a second pass changes nothing. *)
Lemma clean_text_of_kept (x : str) :
  Forall (fun c => kept uni_alnum c = true) x ->
  clean_text uni_alnum x = strip (squeeze false x)
  /\ clean_text uni_alnum (clean_text uni_alnum x) = clean_text uni_alnum x.
Proof.
  intros Hx.
  assert (E1 : clean_text uni_alnum x = strip (squeeze false x)).
  { rewrite clean_text_eq, filter_kept_id; [reflexivity|].
    apply Forall_kept_squeeze, Hx. }
  split; [exact E1|].
  rewrite E1. rewrite clean_text_eq.
  assert (Hsq : squeeze false (strip (squeeze false x)) = strip (squeeze false x)).
  { apply squeeze_squeezed, squeezed_strip, squeezed_squeeze. }
  rewrite Hsq. rewrite filter_kept_id.
  - apply strip_fixed.
  - apply Forall_strip, Forall_kept_squeeze, Hx.
Qed.

End CleanTextFacts.

(** ** Running handlers *)

Lemma run_bind (A B : Type) (e : env) (m : io A) (f : A -> io B) :
  forall hist,
    run e hist (bind m f)
    = run e (snd (run e hist m)) (f (fst (run e hist m))).
Proof.
  induction m as [a | url k IH | prompt k IH]; intros hist; simpl.
  - reflexivity.
  - apply IH.
  - apply IH.
Qed.

Lemma str_eqb_refl (s : str) : str_eqb s s = true.
Proof.
  induction s as [|c r IH]; simpl; [reflexivity|].
  rewrite N.eqb_refl. exact IH.
Qed.

Lemma str_eqb_eq (a b : str) : str_eqb a b = true <-> a = b.
Proof.
  split.
  - revert b. induction a as [|x a IH]; intros [|y b]; simpl; try discriminate.
    + reflexivity.
    + intros H. apply andb_prop in H. destruct H as [Hx Hab].
      apply N.eqb_eq in Hx. subst y. f_equal. apply IH, Hab.
  - intros ->. apply str_eqb_refl.
Qed.

Lemma nonempty_false (s : str) : nonempty s = false <-> s = [].
Proof. destruct s; simpl; split; congruence. Qed.

Section AppFacts.

Variable uni_alnum : char -> bool.
Variable uni_decimal : char -> bool.
Variable urljoin : str -> str -> result str.
Variable py_repr : json -> str.
Variable fault_msg : fault -> str.

(** What scrape_url returns is an error record for this URL, or a record
    without an error key. *)
Lemma scrape_url_run (e : env) (hist : list call) (url : str) :
  snd (run e hist (scrape_url uni_alnum urljoin url)) = hist ++ [CallGet url]
  /\ ((exists msg, fst (run e hist (scrape_url uni_alnum urljoin url))
                   = error_record url msg)
      \/ dict_get (lit "error")
           (fst (run e hist (scrape_url uni_alnum urljoin url))) = None).
Proof.
  simpl. split; [reflexivity|].
  destruct (on_get e hist url) as [msg | d].
  - left. exists msg. reflexivity.
  - unfold scrape_soup. destruct (extract_main_content d) as [content d'].
    destruct (join_all urljoin url (hrefs d')) as [links | msg].
    + right. reflexivity.
    + left. exists msg. reflexivity.
Qed.

Lemma error_record_get (url msg : str) :
  dict_get (lit "error") (error_record url msg)
  = Some (JStr (lit "Error scraping " ++ url ++ lit ": " ++ msg)).
Proof. reflexivity. Qed.

(** One turn of the loop on a URL that is not blank. *)
Lemma fetch_loop_step (e : env) (hist : list call) (url : str)
  (rest : list json) (content : dict json) :
  nonempty (strip url) = true ->
  run e hist (fetch_loop uni_alnum urljoin fault_msg (JStr url :: rest) content)
  = let record := fst (run e hist (scrape_url uni_alnum urljoin url)) in
    match dict_get (lit "error") record with
    | Some err => (Ok (Response 400 (JObj [(lit "error", err)])), hist ++ [CallGet url])
    | None =>
        run e (hist ++ [CallGet url])
          (fetch_loop uni_alnum urljoin fault_msg rest
             (dict_set url (JObj record) content))
    end.
Proof.
  intros Hnb. cbn [fetch_loop]. rewrite Hnb. rewrite run_bind.
  destruct (scrape_url_run e hist url) as [Hs _]. rewrite Hs.
  cbv zeta.
  destruct (dict_get (lit "error") (fst (run e hist (scrape_url uni_alnum urljoin url))));
    reflexivity.
Qed.

Lemma fetch_loop_skip (e : env) (hist : list call) (url : str)
  (rest : list json) (content : dict json) :
  nonempty (strip url) = false ->
  run e hist (fetch_loop uni_alnum urljoin fault_msg (JStr url :: rest) content)
  = run e hist (fetch_loop uni_alnum urljoin fault_msg rest content).
Proof. intros Hb. cbn [fetch_loop]. rewrite Hb. reflexivity. Qed.

(** A batch that goes through hands its map and its calls to what follows. *)
Lemma fetch_loop_app (e : env) (pre : list str) (rest : list json) :
  forall (hist hist' : list call) (content content' : dict json),
    run e hist (fetch_loop uni_alnum urljoin fault_msg (map JStr pre) content)
    = (Ok (Response 200 (JObj [(lit "content", JObj content')])), hist') ->
    run e hist (fetch_loop uni_alnum urljoin fault_msg (map JStr pre ++ rest) content)
    = run e hist' (fetch_loop uni_alnum urljoin fault_msg rest content')
    /\ hist' = hist ++ map CallGet (filter (fun u => nonempty (strip u)) pre).
Proof.
  induction pre as [|p pre IH]; intros hist hist' content content' H.
  - simpl in H. inversion H; subst. simpl. rewrite app_nil_r. split; reflexivity.
  - cbn [map app filter] in *.
    destruct (nonempty (strip p)) eqn:Hp.
    + rewrite fetch_loop_step in * by exact Hp. cbv zeta in *.
      destruct (dict_get (lit "error")
                  (fst (run e hist (scrape_url uni_alnum urljoin p)))).
      * discriminate H.
      * destruct (IH _ _ _ _ H) as [E1 E2]. split; [exact E1|].
        rewrite E2. cbn [map]. rewrite <- app_assoc. reflexivity.
    + rewrite fetch_loop_skip in * by exact Hp. apply IH, H.
Qed.

Lemma run_handler (e : env) (hist : list call) (p : io (result response)) :
  run e hist (handler p)
  = (match fst (run e hist p) with
     | Ok resp => resp
     | Raised msg => Response 500 (error_body msg)
     end, snd (run e hist p)).
Proof. unfold handler. rewrite run_bind. reflexivity. Qed.

(** fetch_content on a list of strings that is not empty is the loop. *)
Lemma fetch_content_nonempty (e : env) (urls : list str) :
  urls <> [] ->
  run e [] (fetch_content uni_alnum urljoin fault_msg
              (JObj [(lit "urls", JArr (map JStr urls))]))
  = (match fst (run e [] (fetch_loop uni_alnum urljoin fault_msg (map JStr urls) [])) with
     | Ok resp => resp
     | Raised msg => Response 500 (error_body msg)
     end,
     snd (run e [] (fetch_loop uni_alnum urljoin fault_msg (map JStr urls) []))).
Proof.
  intros Hne. unfold fetch_content. rewrite run_handler.
  destruct urls as [|u urls]; [congruence|]. reflexivity.
Qed.

(** The calls of the loop are fetches of listed URLs that are not blank. *)
Lemma fetch_loop_calls (e : env) (urls : list str) :
  forall (hist : list call) (content : dict json),
  exists fetched_urls,
    snd (run e hist (fetch_loop uni_alnum urljoin fault_msg (map JStr urls) content))
    = hist ++ map CallGet fetched_urls
    /\ Forall (fun u => In u urls /\ nonempty (strip u) = true) fetched_urls.
Proof.
  induction urls as [|u urls IH]; intros hist content.
  - exists []. simpl. rewrite app_nil_r. split; [reflexivity | constructor].
  - cbn [map]. destruct (nonempty (strip u)) eqn:Hu.
    + rewrite fetch_loop_step by exact Hu. cbv zeta.
      destruct (dict_get (lit "error")
                  (fst (run e hist (scrape_url uni_alnum urljoin u)))).
      * exists [u]. split; [reflexivity|].
        constructor; [split; [left; reflexivity | exact Hu] | constructor].
      * destruct (IH (hist ++ [CallGet u])
                    (dict_set u (JObj (fst (run e hist (scrape_url uni_alnum urljoin u)))) content))
          as [us [E F]].
        exists (u :: us). split.
        -- rewrite E. cbn [map]. rewrite <- app_assoc. reflexivity.
        -- constructor; [split; [left; reflexivity | exact Hu]|].
           eapply Forall_impl; [|exact F]. intros a [Ha1 Ha2].
           split; [right; exact Ha1 | exact Ha2].
    + rewrite fetch_loop_skip by exact Hu.
      destruct (IH hist content) as [us [E F]]. exists us. split; [exact E|].
      eapply Forall_impl; [|exact F]. intros a [Ha1 Ha2].
      split; [right; exact Ha1 | exact Ha2].
Qed.

(** The loop never answers with the message of the empty list. *)
Lemma fetch_loop_not_no_urls (e : env) (urls : list str) :
  forall (hist : list call) (content : dict json),
    fst (run e hist (fetch_loop uni_alnum urljoin fault_msg (map JStr urls) content))
    <> Ok (Response 400 (error_body (lit "No URLs provided"))).
Proof.
  induction urls as [|u urls IH]; intros hist content.
  - simpl. discriminate.
  - cbn [map]. destruct (nonempty (strip u)) eqn:Hu.
    + rewrite fetch_loop_step by exact Hu. cbv zeta.
      destruct (scrape_url_run e hist u) as [_ [[msg Hr] | Hr]]; rewrite Hr.
      * rewrite error_record_get. simpl. discriminate.
      * apply IH.
    + rewrite fetch_loop_skip by exact Hu. apply IH.
Qed.

Lemma fetch_loop_blank (e : env) (urls : list str) :
  Forall (fun u => strip u = []) urls ->
  forall (hist : list call) (content : dict json),
    run e hist (fetch_loop uni_alnum urljoin fault_msg (map JStr urls) content)
    = (Ok (Response 200 (JObj [(lit "content", JObj content)])), hist).
Proof.
  induction 1 as [|u urls Hu Hr IH]; intros hist content; [reflexivity|].
  cbn [map]. rewrite fetch_loop_skip; [apply IH|]. rewrite Hu. reflexivity.
Qed.

(** On a list of strings the loop has two ways to end: with the whole map,
    or at a first URL whose step reports an error. *)
Lemma fetch_loop_outcome (e : env) (urls : list str) :
  forall (hist : list call) (content : dict json),
    (exists content' hist',
        run e hist (fetch_loop uni_alnum urljoin fault_msg (map JStr urls) content)
        = (Ok (Response 200 (JObj [(lit "content", JObj content')])), hist'))
    \/ (exists pre u post msg content' hist',
           urls = pre ++ u :: post
           /\ run e hist (fetch_loop uni_alnum urljoin fault_msg (map JStr pre) content)
              = (Ok (Response 200 (JObj [(lit "content", JObj content')])), hist')
           /\ nonempty (strip u) = true
           /\ dict_get (lit "error")
                (fst (run e hist' (scrape_url uni_alnum urljoin u)))
              = Some (JStr msg)).
Proof.
  induction urls as [|u urls IH]; intros hist content.
  - left. exists content, hist. reflexivity.
  - cbn [map]. destruct (nonempty (strip u)) eqn:Hu.
    + destruct (dict_get (lit "error")
                  (fst (run e hist (scrape_url uni_alnum urljoin u))))
        as [err|] eqn:Eerr.
      * right. exists [], u, urls.
        destruct (scrape_url_run e hist u) as [_ [[msg Hr] | Hr]].
        -- rewrite Hr, error_record_get in Eerr. inversion Eerr; subst err.
           exists (lit "Error scraping " ++ u ++ lit ": " ++ msg), content, hist.
           repeat split; try reflexivity; try assumption.
           rewrite Hr. apply error_record_get.
        -- congruence.
      * destruct (IH (hist ++ [CallGet u])
                    (dict_set u (JObj (fst (run e hist (scrape_url uni_alnum urljoin u))))
                       content))
          as [[c' [h' E]] | [pre [v [post [msg [c' [h' [E1 [E2 [E3 E4]]]]]]]]]].
        -- left. exists c', h'. rewrite fetch_loop_step by exact Hu.
           cbv zeta. rewrite Eerr. exact E.
        -- right. exists (u :: pre), v, post, msg, c', h'.
           split; [rewrite E1; reflexivity|]. split; [|split; assumption].
           cbn [map]. rewrite fetch_loop_step by exact Hu.
           cbv zeta. rewrite Eerr. exact E2.
    + rewrite fetch_loop_skip by exact Hu.
      destruct (IH hist content)
        as [[c' [h' E]] | [pre [v [post [msg [c' [h' [E1 [E2 [E3 E4]]]]]]]]]].
      * left. exists c', h'. exact E.
      * right. exists (u :: pre), v, post, msg, c', h'.
        split; [rewrite E1; reflexivity|]. split; [|split; assumption].
        cbn [map]. rewrite fetch_loop_skip by exact Hu. exact E2.
Qed.

(** C1: fail-fast batch. When the URLs before [u] go through and the step of
    [u], which is not blank, reports an error with message [msg], the batch
    over [pre ++ u :: post] answers HTTP 400 with a body that holds this
    message alone, no map; the calls made are the fetches of the URLs of
    [pre] that are not blank and the fetch of [u]: none for a URL of [post]. *)
Theorem fetch_content_fail_fast (e : env) (pre post : list str) (u msg : str)
  (content : dict json) (hist : list call) :
  run e [] (fetch_loop uni_alnum urljoin fault_msg (map JStr pre) [])
  = (Ok (Response 200 (JObj [(lit "content", JObj content)])), hist) ->
  nonempty (strip u) = true ->
  dict_get (lit "error") (fst (run e hist (scrape_url uni_alnum urljoin u)))
  = Some (JStr msg) ->
  run e [] (fetch_content uni_alnum urljoin fault_msg
              (JObj [(lit "urls", JArr (map JStr (pre ++ u :: post)))]))
  = (Response 400 (error_body msg),
     map CallGet (filter (fun x => nonempty (strip x)) pre ++ [u])).
Proof.
  intros Hpre Hu Herr.
  rewrite fetch_content_nonempty by (destruct pre; discriminate).
  rewrite map_app. cbn [map].
  destruct (fetch_loop_app e pre (JStr u :: map JStr post) _ _ Hpre) as [E1 E2].
  rewrite E1. rewrite fetch_loop_step by exact Hu. cbv zeta. rewrite Herr.
  cbn [fst snd]. rewrite E2. cbn [app]. rewrite map_app. reflexivity.
Qed.

(** C7: the answer is HTTP 400 with the message No URLs provided exactly
    when the list is empty; every fetch is of a listed URL that is not blank;
    a list of blank URLs makes no fetch and, when it is not empty, gives
    HTTP 200 with an empty map. *)
Theorem fetch_content_validation (e : env) (urls : list str) :
  let r := run e [] (fetch_content uni_alnum urljoin fault_msg
                       (JObj [(lit "urls", JArr (map JStr urls))])) in
  (fst r = Response 400 (error_body (lit "No URLs provided")) <-> urls = [])
  /\ (forall u, In (CallGet u) (snd r) -> In u urls /\ strip u <> [])
  /\ (forall p, ~ In (CallGenerate p) (snd r))
  /\ (Forall (fun u => strip u = []) urls ->
      snd r = []
      /\ (urls <> [] -> fst r = Response 200 (JObj [(lit "content", JObj [])]))).
Proof.
  cbv zeta. destruct urls as [|u0 urls0].
  - cbn. repeat split; try contradiction; tauto.
  - set (urls := u0 :: urls0).
    assert (Hne : urls <> []) by discriminate.
    rewrite fetch_content_nonempty by exact Hne. cbn [fst snd].
    destruct (fetch_loop_calls e urls [] []) as [us [Ecalls Hus]].
    rewrite Ecalls. cbn [app].
    split; [|split; [|split]].
    + split; [|intros H; discriminate H].
      intros H. exfalso.
      pose proof (fetch_loop_not_no_urls e urls [] []) as Hn.
      destruct (fst (run e [] (fetch_loop uni_alnum urljoin fault_msg (map JStr urls) [])))
        as [resp | m].
      * apply Hn. rewrite H. reflexivity.
      * discriminate H.
    + intros u Hin. apply in_map_iff in Hin. destruct Hin as [x [Hx Hin]].
      inversion Hx; subst x.
      rewrite Forall_forall in Hus. destruct (Hus u Hin) as [H1 H2].
      split; [exact H1|]. intros Hs. rewrite Hs in H2. discriminate.
    + intros p Hin. apply in_map_iff in Hin. destruct Hin as [x [Hx _]].
      discriminate.
    + intros Hblank. pose proof (@fetch_loop_blank e urls Hblank [] []) as Hb.
      rewrite Hb in Ecalls. cbn [snd] in Ecalls.
      rewrite Hb. cbn [fst]. split; [|reflexivity].
      destruct us; [reflexivity | discriminate Ecalls].
Qed.

End AppFacts.

(** ** The prompt of ask_question *)

Lemma join_In (sep b : str) (parts : list str) :
  In b parts -> exists pre suf, join sep parts = pre ++ b ++ suf.
Proof.
  induction parts as [|p ps IH]; intros Hin; [contradiction|].
  destruct Hin as [-> | Hin].
  - destruct ps as [|q ps].
    + exists [], []. simpl. rewrite app_nil_r. reflexivity.
    + exists [], (sep ++ join sep (q :: ps)). reflexivity.
  - destruct (IH Hin) as [pre [suf E]].
    destruct ps as [|q ps]; [contradiction|].
    exists (p ++ sep ++ pre), suf.
    change (join sep (p :: q :: ps)) with (p ++ sep ++ join sep (q :: ps)).
    rewrite E. rewrite <- !app_assoc. reflexivity.
Qed.

Section PromptFacts.

Variable uni_decimal : char -> bool.
Variable py_repr : json -> str.
Variable fault_msg : fault -> str.

Lemma context_parts_typed (items : dict json) :
  forallb (fun kv => typed_record (snd kv)) items = true ->
  context_parts py_repr fault_msg items = Ok (spec_blocks py_repr items).
Proof.
  unfold spec_blocks.
  induction items as [|[url v] rest IH]; intros H; [reflexivity|].
  cbn [forallb snd] in H. apply andb_prop in H. destruct H as [Hv Hrest].
  specialize (IH Hrest). cbn [context_parts filter snd]. rewrite IH.
  destruct v as [| b | n | s | l | d]; try reflexivity.
  cbn [has_both typed_record] in *. unfold dict_has.
  destruct (dict_get (lit "title") d) as [t|] eqn:Et;
    destruct (dict_get (lit "content") d) as [c|] eqn:Ec;
    try reflexivity.
  destruct c; try discriminate Hv.
  cbn [andb map fst snd field content_field text_of default app].
  rewrite Et, Ec. reflexivity.
Qed.

(** The request reaches the model when the map and the question are there:
    one call, with the prompt built from the blocks. *)
Lemma ask_question_calls (e : env) (data content : dict json)
  (question : str) (parts : list str) :
  default (JObj []) (dict_get (lit "content") data) = JObj content ->
  default (JStr []) (dict_get (lit "question") data) = JStr question ->
  content <> [] ->
  strip question <> [] ->
  context_parts py_repr fault_msg content = Ok parts ->
  snd (run e [] (ask_question uni_decimal py_repr fault_msg (JObj data)))
  = [CallGenerate (prompt_of (strip question) (join context_sep parts))].
Proof.
  intros Hc Hq Hne Hqne Hparts.
  unfold ask_question. rewrite run_handler. cbn [snd].
  rewrite Hc, Hq. cbn [py_len].
  destruct content as [|kv content']; [congruence|]. cbn [length].
  destruct (strip question) as [|c q'] eqn:Es; [congruence|].
  cbn [nonempty negb]. rewrite Hparts. reflexivity.
Qed.

(** C5: a request whose content map is empty, or whose question is blank
    once stripped, is answered with HTTP 400 and the matching message, and
    the handler makes no call at all: the model is not invoked. *)
Theorem ask_question_validation (e : env) (data content : dict json)
  (question : str) :
  default (JObj []) (dict_get (lit "content") data) = JObj content ->
  default (JStr []) (dict_get (lit "question") data) = JStr question ->
  content = [] \/ strip question = [] ->
  run e [] (ask_question uni_decimal py_repr fault_msg (JObj data))
  = (Response 400
       (error_body match content with
                   | [] => lit "No content provided"
                   | _ :: _ => lit "No question provided"
                   end), []).
Proof.
  intros Hc Hq Hempty.
  unfold ask_question. rewrite run_handler. rewrite Hc, Hq. cbn [py_len].
  destruct content as [|kv content']; [reflexivity|]. cbn [length].
  destruct Hempty as [H | H]; [discriminate H|]. rewrite H. reflexivity.
Qed.

Lemma join_spec_context (parts : list str) :
  join context_sep parts = spec_context parts.
Proof.
  unfold spec_context. induction parts as [|p ps IH]; [reflexivity|].
  destruct ps as [|q ps]; [cbn; rewrite app_nil_r; reflexivity|].
  change (join context_sep (p :: q :: ps))
    with (p ++ context_sep ++ join context_sep (q :: ps)).
  rewrite IH. cbn [map concat]. rewrite <- !app_assoc. reflexivity.
Qed.

Lemma spec_blocks_worded (items : dict json) :
  spec_blocks py_repr items
  = map (spec_block py_repr) (filter (fun kv => has_both (snd kv)) items).
Proof.
  unfold spec_blocks. apply map_ext. intros [url v].
  unfold block, spec_block, block_end, stray_comment, fmt, shown_title.
  cbn [fst snd]. rewrite <- ?app_assoc. reflexivity.
Qed.

(** C8: for a map that is not empty, typed as the data model says, and a
    question that is not blank, the handler calls the model once, and the
    prompt holds, between the line of the question and the request for a
    detailed response, the reference content: one block for each URL whose
    record has both a title and a content field, in the order of the map,
    and none for any other record.  A block is a line break, the line
    Source with the URL, the line Title with the title, the line Content,
    and the first 1500 characters of the content followed by the rest of
    the template line; between two blocks stand an empty line, a line of
    three dashes and an empty line. *)
Theorem ask_question_prompt (e : env) (data content : dict json)
  (question : str) :
  default (JObj []) (dict_get (lit "content") data) = JObj content ->
  default (JStr []) (dict_get (lit "question") data) = JStr question ->
  content <> [] ->
  strip question <> [] ->
  forallb (fun kv => typed_record (snd kv)) content = true ->
  exists head tail,
    snd (run e [] (ask_question uni_decimal py_repr fault_msg (JObj data)))
    = [CallGenerate
         (head
          ++ lit "Question: " ++ strip question ++ [NL; NL]
          ++ lit "Reference Content:" ++ [NL]
          ++ spec_context
               (map (spec_block py_repr)
                  (filter (fun kv => has_both (snd kv)) content))
          ++ [NL; NL]
          ++ lit "Please provide a detailed response following this structure:"
          ++ tail)].
Proof.
  intros Hc Hq Hne Hqne Htyped.
  rewrite (@ask_question_calls e data content question (spec_blocks py_repr content));
    try assumption.
  2:{ apply context_parts_typed, Htyped. }
  rewrite join_spec_context, spec_blocks_worded.
  set (context := spec_context _).
  set (opening := [NL; NL]
                  ++ lit "Please provide a detailed response following this structure:").
  set (head := firstn (length prompt_head - length (lit "Question: ")) prompt_head).
  set (tail := skipn (length opening) prompt_tail).
  assert (Hh : prompt_head = head ++ lit "Question: ") by (vm_compute; reflexivity).
  assert (Hm : prompt_mid = [NL; NL] ++ lit "Reference Content:" ++ [NL])
    by (vm_compute; reflexivity).
  assert (Ht : prompt_tail = opening ++ tail) by (vm_compute; reflexivity).
  clearbody head tail.
  exists head, tail. unfold prompt_of. rewrite Hh, Hm, Ht. unfold opening.
  rewrite <- !app_assoc. reflexivity.
Qed.

(** C10: for every entry of the map that contributes a block, the prompt
    sent to the model holds the first 1500 characters of the content, then
    at once, on the same line, the text of the comment of the template, and
    only then the line break. *)
Theorem prompt_carries_template_comment (e : env) (data content : dict json)
  (question url : str) (v : json) :
  default (JObj []) (dict_get (lit "content") data) = JObj content ->
  default (JStr []) (dict_get (lit "question") data) = JStr question ->
  strip question <> [] ->
  forallb (fun kv => typed_record (snd kv)) content = true ->
  In (url, v) content ->
  has_both v = true ->
  exists prompt pre suf,
    snd (run e [] (ask_question uni_decimal py_repr fault_msg (JObj data)))
    = [CallGenerate prompt]
    /\ prompt
       = pre
         ++ (lit "Content:" ++ [NL] ++ firstn 1500 (text_of (field (lit "content") v))
             ++ lit "  # Limit content length per URL" ++ [NL])
         ++ suf.
Proof.
  intros Hc Hq Hqne Htyped Hin Hboth.
  assert (Hne : content <> []) by (intros ->; contradiction).
  assert (Hb : In (block url (fmt py_repr (field (lit "title") v))
                     (firstn 1500 (text_of (field (lit "content") v))))
                 (spec_blocks py_repr content)).
  { unfold spec_blocks.
    apply in_map_iff. exists (url, v). split; [reflexivity|].
    apply filter_In. split; [exact Hin | exact Hboth]. }
  destruct (join_In context_sep _ _ Hb) as [p [s E]].
  exists (prompt_of (strip question) (join context_sep (spec_blocks py_repr content))).
  exists (prompt_head ++ strip question ++ prompt_mid ++ p
          ++ [NL] ++ lit "Source: " ++ url ++ [NL] ++ lit "Title: "
          ++ fmt py_repr (field (lit "title") v) ++ [NL]).
  exists (lit "                " ++ s ++ prompt_tail).
  split.
  - apply (@ask_question_calls e data content question (spec_blocks py_repr content));
      try assumption.
    apply context_parts_typed, Htyped.
  - unfold prompt_of. rewrite E. unfold block, block_end, stray_comment.
    rewrite <- !app_assoc. reflexivity.
Qed.

End PromptFacts.

(** ** Document order and the region that is selected *)

Lemma find_first (A : Type) (p : A -> bool) (l : list A) (e : A) :
  List.find p l = Some e <->
  exists before after,
    l = before ++ e :: after /\ p e = true
    /\ Forall (fun n => p n = false) before.
Proof.
  split.
  - induction l as [|x l IH]; simpl; [discriminate|].
    destruct (p x) eqn:Hx.
    + intros H. inversion H; subst x. exists [], l. repeat split; auto.
    + intros H. destruct (IH H) as [b [a [E [He Hb]]]].
      exists (x :: b), a. rewrite E. repeat split; auto.
  - intros [b [a [E [He Hb]]]]. subst l.
    induction Hb as [|x b Hx Hb IH]; simpl.
    + rewrite He. reflexivity.
    + rewrite Hx. exact IH.
Qed.

Lemma find_none_iff (A : Type) (p : A -> bool) (l : list A) :
  List.find p l = None <-> Forall (fun n => p n = false) l.
Proof.
  induction l as [|x l IH]; simpl.
  - split; [constructor | reflexivity].
  - destruct (p x) eqn:Hx.
    + split; [discriminate|]. intros H. inversion H; subst. congruence.
    + rewrite IH. split.
      * intros H. constructor; assumption.
      * intros H. inversion H; assumption.
Qed.

Lemma first_in_order_find (p : node -> bool) (d : soup) (e : node) :
  first_in_order p d e <-> find p d = Some e.
Proof. unfold first_in_order, find. symmetry. apply find_first. Qed.

Lemma none_in_find (p : node -> bool) (d : soup) :
  none_in p d <-> find p d = None.
Proof. unfold none_in, find. symmetry. apply find_none_iff. Qed.

Lemma selects_main_content (d : soup) : selects d (main_content d).
Proof.
  unfold main_content.
  destruct (find (is_tag (lit "main")) d) as [m|] eqn:Em; cbn [orelse].
  - apply sel_main, first_in_order_find, Em.
  - apply none_in_find in Em.
    destruct (find (is_tag (lit "article")) d) as [a|] eqn:Ea; cbn [orelse].
    + apply sel_article; [exact Em|]. apply first_in_order_find, Ea.
    + apply none_in_find in Ea.
      destruct (find (fun n => (is_tag (lit "div") n
                                && class_matches re_content_class n)%bool) d)
        as [v|] eqn:Ev.
      * apply sel_div; [exact Em | exact Ea|]. apply first_in_order_find, Ev.
      * apply sel_document; [exact Em | exact Ea|]. apply none_in_find, Ev.
Qed.

Lemma selects_unique (d : soup) (r1 r2 : option node) :
  selects d r1 -> selects d r2 -> r1 = r2.
Proof.
  intros H1 H2.
  destruct H1; destruct H2;
    repeat match goal with
      | H : first_in_order _ _ _ |- _ => apply first_in_order_find in H
      | H : none_in _ _ |- _ => apply none_in_find in H
      end; congruence.
Qed.

(** C3 (amended): the region is chosen in this order, in the document that
    is left after the removal: the first main element; else the first
    article element; else the first div element whose class attribute
    matches content, main or article without regard to case; else the whole
    remaining document.  The choice is unique, the text returned is the text
    of what is chosen, and a document that has a main element yields its
    text whatever else it holds. *)
Theorem extract_main_content_priority (d : soup) :
  exists region,
    selects (decompose_all d) region
    /\ (forall r, selects (decompose_all d) r -> r = region)
    /\ extract_main_content d
       = (region_text (decompose_all d) region, decompose_all d)
    /\ (forall m, first_in_order is_main (decompose_all d) m ->
        fst (extract_main_content d) = get_text [SP] (kids_of m)).
Proof.
  exists (main_content (decompose_all d)).
  pose proof (selects_main_content (decompose_all d)) as Hsel.
  assert (Hex : extract_main_content d
                = (region_text (decompose_all d) (main_content (decompose_all d)),
                   decompose_all d)).
  { unfold extract_main_content.
    destruct (main_content (decompose_all d)); reflexivity. }
  repeat split.
  - exact Hsel.
  - intros r Hr. exact (selects_unique Hr Hsel).
  - exact Hex.
  - intros m Hm. rewrite Hex. cbn [fst].
    rewrite (selects_unique Hsel (sel_main Hm)). reflexivity.
Qed.

(** C3, as stated, fails: a section whose class matches is not selected, the
    text of the whole document is returned. *)
Lemma main_content_skips_other_elements :
  fst (extract_main_content section_doc) = lit "A B"
  /\ spec_extract section_doc = lit "A"
  /\ fst (extract_main_content section_doc) <> spec_extract section_doc.
Proof.
  assert (H1 : fst (extract_main_content section_doc) = lit "A B")
    by (vm_compute; reflexivity).
  assert (H2 : spec_extract section_doc = lit "A") by (vm_compute; reflexivity).
  split; [exact H1 | split; [exact H2|]].
  rewrite H1, H2. vm_compute. discriminate.
Qed.

(** ** What the removal leaves *)

(** The kinds that the code removes are the seven of the specification. *)
Lemma is_removed_boilerplate (nm : str) :
  is_removed nm = true <-> boilerplate nm.
Proof.
  unfold is_removed, removed_kinds, boilerplate. cbn [existsb].
  rewrite !orb_true_iff, !str_eqb_eq. split.
  - intros [H | [H | [H | [H | [H | [H | [H | H]]]]]]]; try discriminate H; auto 10.
  - intros [H | [H | [H | [H | [H | [H | H]]]]]]; auto 10.
Qed.

Lemma not_removed_boilerplate (nm : str) :
  is_removed nm = false <-> ~ boilerplate nm.
Proof.
  rewrite <- is_removed_boilerplate. destruct (is_removed nm); split; congruence.
Qed.

Lemma in_descendants_decompose (root n : node) :
  In n (descendants (decompose root)) -> shows root (item_of n).
Proof.
  revert n. induction root as [s | s | nm a ks IH] using node_ind'; intros n Hin.
  - simpl in Hin. destruct Hin as [<- | []]. constructor.
  - simpl in Hin. destruct Hin as [<- | []]. constructor.
  - cbn [decompose] in Hin. destruct (is_removed nm) eqn:Hr; [contradiction|].
    apply not_removed_boilerplate in Hr.
    unfold descendants in Hin. cbn [flat_map descendants_of] in Hin.
    rewrite app_nil_r in Hin. destruct Hin as [<- | Hin].
    + apply shows_tag, Hr.
    + apply in_flat_map in Hin. destruct Hin as [k' [Hk' Hn]].
      apply in_flat_map in Hk'. destruct Hk' as [k [Hk Hk']].
      rewrite Forall_forall in IH.
      apply shows_below with (k := k); [exact Hr | exact Hk|].
      apply (IH k Hk). unfold descendants. apply in_flat_map.
      exists k'. split; assumption.
Qed.

Lemma in_descendants_decompose_all (d : soup) (n : node) :
  In n (descendants (decompose_all d)) -> outside_removed d (item_of n).
Proof.
  unfold descendants, decompose_all. intros Hin.
  apply in_flat_map in Hin. destruct Hin as [k' [Hk' Hn]].
  apply in_flat_map in Hk'. destruct Hk' as [root [Hroot Hk']].
  exists root. split; [exact Hroot|].
  apply in_descendants_decompose. unfold descendants. apply in_flat_map.
  exists k'. split; assumption.
Qed.

(** After the removal no tag of a removed kind is left in the tree. *)
Lemma decompose_all_removes (d : soup) (nm : str) (a : dict str) (ks : list node) :
  In (Elem nm a ks) (descendants (decompose_all d)) -> is_removed nm = false.
Proof.
  intros Hin. apply in_descendants_decompose_all in Hin.
  destruct Hin as [root [_ Hs]]. cbn [item_of] in Hs.
  remember (ITag nm a) as i eqn:Ei.
  induction Hs as [s | s | nm' a' ks' Hr | nm' a' ks' k i Hr Hk Hs IH].
  - discriminate.
  - discriminate.
  - inversion Ei; subst. apply not_removed_boilerplate, Hr.
  - apply IH, Ei.
Qed.

(** After the removal the tree holds no header, footer, nav, script, style,
    iframe or form. *)
Lemma decompose_all_clear (d : soup) (nm : str) (a : dict str) (ks : list node) :
  boilerplate nm -> ~ In (Elem nm a ks) (descendants (decompose_all d)).
Proof.
  intros Hb Hin. apply decompose_all_removes in Hin.
  apply not_removed_boilerplate in Hin. exact (Hin Hb).
Qed.

Lemma strings_in_descendants (n : node) (s : str) :
  In s (strings_of n) -> In (Text s) (descendants_of n).
Proof.
  induction n as [t | t | nm a ks IH] using node_ind'; intros Hin.
  - simpl in *. destruct Hin as [-> | []]. left. reflexivity.
  - contradiction.
  - cbn [strings_of descendants_of] in *. right.
    apply in_flat_map in Hin. destruct Hin as [k [Hk Hs]].
    rewrite Forall_forall in IH.
    apply in_flat_map. exists k. split; [exact Hk | apply (IH k Hk), Hs].
Qed.

Lemma descendants_trans (root e x : node) :
  In e (descendants_of root) -> In x (descendants_of e) ->
  In x (descendants_of root).
Proof.
  induction root as [t | t | nm a ks IH] using node_ind'; intros He Hx.
  - simpl in He. destruct He as [<- | []]. exact Hx.
  - simpl in He. destruct He as [<- | []]. exact Hx.
  - cbn [descendants_of] in He. destruct He as [<- | He]; [exact Hx|].
    cbn [descendants_of]. right.
    apply in_flat_map in He. destruct He as [k [Hk He]].
    rewrite Forall_forall in IH.
    apply in_flat_map. exists k. split; [exact Hk | apply (IH k Hk He Hx)].
Qed.

(** The strings under a node of a document are text nodes of the document. *)
Lemma region_strings (d : soup) (e : node) (s : str) :
  In e (descendants d) -> In s (all_strings (kids_of e)) ->
  In (Text s) (descendants d).
Proof.
  unfold descendants, all_strings. intros He Hs.
  apply in_flat_map in He. destruct He as [root [Hroot He]].
  apply in_flat_map. exists root. split; [exact Hroot|].
  apply descendants_trans with (e := e); [exact He|].
  destruct e as [t | t | nm a ks]; [contradiction | contradiction |].
  cbn [kids_of] in Hs. cbn [descendants_of]. right.
  apply in_flat_map in Hs. destruct Hs as [k [Hk Hs]].
  apply in_flat_map. exists k. split; [exact Hk|].
  apply strings_in_descendants, Hs.
Qed.

Lemma document_strings (d : soup) (s : str) :
  In s (all_strings d) -> In (Text s) (descendants d).
Proof.
  unfold descendants, all_strings. intros Hs.
  apply in_flat_map in Hs. destruct Hs as [k [Hk Hs]].
  apply in_flat_map. exists k. split; [exact Hk|].
  apply strings_in_descendants, Hs.
Qed.

Lemma main_content_in (d : soup) (e : node) :
  main_content d = Some e -> In e (descendants d).
Proof.
  unfold main_content, orelse, find. intros H.
  repeat match type of H with
    | match List.find ?p ?l with _ => _ end = _ =>
        let E := fresh "E" in
        destruct (List.find p l) eqn:E;
        [inversion H; subst; apply (find_some _ _ E)|]
    end.
  apply (find_some _ _ H).
Qed.

(** The text extract_main_content returns is made of strings that lie
    outside the removed kinds. *)
Lemma extract_main_content_pieces (d : soup) :
  exists pieces,
    fst (extract_main_content d)
    = join [SP] (filter nonempty (map strip pieces))
    /\ Forall (fun s => outside_removed d (IText s)) pieces.
Proof.
  unfold extract_main_content.
  destruct (main_content (decompose_all d)) as [e|] eqn:Em; cbn [fst].
  - exists (all_strings (kids_of e)). split; [reflexivity|].
    apply Forall_forall. intros s Hs.
    apply (in_descendants_decompose_all d (Text s)).
    apply region_strings with (e := e); [|exact Hs].
    apply main_content_in, Em.
  - exists (all_strings (decompose_all d)). split; [reflexivity|].
    apply Forall_forall. intros s Hs.
    apply (in_descendants_decompose_all d (Text s)).
    apply document_strings, Hs.
Qed.

Lemma extract_main_content_soup (d : soup) :
  snd (extract_main_content d) = decompose_all d.
Proof.
  unfold extract_main_content.
  destruct (main_content (decompose_all d)); reflexivity.
Qed.

Lemma hrefs_carried (d : soup) : hrefs d = carried_hrefs d.
Proof.
  unfold hrefs, anchors, find_all, carried_hrefs.
  induction (descendants d) as [|n l IH]; [reflexivity|].
  cbn [filter flat_map]. rewrite <- IH.
  destruct n as [s | s | nm a ks]; [reflexivity | reflexivity |].
  unfold has_href. cbn [is_tag attr].
  destruct (str_eqb (lit "a") nm); [|reflexivity].
  destruct (dict_get (lit "href") a) eqn:Eh; cbn [andb map app default attr];
    rewrite ?Eh; reflexivity.
Qed.

(** Every href that is carried belongs to an anchor outside the removed
    kinds of the document as it was fetched. *)
Lemma carried_hrefs_outside (d : soup) (h : str) :
  In h (carried_hrefs (decompose_all d)) ->
  exists a, outside_removed d (ITag (lit "a") a)
            /\ dict_get (lit "href") a = Some h.
Proof.
  unfold carried_hrefs. intros Hin.
  apply in_flat_map in Hin. destruct Hin as [n [Hn Hh]].
  destruct n as [s | s | nm a ks]; [contradiction | contradiction |].
  destruct (str_eqb (lit "a") nm) eqn:Enm; [|contradiction].
  apply str_eqb_eq in Enm. subst nm.
  destruct (dict_get (lit "href") a) as [h'|] eqn:Eh; [|contradiction].
  destruct Hh as [-> | []].
  exists a. split; [|exact Eh].
  apply (in_descendants_decompose_all d _ Hn).
Qed.

(** ** Documents that agree outside the removed kinds *)

Lemma agree_decompose (d1 d2 : soup) :
  agree d1 d2 -> decompose_all d1 = decompose_all d2.
Proof.
  unfold decompose_all.
  induction 1 as [| s l1 l2 Hl IH | s l1 l2 Hl IH
                  | nm a k1 k2 l1 l2 Hr Hk IHk Hl IH
                  | nm a ks l1 l2 Hr Hl IH | nm a ks l1 l2 Hr Hl IH];
    cbn [flat_map decompose].
  - reflexivity.
  - rewrite IH. reflexivity.
  - rewrite IH. reflexivity.
  - rewrite (proj2 (not_removed_boilerplate nm) Hr), IHk, IH. reflexivity.
  - rewrite (proj2 (is_removed_boilerplate nm) Hr). exact IH.
  - rewrite (proj2 (is_removed_boilerplate nm) Hr). exact IH.
Qed.

(** What a removed kind holds has no part in the text or in the soup that
    extract_main_content leaves. *)
Lemma extract_main_content_agree (d1 d2 : soup) :
  agree d1 d2 -> extract_main_content d1 = extract_main_content d2.
Proof.
  intros H. unfold extract_main_content. rewrite (agree_decompose H).
  reflexivity.
Qed.

(** ** The record of a scraped page *)

Lemma Forall2_In_r (A B : Type) (R : A -> B -> Prop) (xs : list A) (ys : list B) (y : B) :
  Forall2 R xs ys -> In y ys -> exists x, In x xs /\ R x y.
Proof.
  induction 1 as [|x0 y0 xs ys HR HF IH]; intros Hin; [contradiction|].
  destruct Hin as [-> | Hin].
  - exists x0. split; [left; reflexivity | exact HR].
  - destruct (IH Hin) as [x [Hx HRx]]. exists x. split; [right|]; assumption.
Qed.

Lemma In_firstn (A : Type) (n : nat) (l : list A) (x : A) :
  In x (firstn n l) -> In x l.
Proof.
  revert l. induction n as [|n IH]; intros [|y l]; simpl; try contradiction.
  intros [-> | H]; [left; reflexivity | right; apply IH, H].
Qed.

Section ScrapeFacts.

Variable uni_alnum : char -> bool.
Variable urljoin : str -> str -> result str.

Lemma join_all_Forall2 (url : str) (hs links : list str) :
  join_all urljoin url hs = Ok links ->
  Forall2 (fun h l => urljoin url h = Ok l) hs links.
Proof.
  revert links. induction hs as [|h hs IH]; intros links H; simpl in H.
  - inversion H. constructor.
  - destruct (urljoin url h) as [l|] eqn:El; [|discriminate].
    destruct (join_all urljoin url hs) as [ls|]; [|discriminate].
    inversion H; subst. constructor; [exact El | apply IH; reflexivity].
Qed.

(** A fetch that parses and a record without an error key: the record is the
    page record, built from the document as the removal has left it. *)
Lemma scrape_url_ok (e : env) (hist : list call) (url : str) (d : soup) :
  on_get e hist url = Fetched d ->
  dict_get (lit "error") (fst (run e hist (scrape_url uni_alnum urljoin url))) = None ->
  exists links,
    join_all urljoin url (carried_hrefs (decompose_all d)) = Ok links
    /\ fst (run e hist (scrape_url uni_alnum urljoin url))
       = page_record (title_of d)
           (clean_text uni_alnum (fst (extract_main_content d)))
           (firstn 5 links).
Proof.
  intros Hget. cbn [scrape_url run fst]. rewrite Hget. unfold scrape_soup.
  pose proof (extract_main_content_soup d) as Hsoup.
  destruct (extract_main_content d) as [content d']. cbn [snd fst] in *.
  subst d'. rewrite hrefs_carried.
  destruct (join_all urljoin url (carried_hrefs (decompose_all d))) as [links | msg].
  - intros _. exists links. split; reflexivity.
  - rewrite error_record_get. discriminate.
Qed.

(** Non-interference: two fetched documents that agree outside the removed
    kinds give the same content and the same links, or raise alike. *)
Lemma scrape_soup_agree (url : str) (d1 d2 : soup) :
  agree d1 d2 ->
  match scrape_soup uni_alnum urljoin url d1,
        scrape_soup uni_alnum urljoin url d2 with
  | Ok r1, Ok r2 =>
      dict_get (lit "content") r1 = dict_get (lit "content") r2
      /\ dict_get (lit "links") r1 = dict_get (lit "links") r2
  | Raised m1, Raised m2 => m1 = m2
  | _, _ => False
  end.
Proof.
  intros H. unfold scrape_soup. rewrite (extract_main_content_agree H).
  destruct (extract_main_content d2) as [content d'].
  destruct (join_all urljoin url (hrefs d')); [split|]; reflexivity.
Qed.

(** C6: headers, footers, navs, scripts, styles, iframes and forms leave the
    tree before the text is read: the soup that the extraction leaves holds
    none of them.  The content of a scraped page is cleaned from strings
    that lie under none of them in the fetched document, each of its links
    is the href of an anchor that lies under none of them, and what stands
    under them has no part in the result: a page that differs from the
    fetched one only inside such elements gives the same content and the
    same links. *)
Theorem scrape_url_outside_removed (e : env) (hist : list call) (url : str)
  (d : soup) :
  on_get e hist url = Fetched d ->
  dict_get (lit "error") (fst (run e hist (scrape_url uni_alnum urljoin url))) = None ->
  (forall nm a ks,
      boilerplate nm ->
      ~ In (Elem nm a ks) (descendants (snd (extract_main_content d))))
  /\ (exists pieces links,
         dict_get (lit "content") (fst (run e hist (scrape_url uni_alnum urljoin url)))
         = Some (JStr (clean_text uni_alnum
                         (join [SP] (filter nonempty (map strip pieces)))))
         /\ Forall (fun s => outside_removed d (IText s)) pieces
         /\ dict_get (lit "links") (fst (run e hist (scrape_url uni_alnum urljoin url)))
            = Some (JArr (map JStr links))
         /\ Forall (fun l => exists a h,
                        outside_removed d (ITag (lit "a") a)
                        /\ dict_get (lit "href") a = Some h
                        /\ urljoin url h = Ok l) links)
  /\ (forall e' hist' d',
         on_get e' hist' url = Fetched d' ->
         agree d d' ->
         dict_get (lit "content") (fst (run e' hist' (scrape_url uni_alnum urljoin url)))
         = dict_get (lit "content") (fst (run e hist (scrape_url uni_alnum urljoin url)))
         /\ dict_get (lit "links") (fst (run e' hist' (scrape_url uni_alnum urljoin url)))
            = dict_get (lit "links") (fst (run e hist (scrape_url uni_alnum urljoin url)))).
Proof.
  intros Hget Hok. split; [|split].
  - intros nm a ks Hb. rewrite extract_main_content_soup.
    apply decompose_all_clear, Hb.
  - destruct (scrape_url_ok e hist url Hget Hok) as [links [Hj Hr]].
    destruct (extract_main_content_pieces d) as [pieces [Hp Hout]].
    exists pieces, (firstn 5 links). rewrite Hr, <- Hp.
    split; [reflexivity|]. split; [exact Hout|]. split; [reflexivity|].
    apply Forall_forall. intros l Hl. apply In_firstn in Hl.
    pose proof (@join_all_Forall2 url _ _ Hj) as HF.
    destruct (@Forall2_In_r _ _ _ _ _ l HF Hl) as [h [Hh Hu]].
    destruct (carried_hrefs_outside d h Hh) as [a [Ha Hhref]].
    exists a, h. repeat split; assumption.
  - intros e' hist' d' Hget' Hagree.
    pose proof (scrape_soup_agree url Hagree) as Hs.
    cbn [scrape_url run fst] in *. rewrite Hget in *. rewrite Hget'.
    destruct (scrape_soup uni_alnum urljoin url d) as [r1 | m1];
      destruct (scrape_soup uni_alnum urljoin url d') as [r2 | m2];
      try contradiction.
    + destruct Hs as [H1 H2]. split; congruence.
    + rewrite error_record_get in Hok. discriminate Hok.
Qed.

End ScrapeFacts.

(** ** The links of a scraped page, resolved by urljoin *)

(** A URL put together under a scheme that takes a network location starts
    with the scheme, a colon and two slashes. *)
Lemma urlunsplit_absolute (s n u q f : str) :
  nonempty s = true -> among_netloc s = true ->
  exists rest, Url.urlunsplit s n u q f = s ++ lit "://" ++ rest.
Proof.
  intros Hs Ha. unfold among_netloc in Ha. unfold Url.urlunsplit.
  rewrite Hs, Ha. cbn [andb].
  assert (H1 : exists x,
             (if (nonempty n || negb (is_prefix [Url.SLASH; Url.SLASH] u))%bool
              then [Url.SLASH; Url.SLASH] ++ n
                   ++ (if (nonempty u && negb (is_prefix [Url.SLASH] u))%bool
                       then Url.SLASH :: u else u)
              else u) = Url.SLASH :: Url.SLASH :: x).
  { destruct (nonempty n || negb (is_prefix [Url.SLASH; Url.SLASH] u))%bool eqn:E.
    - eexists. reflexivity.
    - apply orb_false_iff in E. destruct E as [_ E].
      apply negb_false_iff in E.
      destruct u as [|c1 [|c2 u']]; cbn [is_prefix] in E;
        rewrite ?andb_false_r in E; try discriminate E.
      apply andb_prop in E. destruct E as [E1 E2].
      apply andb_prop in E2. destruct E2 as [E2 _].
      apply N.eqb_eq in E1. apply N.eqb_eq in E2. subst c1 c2.
      exists u'. reflexivity. }
  destruct H1 as [x Hx]. rewrite Hx.
  change (lit "://") with [Url.COLON; Url.SLASH; Url.SLASH].
  destruct (nonempty q); destruct (nonempty f);
    eexists; rewrite <- ?app_assoc; cbn [app]; reflexivity.
Qed.

Section LinkFacts.

Variable uni_alnum : char -> bool.
Variable nfkc : str -> str.
Variable check_bracketed_host : str -> option str.

(** An empty reference gives the base. *)
Lemma urljoin_empty (base : str) :
  Url.urljoin nfkc check_bracketed_host base [] = Ok base.
Proof. unfold Url.urljoin. destruct base; reflexivity. Qed.

(** The example of the specification. *)
Lemma urljoin_about :
  Url.urljoin nfkc check_bracketed_host (lit "https://a.com/x") (lit "/about")
  = Ok (lit "https://a.com/about").
Proof. vm_compute. reflexivity. Qed.

(** What urljoin returns against a base with the scheme http or https: the
    base for an empty reference; the reference as it stands when it names
    another scheme; and in every other case a URL that starts with the
    scheme of the base, a colon and two slashes. *)
Lemma urljoin_absolute (base h l : str) (b : Url.parts) :
  Url.urlparse nfkc check_bracketed_host base [] = Ok b ->
  web_scheme (Url.scheme b) ->
  Url.urljoin nfkc check_bracketed_host base h = Ok l ->
  absolute_against base (Url.scheme b)
    (option_scheme (Url.urlparse nfkc check_bracketed_host h (Url.scheme b))) h l.
Proof.
  intros Hb Hweb Hj. unfold absolute_against, Url.urljoin in *.
  assert (Hs : nonempty (Url.scheme b) = true
               /\ among_netloc (Url.scheme b) = true
               /\ Url.among Url.uses_relative (Url.scheme b) = true).
  { destruct Hweb as [-> | ->]; repeat split; reflexivity. }
  destruct Hs as [Hs1 [Hs2 Hs3]].
  destruct (nonempty base) eqn:Ebase.
  2:{ apply nonempty_false in Ebase. subst base. vm_compute in Hb.
      inversion Hb; subst b. discriminate Hs1. }
  cbn [negb] in Hj.
  destruct (nonempty h) eqn:Eh.
  2:{ apply nonempty_false in Eh. subst h. inversion Hj; subst l. left. split; reflexivity. }
  cbn [negb] in Hj. rewrite Hb in Hj.
  destruct b as [bscheme bnetloc bpath bparams bquery bfragment].
  cbn [Url.scheme] in *.
  destruct (Url.urlparse nfkc check_bracketed_host h bscheme)
    as [[scheme netloc path params query fragment] | msg]; [|discriminate Hj].
  cbn [option_scheme Url.scheme].
  destruct (str_eqb scheme bscheme) eqn:Esch.
  - apply str_eqb_eq in Esch. subst scheme. rewrite Hs3 in Hj. cbn [negb orb] in Hj.
    right. right.
    repeat match type of Hj with
           | (if ?c then _ else _) = _ => destruct c
           | (let x := _ in _) = _ => cbv zeta in Hj
           end;
      inversion Hj; subst l; unfold Url.urlunparse; cbn [Url.scheme Url.netloc
        Url.path Url.params Url.query Url.fragment];
      apply urlunsplit_absolute; assumption.
  - cbn [negb orb] in Hj. inversion Hj; subst l. right. left.
    split; [reflexivity|]. intros E. inversion E; subst scheme.
    rewrite str_eqb_refl in Esch. discriminate Esch.
Qed.

(** C4 (amended): the links of a scraped page are the hrefs of the anchors
    that carry an href attribute, an empty one included, in the document
    left by the removal, each resolved by urljoin against the URL of the
    page, in document order and cut to the first five; the list is never
    longer than five.  An empty href resolves to the URL of the page; the
    href /about on the page https://a.com/x resolves to
    https://a.com/about; and on a page whose URL has the scheme http or
    https every link is the URL of the page, for an empty href, or the href
    as it stands, when it names another scheme, or starts with the scheme of
    the page, a colon and two slashes. *)
Theorem scrape_url_links (e : env) (hist : list call) (url : str) (d : soup) :
  let urljoin := Url.urljoin nfkc check_bracketed_host in
  on_get e hist url = Fetched d ->
  dict_get (lit "error") (fst (run e hist (scrape_url uni_alnum urljoin url))) = None ->
  exists links,
    Forall2 (fun h l => urljoin url h = Ok l)
      (carried_hrefs (decompose_all d)) links
    /\ dict_get (lit "links") (fst (run e hist (scrape_url uni_alnum urljoin url)))
       = Some (JArr (map JStr (firstn 5 links)))
    /\ length (firstn 5 links) <= 5
    /\ Forall2 (fun h l => h = [] -> l = url)
         (carried_hrefs (decompose_all d)) links
    /\ (url = lit "https://a.com/x" ->
        Forall2 (fun h l => h = lit "/about" -> l = lit "https://a.com/about")
          (carried_hrefs (decompose_all d)) links)
    /\ (forall b,
           Url.urlparse nfkc check_bracketed_host url [] = Ok b ->
           web_scheme (Url.scheme b) ->
           Forall2 (fun h l =>
                      absolute_against url (Url.scheme b)
                        (option_scheme
                           (Url.urlparse nfkc check_bracketed_host h (Url.scheme b)))
                        h l)
             (carried_hrefs (decompose_all d)) links).
Proof.
  cbv zeta. intros Hget Hok.
  destruct (@scrape_url_ok uni_alnum _ e hist url d Hget Hok) as [links [Hj Hr]].
  pose proof (join_all_Forall2 _ _ _ Hj) as HF.
  exists links. split; [exact HF|]. split; [rewrite Hr; reflexivity|].
  split; [apply firstn_le_length|].
  split; [|split].
  - eapply Forall2_impl; [|exact HF]. cbv beta. intros h l Hl ->.
    rewrite urljoin_empty in Hl. inversion Hl. reflexivity.
  - intros ->. eapply Forall2_impl; [|exact HF]. cbv beta. intros h l Hl ->.
    rewrite urljoin_about in Hl. inversion Hl. reflexivity.
  - intros b Hb Hweb. eapply Forall2_impl; [|exact HF]. cbv beta.
    intros h l Hl. exact (urljoin_absolute _ _ Hb Hweb Hl).
Qed.

End LinkFacts.

(** ** clean_text, applied twice *)

Lemma clean_text_hash (uni_alnum : char -> bool) :
  clean_text uni_alnum (lit "a # b") = lit "a  b"
  /\ clean_text uni_alnum (clean_text uni_alnum (lit "a # b")) = lit "a b".
Proof. split; vm_compute; reflexivity. Qed.

(** The text of the counterexample is a text the extraction can hand to
    clean_text. *)
Example extract_hash :
  fst (extract_main_content [Elem (lit "p") [] [Text (lit "a # b")]])
  = lit "a # b".
Proof. vm_compute. reflexivity. Qed.

(** C2 (amended): a second clean_text changes nothing on a text made only of
    characters that the removal keeps (word characters, whitespace and the
    five punctuation marks); on any text it changes nothing exactly when the
    first result holds no two spaces side by side; and the second result is
    always stable, a third clean_text returns it unchanged. *)
Theorem clean_text_stabilises (uni_alnum : char -> bool) (x : str) :
  (Forall (fun c => kept uni_alnum c = true) x ->
   clean_text uni_alnum (clean_text uni_alnum x) = clean_text uni_alnum x)
  /\ (clean_text uni_alnum (clean_text uni_alnum x) = clean_text uni_alnum x
      <-> squeezed false (clean_text uni_alnum x) = true)
  /\ clean_text uni_alnum (clean_text uni_alnum (clean_text uni_alnum x))
     = clean_text uni_alnum (clean_text uni_alnum x).
Proof.
  split; [|split].
  - intros Hx. apply clean_text_of_kept, Hx.
  - destruct (@clean_text_of_kept uni_alnum _ (clean_text_kept uni_alnum x))
      as [E _].
    rewrite E. split.
    + intros H. rewrite <- H. apply squeezed_strip, squeezed_squeeze.
    + intros H. rewrite (@squeeze_squeezed _ false H).
      rewrite clean_text_eq. apply strip_fixed.
  - apply clean_text_of_kept, clean_text_kept.
Qed.

Lemma clean_text_stabilises_witness :
  clean_text ascii_only (clean_text ascii_only (lit " a,  b! "))
  = clean_text ascii_only (lit " a,  b! ").
Proof.
  apply (proj1 (clean_text_stabilises ascii_only (lit " a,  b! "))).
  repeat constructor.
Defined.

(** C2, as stated, fails: removing the hash of [a # b] leaves two spaces
    side by side, which only a second clean_text squeezes into one. *)
Lemma clean_text_not_idempotent :
  ~ (forall (uni_alnum : char -> bool) (x : str),
        clean_text uni_alnum (clean_text uni_alnum x) = clean_text uni_alnum x).
Proof.
  intros H. specialize (H ascii_only (lit "a # b")).
  destruct (clean_text_hash ascii_only) as [H1 H2].
  rewrite H2, H1 in H. vm_compute in H. discriminate H.
Qed.

(** ** The rewrites of the answer on the scenario *)

(** C9: on the scenario the numbered line becomes a level-3 heading, the
    blank line two line breaks, the quoted span bold with its quotes; the
    dash and its space are replaced by the literal of the source, the three
    characters U+00E2, U+20AC, U+00A2 and a space, and the bullet glyph
    U+2022 occurs nowhere in the output. *)
Theorem format_answer_scenario (uni_decimal : char -> bool) :
  format_answer uni_decimal scenario_answer
  = lit "<h3>1. Hello</h3><br><br>World says <b>" ++ [QUOTE] ++ lit "hi"
    ++ [QUOTE] ++ lit "</b> and" ++ [NL] ++ bullet_literal ++ lit "a bullet"
  /\ ~ In BULLET (format_answer uni_decimal scenario_answer).
Proof.
  assert (E : format_answer uni_decimal scenario_answer
              = lit "<h3>1. Hello</h3><br><br>World says <b>" ++ [QUOTE]
                ++ lit "hi" ++ [QUOTE] ++ lit "</b> and" ++ [NL]
                ++ bullet_literal ++ lit "a bullet")
    by (vm_compute; reflexivity).
  split; [exact E|]. rewrite E. vm_compute.
  intros H. repeat (destruct H as [H | H]; [discriminate H|]). exact H.
Qed.

(** ** Instances of the theorems on the example environment *)

Lemma fetch_content_fail_fast_witness :
  run example_env []
    (fetch_content ascii_only example_urljoin example_fault
       (JObj [(lit "urls",
               JArr (map JStr ([lit "  "; page_url]
                               ++ bad_url :: [lit "https://a.com/y"])))]))
  = (Response 400
       (error_body (lit "Error scraping http://bad.invalid: connection failed")),
     map CallGet (filter (fun x => nonempty (strip x)) [lit "  "; page_url]
                  ++ [bad_url])).
Proof.
  eapply (@fetch_content_fail_fast ascii_only example_urljoin example_fault
            example_env [lit "  "; page_url] [lit "https://a.com/y"] bad_url).
  - vm_compute. reflexivity.
  - reflexivity.
  - vm_compute. reflexivity.
Defined.

Lemma ask_question_validation_witness :
  run example_env []
    (ask_question ascii_only example_repr example_fault
       (example_question example_content (lit "   ")))
  = (Response 400 (error_body (lit "No question provided")), []).
Proof.
  apply (@ask_question_validation ascii_only example_repr example_fault
           example_env _ example_content (lit "   ")).
  - reflexivity.
  - reflexivity.
  - right. reflexivity.
Defined.

Lemma ask_question_prompt_witness :
  spec_context
    (map (spec_block example_repr)
       (filter (fun kv => has_both (snd kv)) two_block_content))
  = ([NL] ++ lit "Source: https://a.com/x" ++ [NL] ++ lit "Title: About" ++ [NL]
     ++ lit "Content:" ++ [NL] ++ repeat 97%N 1500
     ++ lit "  # Limit content length per URL" ++ [NL] ++ lit "                ")
    ++ ([NL; NL] ++ lit "---" ++ [NL; NL])
    ++ ([NL] ++ lit "Source: https://a.com/y" ++ [NL] ++ lit "Title: Prices" ++ [NL]
        ++ lit "Content:" ++ [NL] ++ lit "Second page"
        ++ lit "  # Limit content length per URL" ++ [NL] ++ lit "                ")
  /\ exists head tail,
       snd (run example_env []
              (ask_question ascii_only example_repr example_fault
                 (example_question two_block_content (lit " Who? "))))
       = [CallGenerate
            (head
             ++ lit "Question: " ++ strip (lit " Who? ") ++ [NL; NL]
             ++ lit "Reference Content:" ++ [NL]
             ++ spec_context
                  (map (spec_block example_repr)
                     (filter (fun kv => has_both (snd kv)) two_block_content))
             ++ [NL; NL]
             ++ lit "Please provide a detailed response following this structure:"
             ++ tail)].
Proof.
  split; [vm_compute; reflexivity|].
  apply (@ask_question_prompt ascii_only example_repr example_fault
           example_env _ two_block_content (lit " Who? ")).
  - reflexivity.
  - reflexivity.
  - discriminate.
  - vm_compute. discriminate.
  - vm_compute. reflexivity.
Defined.

Lemma prompt_carries_template_comment_witness :
  exists prompt pre suf,
    snd (run example_env []
           (ask_question ascii_only example_repr example_fault
              (example_question example_content (lit " Who? "))))
    = [CallGenerate prompt]
    /\ prompt
       = pre
         ++ (lit "Content:" ++ [NL] ++ firstn 1500 (lit "Read about")
             ++ lit "  # Limit content length per URL" ++ [NL])
         ++ suf.
Proof.
  apply (@prompt_carries_template_comment ascii_only example_repr example_fault
           example_env _ example_content (lit " Who? ") page_url
           (JObj [(lit "title", JStr (lit "About"));
                  (lit "content", JStr (lit "Read about"));
                  (lit "links", JArr [JStr (lit "https://a.com/about")])])).
  - reflexivity.
  - reflexivity.
  - vm_compute. discriminate.
  - reflexivity.
  - left. reflexivity.
  - reflexivity.
Defined.

Lemma scrape_url_links_witness :
  dict_get (lit "links")
    (fst (run (serving links_doc) []
            (scrape_url ascii_only (Url.urljoin plain_nfkc lenient_host) page_url)))
  = Some (JArr (map JStr [lit "https://a.com/about"; page_url;
                          lit "mailto:a@b.c"; lit "https://a.com/docs/start";
                          lit "https://cdn.b.org/lib.js"]))
  /\ exists links,
       Forall2 (fun h l => Url.urljoin plain_nfkc lenient_host page_url h = Ok l)
         (carried_hrefs (decompose_all links_doc)) links
       /\ dict_get (lit "links")
            (fst (run (serving links_doc) []
                    (scrape_url ascii_only (Url.urljoin plain_nfkc lenient_host)
                       page_url)))
          = Some (JArr (map JStr (firstn 5 links)))
       /\ length (firstn 5 links) <= 5
       /\ Forall2 (fun h l => h = [] -> l = page_url)
            (carried_hrefs (decompose_all links_doc)) links
       /\ (page_url = lit "https://a.com/x" ->
           Forall2 (fun h l => h = lit "/about" -> l = lit "https://a.com/about")
             (carried_hrefs (decompose_all links_doc)) links)
       /\ (forall b,
              Url.urlparse plain_nfkc lenient_host page_url [] = Ok b ->
              web_scheme (Url.scheme b) ->
              Forall2 (fun h l =>
                         absolute_against page_url (Url.scheme b)
                           (option_scheme
                              (Url.urlparse plain_nfkc lenient_host h (Url.scheme b)))
                           h l)
                (carried_hrefs (decompose_all links_doc)) links).
Proof.
  split; [vm_compute; reflexivity|].
  apply (@scrape_url_links ascii_only plain_nfkc lenient_host (serving links_doc)
           [] page_url links_doc).
  - reflexivity.
  - vm_compute. reflexivity.
Defined.

Lemma scrape_url_outside_removed_witness :
  fst (run (serving boilerplate_doc) []
         (scrape_url ascii_only (Url.urljoin plain_nfkc lenient_host) page_url))
  = page_record (Some []) (lit "Read about") [lit "https://a.com/about"]
  /\ (forall nm a ks,
         boilerplate nm ->
         ~ In (Elem nm a ks)
             (descendants (snd (extract_main_content boilerplate_doc))))
  /\ (exists pieces links,
         dict_get (lit "content")
           (fst (run (serving boilerplate_doc) []
                   (scrape_url ascii_only (Url.urljoin plain_nfkc lenient_host)
                      page_url)))
         = Some (JStr (clean_text ascii_only
                         (join [SP] (filter nonempty (map strip pieces)))))
         /\ Forall (fun s => outside_removed boilerplate_doc (IText s)) pieces
         /\ dict_get (lit "links")
              (fst (run (serving boilerplate_doc) []
                      (scrape_url ascii_only (Url.urljoin plain_nfkc lenient_host)
                         page_url)))
            = Some (JArr (map JStr links))
         /\ Forall (fun l => exists a h,
                        outside_removed boilerplate_doc (ITag (lit "a") a)
                        /\ dict_get (lit "href") a = Some h
                        /\ Url.urljoin plain_nfkc lenient_host page_url h = Ok l)
              links)
  /\ (forall e' hist' d',
         on_get e' hist' page_url = Fetched d' ->
         agree boilerplate_doc d' ->
         dict_get (lit "content")
           (fst (run e' hist'
                   (scrape_url ascii_only (Url.urljoin plain_nfkc lenient_host)
                      page_url)))
         = dict_get (lit "content")
             (fst (run (serving boilerplate_doc) []
                     (scrape_url ascii_only (Url.urljoin plain_nfkc lenient_host)
                        page_url)))
         /\ dict_get (lit "links")
              (fst (run e' hist'
                      (scrape_url ascii_only (Url.urljoin plain_nfkc lenient_host)
                         page_url)))
            = dict_get (lit "links")
                (fst (run (serving boilerplate_doc) []
                        (scrape_url ascii_only (Url.urljoin plain_nfkc lenient_host)
                           page_url)))).
Proof.
  split; [vm_compute; reflexivity|].
  apply (@scrape_url_outside_removed ascii_only
           (Url.urljoin plain_nfkc lenient_host) (serving boilerplate_doc) []
           page_url boilerplate_doc).
  - reflexivity.
  - vm_compute. reflexivity.
Defined.

(** The scraped record of the example page: the anchor of the navigation
    gives no link, and the href of the text is resolved against the page. *)
Example scrape_about_doc :
  fst (run example_env [] (scrape_url ascii_only example_urljoin page_url))
  = page_record (Some []) (lit "Read about") [lit "https://a.com/about"].
Proof. vm_compute. reflexivity. Qed.

(** C4, as stated, fails: an anchor whose href is empty gives a link, the
    URL of the page itself, while the anchors with a non-empty href are
    none. *)
Lemma links_keep_empty_href :
  (forall (nfkc : str -> str) (check_bracketed_host : str -> option str),
      dict_get (lit "links")
        (fst (run (serving empty_href_doc) []
                (scrape_url ascii_only (Url.urljoin nfkc check_bracketed_host)
                   page_url)))
      = Some (JArr [JStr page_url]))
  /\ spec_hrefs (decompose_all empty_href_doc) = []
  /\ ~ (forall (uni_alnum : char -> bool) (nfkc : str -> str)
               (check_bracketed_host : str -> option str)
               (e : env) (hist : list call) (url : str) (d : soup),
           on_get e hist url = Fetched d ->
           dict_get (lit "error")
             (fst (run e hist
                     (scrape_url uni_alnum (Url.urljoin nfkc check_bracketed_host)
                        url))) = None ->
           exists links,
             Forall2 (fun h l => Url.urljoin nfkc check_bracketed_host url h = Ok l)
               (spec_hrefs (decompose_all d)) links
             /\ dict_get (lit "links")
                  (fst (run e hist
                          (scrape_url uni_alnum
                             (Url.urljoin nfkc check_bracketed_host) url)))
                = Some (JArr (map JStr (firstn 5 links)))).
Proof.
  split; [intros nfkc cbh; vm_compute; reflexivity|].
  split; [vm_compute; reflexivity|].
  intros H.
  destruct (H ascii_only plain_nfkc lenient_host (serving empty_href_doc)
              [] page_url empty_href_doc eq_refl eq_refl) as [links [HF HL]].
  assert (Hs : spec_hrefs (decompose_all empty_href_doc) = [])
    by (vm_compute; reflexivity).
  rewrite Hs in HF. inversion HF; subst links.
  vm_compute in HL. discriminate HL.
Qed.

(** * Further properties of the code *)

(** ** What clean_text returns *)

Lemma length_lstrip (s : str) : length (lstrip s) <= length s.
Proof.
  induction s as [|c r IH]; simpl; [lia|].
  destruct (is_space c); simpl; lia.
Qed.

Lemma length_strip (s : str) : length (strip s) <= length s.
Proof.
  unfold strip, rstrip. rewrite length_rev.
  pose proof (length_lstrip (rev (lstrip s))) as H1.
  rewrite length_rev in H1. pose proof (length_lstrip s). lia.
Qed.

Lemma length_squeeze (s : str) : forall b, length (squeeze b s) <= length s.
Proof.
  induction s as [|c r IH]; intros b; simpl; [lia|].
  pose proof (IH true). pose proof (IH false).
  destruct (is_space c); [destruct b|]; simpl; lia.
Qed.

Lemma Forall_squeeze_space (s : str) :
  forall b, Forall (fun c => c = SP \/ is_space c = false) (squeeze b s).
Proof.
  induction s as [|c r IH]; intros b; simpl; [constructor|].
  destruct (is_space c) eqn:Hc.
  - destruct b; [apply IH|]. constructor; [left; reflexivity | apply IH].
  - constructor; [right; exact Hc | apply IH].
Qed.

Lemma Forall_filter_both (A : Type) (P : A -> Prop) (f : A -> bool) (l : list A) :
  Forall P l -> Forall (fun x => P x /\ f x = true) (filter f l).
Proof.
  induction 1 as [|x l Hx Hl IH]; simpl; [constructor|].
  destruct (f x) eqn:E; [constructor; [split; assumption | exact IH] | exact IH].
Qed.

Lemma filter_lstrip (q : char -> bool) (s : str) :
  (forall c, q c = true -> is_space c = false) ->
  filter q (lstrip s) = filter q s.
Proof.
  intros Hq. induction s as [|c r IH]; simpl; [reflexivity|].
  destruct (is_space c) eqn:Hc; [|reflexivity].
  destruct (q c) eqn:Eq; [|exact IH].
  rewrite (Hq c Eq) in Hc. discriminate.
Qed.

Lemma filter_strip (q : char -> bool) (s : str) :
  (forall c, q c = true -> is_space c = false) ->
  filter q (strip s) = filter q s.
Proof.
  intros Hq. unfold strip, rstrip.
  rewrite filter_rev, (filter_lstrip _ _ Hq), filter_rev, rev_involutive.
  apply filter_lstrip, Hq.
Qed.

Lemma filter_squeeze (q : char -> bool) (s : str) :
  (forall c, q c = true -> is_space c = false) ->
  forall b, filter q (squeeze b s) = filter q s.
Proof.
  intros Hq. induction s as [|c r IH]; intros b; simpl; [reflexivity|].
  assert (Hsp : q SP = false).
  { destruct (q SP) eqn:E; [|reflexivity]. apply Hq in E. discriminate E. }
  destruct (is_space c) eqn:Hc.
  - assert (Hqc : q c = false).
    { destruct (q c) eqn:E; [|reflexivity]. apply Hq in E. congruence. }
    rewrite Hqc. destruct b; simpl; rewrite ?Hsp; apply IH.
  - simpl. rewrite IH. reflexivity.
Qed.

Lemma filter_filter_sub (A : Type) (q f : A -> bool) (l : list A) :
  (forall x, q x = true -> f x = true) ->
  filter q (filter f l) = filter q l.
Proof.
  intros H. induction l as [|x l IH]; simpl; [reflexivity|].
  destruct (f x) eqn:Ef; simpl.
  - rewrite IH. reflexivity.
  - destruct (q x) eqn:Eq; [|exact IH]. rewrite (H x Eq) in Ef. discriminate.
Qed.

(** X1: whatever text goes in, clean_text returns a string made of single
    characters of two sorts only, the space U+0020 and characters of the
    kept class that are not whitespace (no tab, no line break); it has no
    whitespace at either end; and it is never longer than the input. *)
Theorem clean_text_shape (uni_alnum : char -> bool) (x : str) :
  Forall (fun c => c = SP \/ solid uni_alnum c = true) (clean_text uni_alnum x)
  /\ strip (clean_text uni_alnum x) = clean_text uni_alnum x
  /\ length (clean_text uni_alnum x) <= length x.
Proof.
  rewrite clean_text_eq. split; [|split].
  - apply Forall_strip.
    eapply Forall_impl;
      [|apply Forall_filter_both, (Forall_squeeze_space x false)].
    intros c [[Hc | Hc] Hk]; [left; exact Hc | right].
    unfold solid. rewrite Hk, Hc. reflexivity.
  - apply strip_fixed.
  - pose proof (length_strip (filter (kept uni_alnum) (squeeze false x))).
    pose proof (filter_length_le (kept uni_alnum) (squeeze false x)).
    pose proof (length_squeeze x false). lia.
Qed.

(** X2: clean_text loses no character of the kept class that is not
    whitespace and brings in none: those characters of the result are those
    of the input, in the same order. *)
Theorem clean_text_keeps_solid (uni_alnum : char -> bool) (x : str) :
  filter (solid uni_alnum) (clean_text uni_alnum x)
  = filter (solid uni_alnum) x.
Proof.
  assert (Hsp : forall c, solid uni_alnum c = true -> is_space c = false).
  { intros c H. unfold solid in H. apply andb_prop in H.
    destruct H as [_ H]. apply negb_true_iff in H. exact H. }
  assert (Hk : forall c, solid uni_alnum c = true -> kept uni_alnum c = true).
  { intros c H. unfold solid in H. apply andb_prop in H. apply H. }
  rewrite clean_text_eq, (filter_strip _ _ Hsp), (filter_filter_sub _ _ _ Hk).
  apply filter_squeeze, Hsp.
Qed.

(** ** The removal, done twice *)

Lemma decompose_twice (n : node) :
  flat_map decompose (decompose n) = decompose n.
Proof.
  induction n as [s | s | nm a ks IH] using node_ind'; [reflexivity | reflexivity |].
  cbn [decompose]. destruct (is_removed nm) eqn:Hr; [reflexivity|].
  cbn [flat_map decompose]. rewrite Hr, app_nil_r. do 2 f_equal.
  induction IH as [|k ks Hk Hks IHks]; [reflexivity|].
  cbn [flat_map]. rewrite flat_map_app, Hk, IHks. reflexivity.
Qed.

Lemma decompose_all_twice (d : soup) :
  decompose_all (decompose_all d) = decompose_all d.
Proof.
  unfold decompose_all. induction d as [|n d IH]; [reflexivity|].
  cbn [flat_map]. rewrite flat_map_app, decompose_twice, IH. reflexivity.
Qed.

(** X3: extract_main_content is stable on what it leaves: the soup it hands
    back holds no header, footer, nav, script, style, iframe or form at any
    depth, and a second call on that soup returns the same text and the same
    soup. *)
Theorem extract_main_content_again (d : soup) :
  extract_main_content (snd (extract_main_content d)) = extract_main_content d
  /\ forall nm a ks,
       In nm [lit "header"; lit "footer"; lit "nav"; lit "script"; lit "style";
              lit "iframe"; lit "form"] ->
       ~ In (Elem nm a ks) (descendants (snd (extract_main_content d))).
Proof.
  rewrite extract_main_content_soup. split.
  - unfold extract_main_content. rewrite decompose_all_twice. reflexivity.
  - intros nm a ks Hnm. apply decompose_all_clear.
    unfold boilerplate. cbn [In] in Hnm.
    destruct Hnm as [H | [H | [H | [H | [H | [H | [H | []]]]]]]];
      symmetry in H; auto 10.
Qed.

(** ** More on scrape_url *)

Section ScrapeMore.

Variable uni_alnum : char -> bool.
Variable urljoin : str -> str -> result str.

Lemma join_all_raises (url : str) (pre post : list str) (h msg : str) :
  Forall (fun h' => exists l, urljoin url h' = Ok l) pre ->
  urljoin url h = Raised msg ->
  join_all urljoin url (pre ++ h :: post) = Raised msg.
Proof.
  intros Hpre Hh. induction Hpre as [|p pre [l Hl] Hpre IH]; simpl.
  - rewrite Hh. reflexivity.
  - rewrite Hl, IH. reflexivity.
Qed.

(** X4: the hrefs are all resolved before the list is cut to five, so one
    href that urljoin refuses fails the page wherever its anchor stands,
    also after the fifth: scrape_url returns the error record with the
    message of the first href that raises, and no title, content or links. *)
Theorem scrape_url_bad_href (e : env) (hist : list call) (url : str) (d : soup)
  (pre post : list str) (h msg : str) :
  on_get e hist url = Fetched d ->
  carried_hrefs (decompose_all d) = pre ++ h :: post ->
  Forall (fun h' => exists l, urljoin url h' = Ok l) pre ->
  urljoin url h = Raised msg ->
  fst (run e hist (scrape_url uni_alnum urljoin url)) = error_record url msg.
Proof.
  intros Hget Hsplit Hpre Hh. cbn [scrape_url run fst]. rewrite Hget.
  unfold scrape_soup.
  pose proof (extract_main_content_soup d) as Hsoup.
  destruct (extract_main_content d) as [content d']. cbn [snd] in Hsoup.
  subst d'. rewrite hrefs_carried, Hsplit.
  rewrite (@join_all_raises url pre post h msg Hpre Hh). reflexivity.
Qed.

(** X5: scrape_url makes one request, for its own URL, and no other call,
    whatever the outcome: no retry and no second fetch.  What it returns is
    the error record of that URL, or a record with the keys title, content
    and links in which the links are at most five. *)
Theorem scrape_url_single_request (e : env) (hist : list call) (url : str) :
  snd (run e hist (scrape_url uni_alnum urljoin url)) = hist ++ [CallGet url]
  /\ ((exists msg,
          fst (run e hist (scrape_url uni_alnum urljoin url))
          = error_record url msg)
      \/ (exists title content links,
             fst (run e hist (scrape_url uni_alnum urljoin url))
             = page_record title content links
             /\ length links <= 5)).
Proof.
  split; [reflexivity|]. cbn [scrape_url run fst].
  destruct (on_get e hist url) as [msg | d].
  - left. exists msg. reflexivity.
  - unfold scrape_soup. destruct (extract_main_content d) as [content d'].
    destruct (join_all urljoin url (hrefs d')) as [links | msg].
    + right. exists (title_of d), (clean_text uni_alnum content), (firstn 5 links).
      split; [reflexivity | apply firstn_le_length].
    + left. exists msg. reflexivity.
Qed.

Lemma dot_string_tag (nm : str) (a : dict str) (ks : list node) (r : option str) :
  tag_string ks r -> dot_string (Elem nm a ks) = r.
Proof.
  intros H. revert nm a.
  induction H as [s | s | nm' a' ks' r H IH | ks Hlen]; intros nm a.
  - reflexivity.
  - reflexivity.
  - change (dot_string (Elem nm' a' ks') = r). apply IH.
  - destruct ks as [|k [|k' ks']]; [reflexivity | | reflexivity].
    exfalso. apply Hlen. reflexivity.
Qed.

Lemma tag_string_dot (n : node) :
  match n with
  | Elem _ _ ks => tag_string ks (dot_string n)
  | _ => True
  end.
Proof.
  induction n as [s | s | nm a ks IH] using node_ind'; [exact I | exact I |].
  destruct ks as [|k [|k' ks']].
  - apply tag_string_none. discriminate.
  - inversion IH as [|k0 l0 Hk _]; subst.
    destruct k as [s | s | nm' a' ks'].
    + apply tag_string_text.
    + apply tag_string_comment.
    + change (dot_string (Elem nm a [Elem nm' a' ks']))
        with (dot_string (Elem nm' a' ks')).
      apply tag_string_nested, Hk.
  - apply tag_string_none. cbn [length]. lia.
Qed.

(** X6: the title is read from the document as it was fetched, before the
    removal, from the first title tag in document order, also when that tag
    stands inside a removed kind.  It is the empty string when the document
    has no title tag; otherwise it is what the children of the tag give, in
    one way only: the only child when that child is a string, a comment
    included; what the only child gives in the same way when that child is
    a tag; and null when the tag is empty or has more than one child, as a
    title with a text and a comment has. *)
Theorem scrape_url_title (e : env) (hist : list call) (url : str) (d : soup) :
  on_get e hist url = Fetched d ->
  dict_get (lit "error") (fst (run e hist (scrape_url uni_alnum urljoin url))) = None ->
  (none_in (is_tag (lit "title")) d ->
   dict_get (lit "title") (fst (run e hist (scrape_url uni_alnum urljoin url)))
   = Some (JStr []))
  /\ (forall nm a ks,
         first_in_order (is_tag (lit "title")) d (Elem nm a ks) ->
         exists r,
           tag_string ks r
           /\ (forall r', tag_string ks r' -> r' = r)
           /\ dict_get (lit "title")
                (fst (run e hist (scrape_url uni_alnum urljoin url)))
              = Some match r with Some s => JStr s | None => JNull end).
Proof.
  intros Hget Hok.
  destruct (@scrape_url_ok uni_alnum urljoin e hist url d Hget Hok) as [links [_ Hr]].
  rewrite Hr. unfold title_of. split.
  - intros Hnone. apply none_in_find in Hnone. rewrite Hnone. reflexivity.
  - intros nm a ks Hfirst. apply first_in_order_find in Hfirst.
    rewrite Hfirst. exists (dot_string (Elem nm a ks)).
    split; [exact (tag_string_dot (Elem nm a ks))|]. split.
    + intros r' Hr'. symmetry. exact (dot_string_tag nm a Hr').
    + cbn [page_record dict_get]. rewrite str_eqb_refl.
      destruct (dot_string (Elem nm a ks)); reflexivity.
Qed.

End ScrapeMore.

Lemma scrape_url_bad_href_witness :
  fst (run (serving six_links_doc) []
         (scrape_url ascii_only bracket_urljoin page_url))
  = error_record page_url (lit "Invalid IPv6 URL").
Proof.
  apply (@scrape_url_bad_href ascii_only bracket_urljoin (serving six_links_doc)
           [] page_url six_links_doc
           [lit "/1"; lit "/2"; lit "/3"; lit "/4"; lit "/5"] []
           (lit "http://[") (lit "Invalid IPv6 URL")).
  - reflexivity.
  - reflexivity.
  - repeat constructor; eexists; reflexivity.
  - reflexivity.
Defined.

Lemma scrape_url_title_witness :
  dict_get (lit "title")
    (fst (run (serving comment_title_doc) []
            (scrape_url ascii_only (Url.urljoin plain_nfkc lenient_host) page_url)))
  = Some JNull
  /\ (none_in (is_tag (lit "title")) comment_title_doc ->
      dict_get (lit "title")
        (fst (run (serving comment_title_doc) []
                (scrape_url ascii_only (Url.urljoin plain_nfkc lenient_host)
                   page_url)))
      = Some (JStr []))
  /\ (forall nm a ks,
         first_in_order (is_tag (lit "title")) comment_title_doc (Elem nm a ks) ->
         exists r,
           tag_string ks r
           /\ (forall r', tag_string ks r' -> r' = r)
           /\ dict_get (lit "title")
                (fst (run (serving comment_title_doc) []
                        (scrape_url ascii_only (Url.urljoin plain_nfkc lenient_host)
                           page_url)))
              = Some match r with Some s => JStr s | None => JNull end).
Proof.
  split; [vm_compute; reflexivity|].
  apply (@scrape_url_title ascii_only (Url.urljoin plain_nfkc lenient_host)
           (serving comment_title_doc) [] page_url comment_title_doc).
  - reflexivity.
  - vm_compute. reflexivity.
Defined.

(** The pages of the examples: a title inside the header is read although
    the header gives no content; a title that is a comment alone is that
    comment; a title nested in one tag is read through it. *)
Example scrape_header_title :
  fst (run (serving header_title_doc) []
         (scrape_url ascii_only example_urljoin page_url))
  = page_record (Some (lit "Shop")) (lit "Open daily") []
  /\ title_of [Elem (lit "title") [] [Comment (lit " v2 ")]] = Some (lit " v2 ")
  /\ title_of [Elem (lit "title") [] [Elem (lit "b") [] [Text (lit "Shop")]]]
     = Some (lit "Shop").
Proof. repeat split; vm_compute; reflexivity. Qed.

(** ** More on fetch_content *)

Lemma dict_keys_set (A : Type) (k : str) (v : A) (d : dict A) :
  dict_keys (dict_set k v d) = add_key k (dict_keys d).
Proof.
  unfold dict_keys, add_key. induction d as [|[k' v'] d IH]; [reflexivity|].
  cbn [dict_set map fst existsb]. destruct (str_eqb k k') eqn:E.
  - apply str_eqb_eq in E. subst k'. reflexivity.
  - cbn [orb map fst]. rewrite IH.
    destruct (existsb (str_eqb k) (map fst d)); reflexivity.
Qed.

Lemma Forall_dict_set (A : Type) (P : A -> Prop) (k : str) (v : A) (d : dict A) :
  P v -> Forall (fun kv => P (snd kv)) d ->
  Forall (fun kv => P (snd kv)) (dict_set k v d).
Proof.
  intros Hv. induction 1 as [|[k' v'] d Hkv Hd IH]; simpl.
  - constructor; [exact Hv | constructor].
  - destruct (str_eqb k k'); constructor; assumption.
Qed.

Lemma add_key_In (k u : str) (ks : list str) :
  In u (add_key k ks) <-> u = k \/ In u ks.
Proof.
  unfold add_key. destruct (existsb (str_eqb k) ks) eqn:E.
  - split; [intros H; right; exact H|]. intros [-> | H]; [|exact H].
    apply existsb_exists in E. destruct E as [x [Hx Hk]].
    apply str_eqb_eq in Hk. subst x. exact Hx.
  - rewrite in_app_iff. simpl. split.
    + intros [H | [H | []]]; [right; exact H | left; symmetry; exact H].
    + intros [-> | H]; [right; left; reflexivity | left; exact H].
Qed.

Lemma add_key_NoDup (k : str) (ks : list str) :
  NoDup ks -> NoDup (add_key k ks).
Proof.
  intros Hnd. unfold add_key. destruct (existsb (str_eqb k) ks) eqn:E; [exact Hnd|].
  assert (Hnot : ~ In k ks).
  { intros Hin. assert (existsb (str_eqb k) ks = true); [|congruence].
    apply existsb_exists. exists k. split; [exact Hin | apply str_eqb_refl]. }
  clear E. induction Hnd as [|x l Hx Hnd IH]; simpl.
  - constructor; [intros [] | constructor].
  - constructor.
    + rewrite in_app_iff. simpl. intros [H | [H | []]]; [exact (Hx H)|].
      apply Hnot. left. symmetry. exact H.
    + apply IH. intros H. apply Hnot. right. exact H.
Qed.

Lemma add_keys_spec (us : list str) :
  forall ks,
    NoDup ks ->
    NoDup (fold_left (fun acc u => add_key u acc) us ks)
    /\ forall u, In u (fold_left (fun acc u => add_key u acc) us ks)
                 <-> In u ks \/ In u us.
Proof.
  induction us as [|x us IH]; intros ks Hnd; simpl.
  - split; [exact Hnd|]. intros u. tauto.
  - destruct (IH (add_key x ks) (add_key_NoDup x Hnd)) as [H1 H2].
    split; [exact H1|]. intros u. rewrite H2, add_key_In.
    split; [intros [[-> | H] | H] | intros [H | [-> | H]]]; auto.
Qed.

Section FetchMore.

Variable uni_alnum : char -> bool.
Variable urljoin : str -> str -> result str.
Variable fault_msg : fault -> str.

Lemma scrape_url_record (e : env) (hist : list call) (url : str) :
  dict_get (lit "error") (fst (run e hist (scrape_url uni_alnum urljoin url))) = None ->
  is_page_record (JObj (fst (run e hist (scrape_url uni_alnum urljoin url)))).
Proof.
  cbn [scrape_url run fst]. destruct (on_get e hist url) as [msg | d].
  - rewrite error_record_get. discriminate.
  - unfold scrape_soup. destruct (extract_main_content d) as [content d'].
    destruct (join_all urljoin url (hrefs d')) as [links | msg].
    + intros _. exists (title_of d), (clean_text uni_alnum content), (firstn 5 links).
      split; [reflexivity | apply firstn_le_length].
    + rewrite error_record_get. discriminate.
Qed.

(** The map of a loop that goes through: its keys and its values. *)
Lemma fetch_loop_map (e : env) (urls : list str) :
  forall (hist hist' : list call) (content content' : dict json),
    run e hist (fetch_loop uni_alnum urljoin fault_msg (map JStr urls) content)
    = (Ok (Response 200 (JObj [(lit "content", JObj content')])), hist') ->
    dict_keys content'
    = fold_left (fun acc u => add_key u acc)
        (filter (fun u => nonempty (strip u)) urls) (dict_keys content)
    /\ (Forall (fun kv => is_page_record (snd kv)) content ->
        Forall (fun kv => is_page_record (snd kv)) content').
Proof.
  induction urls as [|u urls IH]; intros hist hist' content content' H.
  - simpl in H. inversion H; subst. split; [reflexivity | trivial].
  - cbn [map filter] in *. destruct (nonempty (strip u)) eqn:Hu.
    + rewrite fetch_loop_step in H by exact Hu. cbv zeta in H.
      destruct (dict_get (lit "error")
                  (fst (run e hist (scrape_url uni_alnum urljoin u)))) eqn:Eerr;
        [discriminate H|].
      destruct (IH _ _ _ _ H) as [Hk Hv]. split.
      * rewrite Hk, dict_keys_set. reflexivity.
      * intros Hc. apply Hv. apply Forall_dict_set; [|exact Hc].
        apply scrape_url_record, Eerr.
    + rewrite fetch_loop_skip in H by exact Hu. apply (IH _ _ _ _ H).
Qed.

(** X7: when fetch_content answers 200 on a list of strings, every URL of
    the list that is not blank has been fetched, in the order of the list, a
    URL that is listed twice twice; the map has one key for each such URL,
    no key twice and no other key; and every value is a page record with at
    most five links. *)
Theorem fetch_content_success_map (e : env) (urls : list str)
  (content : dict json) (hist : list call) :
  run e [] (fetch_content uni_alnum urljoin fault_msg
              (JObj [(lit "urls", JArr (map JStr urls))]))
  = (Response 200 (JObj [(lit "content", JObj content)]), hist) ->
  hist = map CallGet (filter (fun u => nonempty (strip u)) urls)
  /\ NoDup (dict_keys content)
  /\ (forall u, In u (dict_keys content) <->
                In u urls /\ nonempty (strip u) = true)
  /\ Forall (fun kv => is_page_record (snd kv)) content.
Proof.
  intros H.
  assert (Hne : urls <> []).
  { intros ->. cbn in H. inversion H. }
  rewrite (@fetch_content_nonempty uni_alnum urljoin fault_msg e urls Hne) in H.
  destruct (run e [] (fetch_loop uni_alnum urljoin fault_msg (map JStr urls) []))
    as [r h] eqn:Erun.
  cbn [fst snd] in H. destruct r as [resp | m]; [|inversion H].
  inversion H; subst resp h. clear H.
  destruct (@fetch_loop_app uni_alnum urljoin fault_msg e urls [] [] hist [] content Erun)
    as [_ Hh].
  destruct (@fetch_loop_map e urls _ _ _ _ Erun) as [Hk Hv].
  destruct (add_keys_spec (filter (fun u => nonempty (strip u)) urls)
              (NoDup_nil str)) as [Hnd Hin].
  cbn [dict_keys map] in Hk. rewrite <- Hk in Hnd, Hin.
  split; [exact Hh|]. split; [exact Hnd|]. split.
  - intros u. rewrite Hin, filter_In. simpl. tauto.
  - apply Hv. constructor.
Qed.

(** What the loop can end in, on any list of JSON values, and the calls it
    makes. *)
Lemma fetch_loop_shape (e : env) (urls : list json) :
  forall (hist : list call) (content : dict json),
    ((exists c, fst (run e hist (fetch_loop uni_alnum urljoin fault_msg urls content))
                = Ok (Response 200 (JObj [(lit "content", JObj c)])))
     \/ (exists m, fst (run e hist (fetch_loop uni_alnum urljoin fault_msg urls content))
                   = Ok (Response 400 (error_body m)))
     \/ (exists m, fst (run e hist (fetch_loop uni_alnum urljoin fault_msg urls content))
                   = Raised m))
    /\ exists us,
         snd (run e hist (fetch_loop uni_alnum urljoin fault_msg urls content))
         = hist ++ map CallGet us.
Proof.
  induction urls as [|v urls IH]; intros hist content.
  - split; [left; exists content; reflexivity|].
    exists []. simpl. rewrite app_nil_r. reflexivity.
  - destruct v as [| b | n | u | l | d];
      try (split; [right; right; eexists; reflexivity|];
           exists []; simpl; rewrite app_nil_r; reflexivity).
    destruct (nonempty (strip u)) eqn:Hu.
    + rewrite fetch_loop_step by exact Hu. cbv zeta.
      destruct (scrape_url_run uni_alnum urljoin e hist u) as [_ [[msg Hr] | Hr]];
        rewrite Hr.
      * rewrite error_record_get. split.
        -- right. left. eexists. reflexivity.
        -- exists [u]. reflexivity.
      * destruct (IH (hist ++ [CallGet u])
                    (dict_set u (JObj (fst (run e hist (scrape_url uni_alnum urljoin u))))
                       content)) as [Hshape [us Hus]].
        split; [exact Hshape|].
        exists (u :: us). rewrite Hus, <- app_assoc. reflexivity.
    + rewrite fetch_loop_skip by exact Hu. apply IH.
Qed.

(** X8: whatever JSON the request holds, fetch_content answers in one of
    three shapes: status 200 with a body that holds the content map alone,
    or status 400 or 500 with a body that holds an error message alone; and
    all it ever calls is the page fetch, never the model. *)
Theorem fetch_content_response_shape (e : env) (request_json : json) :
  let r := run e [] (fetch_content uni_alnum urljoin fault_msg request_json) in
  ((status (fst r) = 200
    /\ exists content, body (fst r) = JObj [(lit "content", JObj content)])
   \/ ((status (fst r) = 400 \/ status (fst r) = 500)
       /\ exists msg, body (fst r) = error_body msg))
  /\ exists us, snd r = map CallGet us.
Proof.
  cbv zeta. unfold fetch_content. rewrite run_handler. cbn [fst snd].
  assert (Hfail : forall m : str,
             ((status (Response 500 (error_body m)) = 200
               /\ exists content, body (Response 500 (error_body m))
                                  = JObj [(lit "content", JObj content)])
              \/ ((status (Response 500 (error_body m)) = 400
                   \/ status (Response 500 (error_body m)) = 500)
                  /\ exists msg, body (Response 500 (error_body m)) = error_body msg))).
  { intros m. right. split; [right; reflexivity | exists m; reflexivity]. }
  destruct request_json as [| b | n | s | l | data];
    try (cbn [run fst snd]; split; [apply Hfail | exists []; reflexivity]).
  destruct (py_len (default (JArr []) (dict_get (lit "urls") data))) as [[|n]|].
  - cbn [run fst snd]. split; [|exists []; reflexivity].
    right. split; [left; reflexivity | eexists; reflexivity].
  - destruct (fetch_loop_shape e
                (py_iter (default (JArr []) (dict_get (lit "urls") data))) [] [])
      as [[[c Hc] | [[m Hm] | [m Hm]]] [us Hus]].
    + rewrite Hc, Hus. split; [|exists us; reflexivity].
      left. split; [reflexivity | exists c; reflexivity].
    + rewrite Hm, Hus. split; [|exists us; reflexivity].
      right. split; [left; reflexivity | exists m; reflexivity].
    + rewrite Hm, Hus. split; [apply Hfail | exists us; reflexivity].
  - cbn [run fst snd]. split; [apply Hfail | exists []; reflexivity].
Qed.

(** X9: the urls field decides before any fetch.  A request without the
    field is answered like an empty list, with 400; a field that is null, a
    boolean or a number is answered with 500, since its length is taken
    before it is tested; and a field that is a string is gone through
    character by character, each character taken as a URL. *)
Theorem fetch_content_urls_field (e : env) (data : dict json) :
  (dict_get (lit "urls") data = None ->
   run e [] (fetch_content uni_alnum urljoin fault_msg (JObj data))
   = (Response 400 (error_body (lit "No URLs provided")), []))
  /\ (forall v,
         dict_get (lit "urls") data = Some v ->
         py_len v = None ->
         run e [] (fetch_content uni_alnum urljoin fault_msg (JObj data))
         = (Response 500 (error_body (fault_msg (NotSized v))), []))
  /\ (forall s,
         dict_get (lit "urls") data = Some (JStr s) ->
         run e [] (fetch_content uni_alnum urljoin fault_msg (JObj data))
         = run e [] (fetch_content uni_alnum urljoin fault_msg
                       (JObj [(lit "urls", JArr (map (fun c => JStr [c]) s))]))).
Proof.
  unfold fetch_content. split; [|split].
  - intros H. rewrite H. reflexivity.
  - intros v H Hlen. rewrite H. cbn [default]. rewrite Hlen. reflexivity.
  - intros s H. rewrite H. cbn [default dict_get]. rewrite str_eqb_refl.
    cbn [default py_len py_iter]. rewrite length_map. reflexivity.
Qed.

(** X10: an element of the list that is not a string ends the batch with
    500, and only when its turn comes: the URLs before it have been fetched
    by then, and their pages are dropped with the map. *)
Theorem fetch_content_bad_element (e : env) (pre : list str) (v : json)
  (rest : list json) (content : dict json) (hist : list call) :
  run e [] (fetch_loop uni_alnum urljoin fault_msg (map JStr pre) [])
  = (Ok (Response 200 (JObj [(lit "content", JObj content)])), hist) ->
  not_a_string v = true ->
  run e [] (fetch_content uni_alnum urljoin fault_msg
              (JObj [(lit "urls", JArr (map JStr pre ++ v :: rest))]))
  = (Response 500 (error_body (fault_msg (NoAttribute v (lit "strip")))),
     map CallGet (filter (fun u => nonempty (strip u)) pre)).
Proof.
  intros Hpre Hv. unfold fetch_content. rewrite run_handler.
  cbn [dict_get]. rewrite str_eqb_refl. cbn [default py_len py_iter].
  rewrite length_app. cbn [length]. rewrite Nat.add_succ_r.
  destruct (@fetch_loop_app uni_alnum urljoin fault_msg e pre (v :: rest)
              [] hist [] content Hpre) as [E1 E2].
  rewrite E1, E2. destruct v; try discriminate Hv; reflexivity.
Qed.

End FetchMore.

Lemma fetch_content_success_map_witness :
  map CallGet [page_url; page_url]
  = map CallGet (filter (fun u => nonempty (strip u)) [page_url; lit " "; page_url])
  /\ NoDup (dict_keys [(page_url,
                        JObj (page_record (Some []) (lit "Read about")
                                [lit "https://a.com/about"]))])
  /\ (forall u,
         In u (dict_keys [(page_url,
                           JObj (page_record (Some []) (lit "Read about")
                                   [lit "https://a.com/about"]))]) <->
         In u [page_url; lit " "; page_url] /\ nonempty (strip u) = true)
  /\ Forall (fun kv => is_page_record (snd kv))
       [(page_url,
         JObj (page_record (Some []) (lit "Read about")
                 [lit "https://a.com/about"]))].
Proof.
  apply (@fetch_content_success_map ascii_only example_urljoin example_fault
           example_env [page_url; lit " "; page_url]).
  vm_compute. reflexivity.
Defined.

Lemma fetch_content_bad_element_witness :
  run example_env []
    (fetch_content ascii_only example_urljoin example_fault
       (JObj [(lit "urls", JArr (map JStr [page_url] ++ JNull :: [JStr bad_url]))]))
  = (Response 500 (error_body (example_fault (NoAttribute JNull (lit "strip")))),
     map CallGet (filter (fun u => nonempty (strip u)) [page_url])).
Proof.
  eapply (@fetch_content_bad_element ascii_only example_urljoin example_fault
            example_env [page_url] JNull [JStr bad_url]).
  - vm_compute. reflexivity.
  - reflexivity.
Defined.

(** ** More on ask_question *)

Lemma dict_get_set_same (A : Type) (k : str) (v : A) (d : dict A) :
  dict_get k (dict_set k v d) = Some v.
Proof.
  induction d as [|[k' v'] d IH]; simpl.
  - rewrite str_eqb_refl. reflexivity.
  - destruct (str_eqb k k') eqn:E; simpl.
    + rewrite str_eqb_refl. reflexivity.
    + rewrite E. exact IH.
Qed.

Lemma dict_get_set_other (A : Type) (k q : str) (v : A) (d : dict A) :
  str_eqb q k = false -> dict_get q (dict_set k v d) = dict_get q d.
Proof.
  intros Hq. induction d as [|[k' v'] d IH]; simpl.
  - rewrite Hq. reflexivity.
  - destruct (str_eqb k k') eqn:E; simpl.
    + apply str_eqb_eq in E. subst k'. rewrite Hq. reflexivity.
    + rewrite IH. reflexivity.
Qed.

Lemma format_answer_blank (uni_decimal : char -> bool) (text : str) :
  strip text = [] -> format_answer uni_decimal text = [].
Proof. intros H. unfold format_answer. rewrite H. reflexivity. Qed.

Section AskMore.

Variable uni_decimal : char -> bool.
Variable py_repr : json -> str.
Variable fault_msg : fault -> str.

(** X11: once the request is in order and the blocks are built, the answer
    of the handler follows the model: an exception of the call gives 500
    with its message, a response without text gives 500 with the message No
    response generated, and any text gives 200 with the text rewritten. *)
Theorem ask_question_outcome (e : env) (data content : dict json)
  (question : str) (parts : list str) :
  default (JObj []) (dict_get (lit "content") data) = JObj content ->
  default (JStr []) (dict_get (lit "question") data) = JStr question ->
  content <> [] ->
  strip question <> [] ->
  context_parts py_repr fault_msg content = Ok parts ->
  fst (run e [] (ask_question uni_decimal py_repr fault_msg (JObj data)))
  = match on_generate e []
            (prompt_of (strip question) (join context_sep parts)) with
    | GenRaised msg => Response 500 (error_body msg)
    | GenText [] => Response 500 (error_body (lit "No response generated"))
    | GenText (c :: text) =>
        Response 200
          (JObj [(lit "answer", JStr (format_answer uni_decimal (c :: text)))])
    end.
Proof.
  intros Hc Hq Hne Hqne Hparts.
  unfold ask_question. rewrite run_handler. cbn [fst].
  rewrite Hc, Hq. cbn [py_len].
  destruct content as [|kv content']; [congruence|]. cbn [length].
  destruct (strip question) as [|c q'] eqn:Es; [congruence|].
  cbn [nonempty negb]. rewrite Hparts. cbn [run fst].
  destruct (on_generate e [] (prompt_of (c :: q') (join context_sep parts)))
    as [msg | [|c' text]]; reflexivity.
Qed.

(** X12: the text of the model is tested before it is stripped: a reply
    made of whitespace only is answered with 200 and an empty answer, not
    with the 500 of a reply without text. *)
Theorem ask_question_blank_reply (e : env) (data content : dict json)
  (question : str) (parts : list str) (c : char) (text : str) :
  default (JObj []) (dict_get (lit "content") data) = JObj content ->
  default (JStr []) (dict_get (lit "question") data) = JStr question ->
  content <> [] ->
  strip question <> [] ->
  context_parts py_repr fault_msg content = Ok parts ->
  on_generate e [] (prompt_of (strip question) (join context_sep parts))
  = GenText (c :: text) ->
  strip (c :: text) = [] ->
  fst (run e [] (ask_question uni_decimal py_repr fault_msg (JObj data)))
  = Response 200 (JObj [(lit "answer", JStr [])]).
Proof.
  intros Hc Hq Hne Hqne Hparts Hgen Hblank.
  unfold ask_question. rewrite run_handler. cbn [fst].
  rewrite Hc, Hq. cbn [py_len].
  destruct content as [|kv content']; [congruence|]. cbn [length].
  destruct (strip question) as [|c0 q'] eqn:Es; [congruence|].
  cbn [nonempty negb]. rewrite Hparts. cbn [run fst]. rewrite Hgen.
  cbn [nonempty]. rewrite (format_answer_blank uni_decimal _ Hblank).
  reflexivity.
Qed.

Lemma context_parts_truncate (items : dict json) :
  context_parts py_repr fault_msg (truncate_map items)
  = context_parts py_repr fault_msg items.
Proof.
  induction items as [|[url v] rest IH]; [reflexivity|].
  cbn [truncate_map map fst snd context_parts].
  fold (truncate_map rest). rewrite IH.
  destruct v as [| b | n | s | l | d]; try reflexivity.
  cbn [truncate_record].
  destruct (dict_get (lit "content") d) as [c|] eqn:Ec;
    [|rewrite Ec; reflexivity].
  destruct c as [| b | n | s | l | d']; try (rewrite Ec; reflexivity).
  rewrite dict_get_set_same, dict_get_set_other by reflexivity.
  destruct (dict_get (lit "title") d) as [t|]; [|reflexivity].
  cbn [content_field]. rewrite firstn_firstn, Nat.min_id. reflexivity.
Qed.

(** X13: nothing of a content beyond its first 1500 characters has a part
    in what the handler does: cutting every string content of the map to
    1500 characters beforehand gives the same calls and the same answer,
    for every map, question and environment. *)
Theorem ask_question_sees_1500 (e : env) (items : dict json) (question : str) :
  run e [] (ask_question uni_decimal py_repr fault_msg
              (question_request (JObj (truncate_map items)) question))
  = run e [] (ask_question uni_decimal py_repr fault_msg
                (question_request (JObj items) question)).
Proof.
  unfold ask_question, question_request. rewrite !run_handler.
  cbn [dict_get]. rewrite !str_eqb_refl.
  replace (str_eqb (lit "question") (lit "content")) with false by reflexivity.
  cbn [default py_len].
  assert (Hl : length (truncate_map items) = length items)
    by (unfold truncate_map; apply length_map).
  rewrite !Hl. destruct (length items); [reflexivity|].
  destruct (negb (nonempty (strip question))); [reflexivity|].
  rewrite context_parts_truncate. reflexivity.
Qed.



(** X15: whatever JSON the request holds, ask_question calls the model at
    most once and fetches nothing; it answers 200 with a body that holds the
    answer alone, and then the model has been called, or 400 or 500 with a
    body that holds an error message alone. *)
Theorem ask_question_response_shape (e : env) (request_json : json) :
  let r := run e [] (ask_question uni_decimal py_repr fault_msg request_json) in
  (snd r = [] \/ exists prompt, snd r = [CallGenerate prompt])
  /\ ((status (fst r) = 200
       /\ (exists answer, body (fst r) = JObj [(lit "answer", JStr answer)])
       /\ snd r <> [])
      \/ ((status (fst r) = 400 \/ status (fst r) = 500)
          /\ exists msg, body (fst r) = error_body msg)).
Proof.
  cbv zeta. unfold ask_question. rewrite run_handler. cbn [fst snd].
  assert (Hstop : forall (st : nat) (m : str),
             st = 400 \/ st = 500 ->
             (@nil call = [] \/ exists prompt, @nil call = [CallGenerate prompt])
             /\ ((status (Response st (error_body m)) = 200
                  /\ (exists answer, body (Response st (error_body m))
                                     = JObj [(lit "answer", JStr answer)])
                  /\ @nil call <> [])
                 \/ ((status (Response st (error_body m)) = 400
                      \/ status (Response st (error_body m)) = 500)
                     /\ exists msg, body (Response st (error_body m)) = error_body msg))).
  { intros st m Hst. split; [left; reflexivity|]. right.
    split; [exact Hst | exists m; reflexivity]. }
  destruct request_json as [| b | n | s | l | data];
    try (cbn [run fst snd]; apply Hstop; right; reflexivity).
  destruct (default (JStr []) (dict_get (lit "question") data))
    as [| b | n | q | l | d];
    try (cbn [run fst snd]; apply Hstop; right; reflexivity).
  destruct (py_len (default (JObj []) (dict_get (lit "content") data)))
    as [[|n]|];
    try (cbn [run fst snd]; apply Hstop; auto).
  destruct (negb (nonempty (strip q)));
    [cbn [run fst snd]; apply Hstop; auto|].
  destruct (default (JObj []) (dict_get (lit "content") data))
    as [| b | n0 | s | l | items];
    try (cbn [run fst snd]; apply Hstop; auto).
  destruct (context_parts py_repr fault_msg items) as [parts | m];
    [|cbn [run fst snd]; apply Hstop; auto].
  cbn [run fst snd app].
  split; [right; eexists; reflexivity|].
  destruct (on_generate e [] (prompt_of (strip q) (join context_sep parts)))
    as [m | [|c text]]; cbn [nonempty].
  - right. split; [right; reflexivity | exists m; reflexivity].
  - right. split; [right; reflexivity | eexists; reflexivity].
  - left. split; [reflexivity|]. split; [eexists; reflexivity | discriminate].
Qed.

End AskMore.

Lemma ask_question_outcome_witness :
  fst (run example_env []
         (ask_question ascii_only example_repr example_fault
            (example_question example_content (lit " Who? "))))
  = match on_generate example_env []
            (prompt_of (strip (lit " Who? "))
               (join context_sep (spec_blocks example_repr example_content))) with
    | GenRaised msg => Response 500 (error_body msg)
    | GenText [] => Response 500 (error_body (lit "No response generated"))
    | GenText (c :: text) =>
        Response 200
          (JObj [(lit "answer", JStr (format_answer ascii_only (c :: text)))])
    end.
Proof.
  apply (@ask_question_outcome ascii_only example_repr example_fault
           example_env _ example_content (lit " Who? ")
           (spec_blocks example_repr example_content)).
  - reflexivity.
  - reflexivity.
  - discriminate.
  - vm_compute. discriminate.
  - vm_compute. reflexivity.
Defined.

Lemma ask_question_blank_reply_witness :
  fst (run blank_reply_env []
         (ask_question ascii_only example_repr example_fault
            (example_question example_content (lit "Who?"))))
  = Response 200 (JObj [(lit "answer", JStr [])]).
Proof.
  apply (@ask_question_blank_reply ascii_only example_repr example_fault
           blank_reply_env _ example_content (lit "Who?")
           (spec_blocks example_repr example_content) NL [SP; SP]).
  - reflexivity.
  - reflexivity.
  - discriminate.
  - vm_compute. discriminate.
  - vm_compute. reflexivity.
  - reflexivity.
  - vm_compute. reflexivity.
Defined.


(** ** The rewrites of the answer on plain text *)

Lemma no_line_starts_weaken (bad bad' : char -> bool) (s : str) :
  (forall c, bad' c = true -> bad c = true) ->
  forall ls, no_line_starts bad ls s = true -> no_line_starts bad' ls s = true.
Proof.
  intros Hsub. induction s as [|c r IH]; intros ls H; [reflexivity|].
  cbn [no_line_starts] in *. apply andb_prop in H. destruct H as [H1 H2].
  rewrite (IH _ H2), andb_true_r.
  destruct ls; [|reflexivity]. cbn [andb] in *.
  destruct (bad' c) eqn:E; [|reflexivity].
  rewrite (Hsub c E) in H1. discriminate H1.
Qed.

Lemma no_line_starts_false (bad : char -> bool) (s : str) :
  no_line_starts bad true s = true -> no_line_starts bad false s = true.
Proof.
  destruct s as [|c r]; [reflexivity|]. cbn [no_line_starts andb negb].
  intros H. apply andb_prop in H. apply H.
Qed.

Lemma line_start_after_cons (ls : bool) (c : char) (s : str) :
  line_start_after ls (c :: s) = line_start_after (N.eqb c NL) s.
Proof.
  unfold line_start_after. simpl rev.
  destruct (rev s) as [|d t] eqn:E; reflexivity.
Qed.

Lemma no_line_starts_app (bad : char -> bool) (a b : str) :
  forall ls,
    no_line_starts bad ls (a ++ b)
    = (no_line_starts bad ls a
       && no_line_starts bad (line_start_after ls a) b)%bool.
Proof.
  induction a as [|c a IH]; intros ls.
  - reflexivity.
  - cbn [app no_line_starts]. rewrite IH, line_start_after_cons.
    rewrite andb_assoc. reflexivity.
Qed.

Lemma line_start_of_rev (b s : str) :
  line_start_of (rev s ++ b) = line_start_after (line_start_of b) s.
Proof.
  unfold line_start_after. destruct (rev s) as [|c t]; reflexivity.
Qed.

Lemma sub_go_prefix (r : Re.regex) (repl : list str -> str) (bad : char -> bool)
  (tail : str) :
  headed r bad ->
  forall (p before : str),
    no_line_starts bad (line_start_of before) p = true ->
    Re.sub_go r repl 0 before (p ++ tail)
    = p ++ Re.sub_go r repl 0 (rev p ++ before) tail.
Proof.
  intros Hr. induction p as [|c p IH]; intros before Hp; [reflexivity|].
  cbn [no_line_starts] in Hp. apply andb_prop in Hp. destruct Hp as [H1 H2].
  cbn [app Re.sub_go]. rewrite Hr.
  - rewrite (IH (c :: before)) by exact H2.
    cbn [rev]. rewrite <- app_assoc. reflexivity.
  - destruct (line_start_of before); [right | left; reflexivity].
    cbn [andb] in H1. apply negb_true_iff in H1. exact H1.
Qed.

Lemma sub_go_id (r : Re.regex) (repl : list str -> str) (bad : char -> bool)
  (s before : str) :
  headed r bad ->
  no_line_starts bad (line_start_of before) s = true ->
  Re.sub_go r repl 0 before s = s.
Proof.
  intros Hr Hs. rewrite <- (app_nil_r s) at 1.
  rewrite (sub_go_prefix repl [] Hr s before Hs).
  cbn [Re.sub_go]. rewrite Hr by (right; exact I). apply app_nil_r.
Qed.

Lemma many_fails (X : Type) (p : char -> bool) (n : nat) (before after : str)
  (k : str -> str -> option X) :
  match after with [] => True | c :: _ => p c = false end ->
  Re.many p (S n) before after k = None.
Proof.
  destruct after as [|c rest]; [reflexivity|]. intros H. simpl. rewrite H.
  reflexivity.
Qed.

Lemma headed_numbered (uni_decimal : char -> bool) :
  headed (re_numbered uni_decimal) (is_digit uni_decimal).
Proof.
  intros before after H. unfold Re.match_at, re_numbered. cbn [Re.exec].
  destruct H as [H | H].
  - destruct before as [|c b]; [discriminate H|]. cbn [line_start_of] in H.
    rewrite H. reflexivity.
  - rewrite many_fails by exact H.
    destruct before as [|c b]; [reflexivity|]. destruct (N.eqb c NL); reflexivity.
Qed.

Lemma headed_dash : headed re_dash (is_char 45%N).
Proof.
  intros before after H. unfold Re.match_at, re_dash. cbn [Re.exec].
  destruct H as [H | H].
  - destruct before as [|c b]; [discriminate H|]. cbn [line_start_of] in H.
    rewrite H. reflexivity.
  - assert (E : match after with
                | [] => None
                | c :: rest =>
                    if is_char 45%N c
                    then Re.many is_space 1 (c :: before) rest
                           (fun _ a => Some (@nil str, length after - length a))
                    else None
                end = None).
    { destruct after as [|c rest]; [reflexivity|]. rewrite H. reflexivity. }
    destruct before as [|c b]; [exact E|]. destruct (N.eqb c NL); [exact E|reflexivity].
Qed.

Lemma sub_quoted_id (s : str) :
  forallb (not_char QUOTE) s = true ->
  forall before, Re.sub_go re_quoted repl_bold 0 before s = s.
Proof.
  induction s as [|c r IH]; intros H before; [reflexivity|].
  cbn [forallb] in H. apply andb_prop in H. destruct H as [Hc Hr].
  cbn [Re.sub_go]. unfold Re.match_at, re_quoted at 1. cbn [Re.exec].
  unfold not_char in Hc. apply negb_true_iff in Hc. unfold is_char. rewrite Hc.
  rewrite (IH Hr). reflexivity.
Qed.

Lemma replace_blank_id (new s : str) :
  forall ls,
    no_line_starts (is_char NL) ls s = true ->
    replace_go [NL; NL] new 0 s = s.
Proof.
  induction s as [|c r IH]; intros ls H; [reflexivity|].
  cbn [no_line_starts] in H. apply andb_prop in H. destruct H as [_ H2].
  cbn [replace_go is_prefix].
  destruct (N.eqb NL c) eqn:Ec.
  - apply N.eqb_eq in Ec. subst c. rewrite N.eqb_refl in H2.
    destruct r as [|d r'].
    + reflexivity.
    + pose proof H2 as H2'.
      cbn [no_line_starts andb] in H2. apply andb_prop in H2.
      destruct H2 as [Hd _]. apply negb_true_iff in Hd. unfold is_char in Hd.
      cbn [andb]. rewrite Hd. cbn [andb].
      rewrite (IH true H2'). reflexivity.
  - cbn [andb]. rewrite (IH _ H2). reflexivity.
Qed.

Lemma strip_solid (s : str) :
  starts_solid s = true -> ends_solid s = true -> strip s = s.
Proof.
  intros Hs He. unfold strip, rstrip.
  assert (Hl : forall t, starts_solid t = true -> lstrip t = t).
  { intros [|c r] H; [discriminate H|]. cbn [starts_solid] in H.
    apply negb_true_iff in H. cbn [lstrip]. rewrite H. reflexivity. }
  rewrite (Hl s Hs), (Hl (rev s) He). apply rev_involutive.
Qed.

Lemma starts_solid_app (a b : str) :
  starts_solid a = true -> starts_solid (a ++ b) = true.
Proof. destruct a as [|c a]; [discriminate | trivial]. Qed.

Lemma ends_solid_app (a b : str) :
  ends_solid b = true -> ends_solid (a ++ b) = true.
Proof.
  unfold ends_solid. rewrite rev_app_distr. apply starts_solid_app.
Qed.

Lemma ends_solid_line (ls : bool) (s : str) :
  ends_solid s = true -> line_start_after ls s = false.
Proof.
  unfold ends_solid, line_start_after. destruct (rev s) as [|c t]; [discriminate|].
  cbn [starts_solid]. intros H. apply negb_true_iff in H.
  destruct (N.eqb c NL) eqn:E; [|reflexivity].
  apply N.eqb_eq in E. subst c. discriminate H.
Qed.

Lemma plain_parts (uni_decimal : char -> bool) (ls : bool) (s : str) :
  plain uni_decimal ls s = true ->
  no_line_starts (is_digit uni_decimal) ls s = true
  /\ no_line_starts (is_char 45%N) ls s = true
  /\ no_line_starts (is_char NL) false s = true
  /\ forallb (not_char QUOTE) s = true.
Proof.
  unfold plain. intros H. apply andb_prop in H. destruct H as [H Hq].
  apply andb_prop in H. destruct H as [Hd Hn].
  repeat split; try assumption.
  - apply (@no_line_starts_weaken (digit_or_dash uni_decimal) _ s); [|exact Hd].
    intros c Hc. unfold digit_or_dash. rewrite Hc. reflexivity.
  - apply (@no_line_starts_weaken (digit_or_dash uni_decimal) _ s); [|exact Hd].
    intros c Hc. unfold digit_or_dash. rewrite Hc. apply orb_true_r.
Qed.

(** X16: an answer in which no line begins with a digit or a dash, no line
    is empty and no double quote occurs comes back as it is, stripped: the
    four rewrites change nothing in it. *)
Theorem format_answer_plain (uni_decimal : char -> bool) (text : str) :
  plain uni_decimal true (strip text) = true ->
  format_answer uni_decimal text = strip text.
Proof.
  intros H. destruct (plain_parts _ _ _ H) as [Hd [Hm [Hn Hq]]].
  unfold format_answer, Re.sub, str_replace.
  rewrite (sub_go_id repl_heading (strip text) [] (headed_numbered uni_decimal) Hd).
  rewrite (replace_blank_id _ _ _ Hn).
  rewrite (sub_quoted_id _ Hq).
  apply (sub_go_id _ (strip text) [] headed_dash Hm).
Qed.

Lemma format_answer_plain_witness :
  format_answer ascii_only
    (lit " The shop opens at 9." ++ [NL] ++ lit "Closed - on Sundays. ")
  = strip (lit " The shop opens at 9." ++ [NL] ++ lit "Closed - on Sundays. ").
Proof.
  apply (format_answer_plain ascii_only
           (lit " The shop opens at 9." ++ [NL] ++ lit "Closed - on Sundays. ")).
  vm_compute. reflexivity.
Defined.

Lemma replace_at_blank (new r : str) (p : str) :
  forall ls,
    no_line_starts (is_char NL) ls (p ++ [NL]) = true ->
    replace_go [NL; NL] new 0 (p ++ NL :: NL :: r)
    = p ++ new ++ replace_go [NL; NL] new 0 r.
Proof.
  induction p as [|c p IH]; intros ls H.
  - cbn [app replace_go is_prefix length pred]. rewrite N.eqb_refl. reflexivity.
  - cbn [app no_line_starts] in H. apply andb_prop in H. destruct H as [_ H2].
    cbn [app replace_go is_prefix].
    destruct (N.eqb NL c) eqn:Ec.
    + apply N.eqb_eq in Ec. subst c. rewrite N.eqb_refl in H2.
      destruct p as [|d p'].
      * cbn in H2. discriminate H2.
      * pose proof H2 as H2'. cbn [app no_line_starts andb] in H2.
        apply andb_prop in H2. destruct H2 as [Hd _].
        apply negb_true_iff in Hd. unfold is_char in Hd.
        cbn [app andb]. rewrite Hd. cbn [andb].
        change (d :: p' ++ NL :: NL :: r) with ((d :: p') ++ NL :: NL :: r).
        rewrite (IH true H2'). reflexivity.
    + cbn [andb]. rewrite (IH _ H2). reflexivity.
Qed.

Lemma match_at_dash (before q : str) :
  line_start_of before = true ->
  starts_solid q = true ->
  Re.match_at re_dash before (45%N :: SP :: q) = Some ([], 2).
Proof.
  intros Hb Hq. unfold Re.match_at, re_dash. cbn [Re.exec].
  assert (E : Re.many is_space 1 (45%N :: before) (SP :: q)
                (fun _ a => Some (@nil str, length (45%N :: SP :: q) - length a))
              = Some ([], 2)).
  { rewrite many_greedy. cbn [run_len].
    replace (is_space SP) with true by reflexivity.
    assert (Hr : run_len is_space q = 0).
    { destruct q as [|c q']; [discriminate Hq|]. cbn [starts_solid] in Hq.
      apply negb_true_iff in Hq. cbn [run_len]. rewrite Hq. reflexivity. }
    rewrite Hr. cbn [Nat.leb length]. do 2 f_equal. unfold char. lia. }
  destruct before as [|c b]; [exact E|]. cbn [line_start_of] in Hb.
  rewrite Hb. exact E.
Qed.

(** X17: the order of the rewrites decides what becomes of a dash line that
    follows a paragraph.  After one line break the dash and its space are
    replaced by the literal of the last rewrite; after an empty line they
    stay as they are, because the empty line has become two line-break
    markers by then and the dash no longer begins a line. *)
Theorem format_answer_dash_line (uni_decimal : char -> bool) (p q : str) :
  plain uni_decimal true p = true ->
  starts_solid p = true ->
  ends_solid p = true ->
  plain uni_decimal false q = true ->
  starts_solid q = true ->
  ends_solid q = true ->
  format_answer uni_decimal (p ++ [NL] ++ lit "- " ++ q)
  = p ++ [NL] ++ bullet_literal ++ q
  /\ format_answer uni_decimal (p ++ [NL; NL] ++ lit "- " ++ q)
     = p ++ lit "<br><br>- " ++ q.
Proof.
  intros Hp Hps Hpe Hq Hqs Hqe.
  destruct (plain_parts _ _ _ Hp) as [Hpd [Hpm [Hpn Hpq]]].
  destruct (plain_parts _ _ _ Hq) as [Hqd [Hqm [Hqn Hqq]]].
  pose proof (ends_solid_line true p Hpe) as Lt.
  pose proof (ends_solid_line false p Hpe) as Lf.
  change (lit "- ") with [45%N; SP].
  change (lit "<br><br>- ") with (lit "<br><br>" ++ [45%N; SP]).
  assert (Hdn : is_digit uni_decimal NL = false) by reflexivity.
  assert (Hdm : is_digit uni_decimal 45%N = false) by reflexivity.
  assert (Hds : is_digit uni_decimal SP = false) by reflexivity.
  split.
  - unfold format_answer, Re.sub, str_replace.
    rewrite strip_solid
      by (first [apply starts_solid_app, Hps
                | rewrite !app_assoc; apply ends_solid_app, Hqe]).
    rewrite (sub_go_id repl_heading _ [] (headed_numbered uni_decimal)).
    2:{ cbn [line_start_of]. rewrite no_line_starts_app, Hpd, Lt.
        cbn [app no_line_starts andb negb]. rewrite Hdm.
        cbn [andb negb]. exact Hqd. }
    rewrite (replace_blank_id _ _ false).
    2:{ rewrite no_line_starts_app, Hpn, Lf.
        cbn [app no_line_starts andb negb]. exact Hqn. }
    rewrite sub_quoted_id.
    2:{ rewrite forallb_app, Hpq. cbn [app forallb andb]. exact Hqq. }
    change (p ++ [NL] ++ [45%N; SP] ++ q) with (p ++ [NL] ++ 45%N :: SP :: q).
    rewrite app_assoc.
    rewrite (sub_go_prefix (fun _ => bullet_literal) (45%N :: SP :: q) headed_dash
               (p ++ [NL]) []).
    2:{ cbn [line_start_of]. rewrite no_line_starts_app, Hpm, Lt. reflexivity. }
    cbn [Re.sub_go]. rewrite match_at_dash.
    + cbn [Re.sub_go].
      rewrite (sub_go_id _ q _ headed_dash) by exact Hqm.
      rewrite <- !app_assoc. reflexivity.
    + rewrite app_nil_r, rev_app_distr. reflexivity.
    + exact Hqs.
  - unfold format_answer, Re.sub, str_replace.
    rewrite strip_solid
      by (first [apply starts_solid_app, Hps
                | rewrite !app_assoc; apply ends_solid_app, Hqe]).
    rewrite (sub_go_id repl_heading _ [] (headed_numbered uni_decimal)).
    2:{ cbn [line_start_of]. rewrite no_line_starts_app, Hpd, Lt.
        cbn [app no_line_starts andb negb]. rewrite Hdm.
        cbn [andb negb]. exact Hqd. }
    change (p ++ [NL; NL] ++ [45%N; SP] ++ q)
      with (p ++ NL :: NL :: (45%N :: SP :: q)).
    rewrite (replace_at_blank (lit "<br><br>") (45%N :: SP :: q) p false).
    2:{ rewrite no_line_starts_app, Hpn, Lf. reflexivity. }
    rewrite (replace_blank_id _ (45%N :: SP :: q) false) by exact Hqn.
    rewrite sub_quoted_id.
    2:{ rewrite !forallb_app, Hpq. cbn [app forallb andb]. exact Hqq. }
    rewrite (sub_go_id _ _ [] headed_dash).
    + rewrite <- !app_assoc. reflexivity.
    + cbn [line_start_of]. rewrite !no_line_starts_app, Hpm, Lt.
      cbn [app no_line_starts andb negb]. exact Hqm.
Qed.

Lemma format_answer_dash_line_witness :
  format_answer ascii_only (lit "Fruit:" ++ [NL] ++ lit "- " ++ lit "apples")
  = lit "Fruit:" ++ [NL] ++ bullet_literal ++ lit "apples"
  /\ format_answer ascii_only (lit "Fruit:" ++ [NL; NL] ++ lit "- " ++ lit "apples")
     = lit "Fruit:" ++ lit "<br><br>- " ++ lit "apples".
Proof.
  apply (format_answer_dash_line ascii_only (lit "Fruit:") (lit "apples"));
    reflexivity.
Defined.

(** ** The rewrites of the answer on a numbered line and on quotes *)

(** Greedy repetition stops at the end of the run of its class when the
    rest of the pattern matches there. *)
Lemma many_longest (X : Type) (p : char -> bool) (k : str -> str -> option X)
  (x : X) (rest : str) :
  match rest with [] => True | c :: _ => p c = false end ->
  forall (pre before : str) (need : nat),
    forallb p pre = true ->
    need <= length pre ->
    k (rev pre ++ before) rest = Some x ->
    Re.many p need before (pre ++ rest) k = Some x.
Proof.
  intros Hrest. induction pre as [|c pre IH]; intros before need Hrun Hneed Hk.
  - cbn [length] in Hneed. assert (need = 0) by lia. subst need.
    cbn [app rev] in *. destruct rest as [|d rest']; simpl.
    + exact Hk.
    + rewrite Hrest. exact Hk.
  - cbn [forallb] in Hrun. apply andb_prop in Hrun. destruct Hrun as [Hc Hrun].
    cbn [app Re.many]. rewrite Hc.
    rewrite (IH (c :: before) (pred need) Hrun).
    + reflexivity.
    + cbn [length] in Hneed. lia.
    + cbn [rev] in Hk. rewrite <- app_assoc in Hk. exact Hk.
Qed.

(** Greedy repetition fails when the rest of the pattern fails wherever the
    repetition may stop. *)
Lemma many_none (X : Type) (p q : char -> bool) (k : str -> str -> option X) :
  (forall b a, forallb q a = true -> k b a = None) ->
  forall (after before : str) (need : nat),
    forallb q after = true ->
    Re.many p need before after k = None.
Proof.
  intros Hk. induction after as [|c rest IH]; intros before need Hq.
  - simpl. destruct need; [apply Hk; reflexivity | reflexivity].
  - pose proof Hq as Hq'. cbn [forallb] in Hq. apply andb_prop in Hq.
    destruct Hq as [_ Hrest]. cbn [Re.many].
    rewrite (IH (c :: before) (pred need) Hrest).
    destruct (p c); destruct need; try reflexivity; apply Hk; exact Hq'.
Qed.

Lemma group_text (x b0 : str) :
  rev (firstn (length (rev x ++ b0) - length b0) (rev x ++ b0)) = x.
Proof.
  rewrite length_app, Nat.add_sub, firstn_app, Nat.sub_diag, firstn_all.
  cbn [firstn]. rewrite app_nil_r. apply rev_involutive.
Qed.

Lemma sub_go_skip (r : Re.regex) (repl : list str -> str) (l : str) :
  forall before,
    Re.sub_go r repl (length l) before l
    = Re.sub_go r repl 0 (rev l ++ before) [].
Proof.
  induction l as [|c l IH]; intros before; [reflexivity|].
  cbn [length Re.sub_go rev]. rewrite IH, <- app_assoc. reflexivity.
Qed.

Lemma no_line_break (bad : char -> bool) (s : str) :
  forallb (not_char NL) s = true -> no_line_starts bad false s = true.
Proof.
  induction s as [|c r IH]; [reflexivity|]. cbn [forallb no_line_starts andb negb].
  intros H. apply andb_prop in H. destruct H as [Hc Hr].
  unfold not_char in Hc. apply negb_true_iff in Hc.
  rewrite N.eqb_sym, Hc. apply IH, Hr.
Qed.

Lemma ascii_digit_facts (uni_decimal : char -> bool) (ds : str) :
  forallb (in_range 48%N 57%N) ds = true ->
  forallb (is_digit uni_decimal) ds = true
  /\ forallb (not_char NL) ds = true
  /\ forallb (not_char QUOTE) ds = true
  /\ (ds <> [] -> starts_solid ds = true).
Proof.
  intros H.
  assert (Hc : forall c, in_range 48%N 57%N c = true ->
                         is_digit uni_decimal c = true
                         /\ not_char NL c = true /\ not_char QUOTE c = true
                         /\ is_space c = false).
  { intros c Hr. unfold in_range in Hr. apply andb_prop in Hr.
    destruct Hr as [H1 H2]. apply N.leb_le in H1. apply N.leb_le in H2.
    assert (Hlt : N.ltb c 128 = true) by (apply N.ltb_lt; lia).
    split; [|split; [|split]].
    - unfold is_digit. rewrite Hlt. unfold in_range.
      apply andb_true_intro. split; apply N.leb_le; assumption.
    - unfold not_char, NL. apply negb_true_iff, N.eqb_neq. lia.
    - unfold not_char, QUOTE. apply negb_true_iff, N.eqb_neq. lia.
    - unfold is_space, in_range.
      repeat match goal with
             | |- (_ || _)%bool = false => apply orb_false_intro
             end;
        first [ apply N.eqb_neq; lia
              | apply andb_false_iff; left; apply N.leb_gt; lia
              | apply andb_false_iff; right; apply N.leb_gt; lia ]. }
  repeat split.
  - induction ds as [|c r IH]; [reflexivity|]. cbn [forallb] in *.
    apply andb_prop in H. destruct H as [H1 H2].
    rewrite (proj1 (Hc c H1)). apply IH, H2.
  - induction ds as [|c r IH]; [reflexivity|]. cbn [forallb] in *.
    apply andb_prop in H. destruct H as [H1 H2].
    rewrite (proj1 (proj2 (Hc c H1))). apply IH, H2.
  - induction ds as [|c r IH]; [reflexivity|]. cbn [forallb] in *.
    apply andb_prop in H. destruct H as [H1 H2].
    rewrite (proj1 (proj2 (proj2 (Hc c H1)))). apply IH, H2.
  - intros Hne. destruct ds as [|c r]; [congruence|]. cbn [forallb] in H.
    apply andb_prop in H. destruct H as [H1 _]. cbn [starts_solid].
    rewrite (proj2 (proj2 (proj2 (Hc c H1)))). reflexivity.
Qed.

(** The numbered pattern on a line made of digits, a dot, whitespace and a
    text: it takes the whole line, with the digits and the text as groups. *)
Lemma match_at_numbered (uni_decimal : char -> bool) (ds ws t : str) :
  ds <> [] -> forallb (is_digit uni_decimal) ds = true ->
  is_digit uni_decimal 46%N = false ->
  ws <> [] -> forallb is_space ws = true ->
  starts_solid t = true -> forallb (not_char NL) t = true ->
  Re.match_at (re_numbered uni_decimal) [] (ds ++ 46%N :: ws ++ t)
  = Some ([ds; t], length (ds ++ 46%N :: ws ++ t)).
Proof.
  intros Hds Hdig Hdot Hws Hsp Ht Hnl.
  unfold Re.match_at, re_numbered. cbn [Re.exec].
  apply many_longest.
  - exact Hdot.
  - exact Hdig.
  - destruct ds; [congruence | cbn [length]; lia].
  - cbn [Re.exec]. unfold is_char at 1. rewrite N.eqb_refl.
    apply many_longest.
    + destruct t as [|c t']; [exact I|]. cbn [starts_solid] in Ht.
      apply negb_true_iff in Ht. exact Ht.
    + exact Hsp.
    + destruct ws; [congruence | cbn [length]; lia].
    + cbn [Re.exec]. rewrite <- (app_nil_r t) at 1.
      apply many_longest.
      * exact I.
      * exact Hnl.
      * destruct t; [discriminate Ht | cbn [length]; lia].
      * cbn [length]. rewrite Nat.sub_0_r.
        rewrite group_text, app_nil_r.
        replace (length (rev ds) - 0) with (length (rev ds)) by lia.
        rewrite firstn_all, rev_involutive, Nat.sub_0_r. reflexivity.
Qed.

(** X18: a numbered line becomes a heading with the whitespace after the dot
    made one space, and line breaks are whitespace here: digits and a dot
    alone on their line take the text of the next line for their heading. *)
Theorem format_answer_numbered (uni_decimal : char -> bool) (ds ws t : str) :
  ds <> [] -> forallb (in_range 48%N 57%N) ds = true ->
  ws <> [] -> forallb is_space ws = true ->
  starts_solid t = true -> ends_solid t = true ->
  forallb (not_char NL) t = true -> forallb (not_char QUOTE) t = true ->
  format_answer uni_decimal (ds ++ lit "." ++ ws ++ t)
  = lit "<h3>" ++ ds ++ lit ". " ++ t ++ lit "</h3>".
Proof.
  intros Hds Hrange Hws Hsp Hts Hte Hnl Hq.
  destruct (ascii_digit_facts uni_decimal ds Hrange) as [Hdig [Hdnl [Hdq Hdsol]]].
  change (lit "." ++ ws ++ t) with (46%N :: ws ++ t).
  unfold format_answer.
  rewrite strip_solid.
  2:{ apply starts_solid_app, Hdsol, Hds. }
  2:{ change (ds ++ 46%N :: ws ++ t) with (ds ++ [46%N] ++ ws ++ t).
      rewrite !app_assoc. apply ends_solid_app, Hte. }
  assert (Hsub : Re.sub (re_numbered uni_decimal) repl_heading
                   (ds ++ 46%N :: ws ++ t)
                 = lit "<h3>" ++ ds ++ lit ". " ++ t ++ lit "</h3>").
  { unfold Re.sub.
    pose proof (@match_at_numbered uni_decimal ds ws t Hds Hdig eq_refl Hws Hsp Hts Hnl)
      as Hm.
    destruct ds as [|d ds']; [congruence|].
    cbn [app Re.sub_go]. cbn [app] in Hm. rewrite Hm. cbn [length].
    rewrite sub_go_skip. cbn [Re.sub_go].
    rewrite (headed_numbered uni_decimal) by (right; exact I).
    rewrite app_nil_r. reflexivity. }
  rewrite Hsub. unfold str_replace, Re.sub.
  assert (Hall : forall (f : char -> bool),
             forallb f ds = true -> forallb f t = true ->
             forallb f (lit "<h3>") = true -> forallb f (lit ". ") = true ->
             forallb f (lit "</h3>") = true ->
             forallb f (lit "<h3>" ++ ds ++ lit ". " ++ t ++ lit "</h3>") = true).
  { intros f H1 H2 H3 H4 H5. rewrite !forallb_app, H1, H2, H3, H4, H5. reflexivity. }
  assert (Hnobreak : forallb (not_char NL)
                       (lit "<h3>" ++ ds ++ lit ". " ++ t ++ lit "</h3>") = true)
    by (apply Hall; [exact Hdnl | exact Hnl | reflexivity ..]).
  rewrite (replace_blank_id _ _ false) by (apply no_line_break, Hnobreak).
  rewrite sub_quoted_id by (apply Hall; [exact Hdq | exact Hq | reflexivity ..]).
  apply (sub_go_id _ _ [] headed_dash).
  cbn [line_start_of]. change (lit "<h3>") with (60%N :: lit "h3>") in *.
  cbn [app no_line_starts andb negb is_char]. cbn [app forallb] in Hnobreak.
  apply andb_prop in Hnobreak. destruct Hnobreak as [_ Hnobreak].
  apply no_line_break, Hnobreak.
Qed.

Lemma format_answer_numbered_witness :
  format_answer ascii_only (lit "12" ++ lit "." ++ [NL; SP] ++ lit "Opening hours")
  = lit "<h3>" ++ lit "12" ++ lit ". " ++ lit "Opening hours" ++ lit "</h3>".
Proof.
  apply (@format_answer_numbered ascii_only (lit "12") [NL; SP] (lit "Opening hours"));
    first [reflexivity | discriminate].
Defined.


Lemma sub_go_skip_app (r : Re.regex) (repl : list str -> str) (l tail : str) :
  forall before,
    Re.sub_go r repl (length l) before (l ++ tail)
    = Re.sub_go r repl 0 (rev l ++ before) tail.
Proof.
  induction l as [|c l IH]; intros before; [reflexivity|].
  cbn [length app Re.sub_go rev]. rewrite IH, <- app_assoc. reflexivity.
Qed.

Lemma no_line_starts_inert (bad : char -> bool) (m b : str) :
  forallb (inert bad) m = true ->
  forall ls,
    no_line_starts bad ls (m ++ b)
    = match m with [] => no_line_starts bad ls b | _ => no_line_starts bad false b end.
Proof.
  induction m as [|c m IH]; intros H ls; [reflexivity|].
  cbn [forallb] in H. apply andb_prop in H. destruct H as [Hc Hm].
  unfold inert in Hc. apply andb_prop in Hc. destruct Hc as [Hbad Hnl].
  apply negb_true_iff in Hbad. unfold not_char in Hnl. apply negb_true_iff in Hnl.
  cbn [app no_line_starts]. rewrite Hbad, andb_false_r. cbn [negb andb].
  rewrite N.eqb_sym, Hnl, (IH Hm). destruct m; reflexivity.
Qed.

Lemma no_line_starts_insert (bad : char -> bool) (a m b : str) (ls : bool) :
  m <> [] -> forallb (inert bad) m = true ->
  no_line_starts bad ls a = true ->
  no_line_starts bad false b = true ->
  no_line_starts bad ls (a ++ m ++ b) = true.
Proof.
  intros Hne Hm Ha Hb. rewrite no_line_starts_app, Ha.
  rewrite (@no_line_starts_inert bad m b Hm). destruct m; [congruence | exact Hb].
Qed.

Lemma sub_quoted_prefix (p tail : str) :
  forallb (not_char QUOTE) p = true ->
  forall before,
    Re.sub_go re_quoted repl_bold 0 before (p ++ tail)
    = p ++ Re.sub_go re_quoted repl_bold 0 (rev p ++ before) tail.
Proof.
  induction p as [|c p IH]; intros H before; [reflexivity|].
  cbn [forallb] in H. apply andb_prop in H. destruct H as [Hc Hp].
  cbn [app Re.sub_go]. unfold Re.match_at, re_quoted at 1. cbn [Re.exec].
  unfold not_char in Hc. apply negb_true_iff in Hc. unfold is_char. rewrite Hc.
  rewrite (IH Hp). cbn [rev]. rewrite <- app_assoc. reflexivity.
Qed.

(** The quote pattern at a quote whose partner is the next quote: the span
    between them is the group, line breaks included. *)
Lemma match_at_quoted (before g q : str) :
  forallb (not_char QUOTE) g = true ->
  Re.match_at re_quoted before (QUOTE :: g ++ QUOTE :: q)
  = Some ([g], S (length (g ++ [QUOTE]))).
Proof.
  intros Hg. unfold Re.match_at, re_quoted. cbn [Re.exec].
  change (is_char QUOTE QUOTE) with true. cbv iota.
  apply many_longest.
  - reflexivity.
  - exact Hg.
  - lia.
  - cbn [Re.exec]. change (is_char QUOTE QUOTE) with true. cbv iota.
    rewrite group_text. cbn [app]. do 2 f_equal.
    cbn [length]. rewrite !length_app. cbn [length]. unfold char. lia.
Qed.

(** The quote pattern at a quote that has no partner further on. *)
Lemma match_at_lone_quote (before q : str) :
  forallb (not_char QUOTE) q = true ->
  Re.match_at re_quoted before (QUOTE :: q) = None.
Proof.
  intros Hq. unfold Re.match_at, re_quoted. cbn [Re.exec].
  change (is_char QUOTE QUOTE) with true. cbv iota.
  apply (@many_none _ (not_char QUOTE) (not_char QUOTE)); [|exact Hq].
  intros b [|c a] Ha; [reflexivity|]. cbn [Re.exec].
  cbn [forallb] in Ha. apply andb_prop in Ha. destruct Ha as [Hc _].
  unfold not_char in Hc. apply negb_true_iff in Hc. unfold is_char. rewrite Hc.
  reflexivity.
Qed.

(** X19: a span between two double quotes is wrapped in bold markup with its
    quotes, line breaks inside the span included, and a double quote without
    a partner stays as it is. *)
Theorem format_answer_quotes (uni_decimal : char -> bool) (p g q : str) :
  plain uni_decimal true p = true ->
  plain uni_decimal false g = true ->
  plain uni_decimal false q = true ->
  starts_solid (p ++ [QUOTE]) = true ->
  ends_solid ([QUOTE] ++ q) = true ->
  format_answer uni_decimal (p ++ [QUOTE] ++ g ++ [QUOTE] ++ q)
  = p ++ lit "<b>" ++ [QUOTE] ++ g ++ [QUOTE] ++ lit "</b>" ++ q
  /\ format_answer uni_decimal (p ++ [QUOTE] ++ q) = p ++ [QUOTE] ++ q.
Proof.
  intros Hp Hg Hq Hs He.
  destruct (plain_parts _ _ _ Hp) as [Hpd [Hpm [Hpn Hpq]]].
  destruct (plain_parts _ _ _ Hg) as [Hgd [Hgm [Hgn Hgq]]].
  destruct (plain_parts _ _ _ Hq) as [Hqd [Hqm [Hqn Hqq]]].
  assert (Hstart : forall x, starts_solid (p ++ [QUOTE] ++ x) = true).
  { intros x. destruct p as [|c p']; [reflexivity | exact Hs]. }
  assert (Hin : forall (bad : char -> bool) (ls : bool) (a m b : str),
             bad QUOTE = false -> m = [QUOTE] ->
             no_line_starts bad ls a = true ->
             no_line_starts bad false b = true ->
             no_line_starts bad ls (a ++ m ++ b) = true).
  { intros bad ls a m b Hb -> Ha Hb'.
    apply no_line_starts_insert; [discriminate | | exact Ha | exact Hb'].
    cbn [forallb]. unfold inert. rewrite Hb. reflexivity. }
  split.
  - unfold format_answer, Re.sub, str_replace.
    rewrite strip_solid.
    2:{ apply Hstart. }
    2:{ rewrite !app_assoc. rewrite <- (app_assoc _ [QUOTE] q).
        apply ends_solid_app, He. }
    rewrite (sub_go_id repl_heading _ [] (headed_numbered uni_decimal)).
    2:{ cbn [line_start_of].
        apply Hin; [reflexivity | reflexivity | exact Hpd |].
        apply Hin; [reflexivity | reflexivity | exact Hgd | exact Hqd]. }
    rewrite (replace_blank_id _ _ false).
    2:{ apply Hin; [reflexivity | reflexivity | exact Hpn |].
        apply Hin; [reflexivity | reflexivity | exact Hgn | exact Hqn]. }
    rewrite (@sub_quoted_prefix p _ Hpq).
    change ([QUOTE] ++ g ++ [QUOTE] ++ q) with (QUOTE :: g ++ QUOTE :: q).
    cbn [Re.sub_go]. rewrite (@match_at_quoted _ g q Hgq).
    replace (g ++ QUOTE :: q) with ((g ++ [QUOTE]) ++ q)
      by (rewrite <- app_assoc; reflexivity).
    rewrite sub_go_skip_app, (@sub_quoted_id q Hqq).
    unfold repl_bold, Re.group. cbn [pred nth].
    replace (p ++ (lit "<b>" ++ [QUOTE] ++ g ++ [QUOTE] ++ lit "</b>") ++ q)
      with (p ++ (lit "<b>" ++ [QUOTE]) ++ g ++ ([QUOTE] ++ lit "</b>") ++ q)
      by (rewrite <- !app_assoc; reflexivity).
    rewrite (sub_go_id _ _ [] headed_dash).
    + rewrite <- !app_assoc. reflexivity.
    + cbn [line_start_of].
      apply no_line_starts_insert; [discriminate | reflexivity | exact Hpm |].
      apply no_line_starts_insert; [discriminate | reflexivity | exact Hgm | exact Hqm].
  - unfold format_answer, Re.sub, str_replace.
    rewrite strip_solid.
    2:{ apply Hstart. }
    2:{ apply ends_solid_app, He. }
    rewrite (sub_go_id repl_heading _ [] (headed_numbered uni_decimal)).
    2:{ cbn [line_start_of].
        apply Hin; [reflexivity | reflexivity | exact Hpd | exact Hqd]. }
    rewrite (replace_blank_id _ _ false).
    2:{ apply Hin; [reflexivity | reflexivity | exact Hpn | exact Hqn]. }
    rewrite (@sub_quoted_prefix p _ Hpq).
    change ([QUOTE] ++ q) with (QUOTE :: q).
    cbn [Re.sub_go]. rewrite (@match_at_lone_quote _ q Hqq), (@sub_quoted_id q Hqq).
    apply (sub_go_id _ _ [] headed_dash). cbn [line_start_of].
    change (QUOTE :: q) with ([QUOTE] ++ q).
    apply Hin; [reflexivity | reflexivity | exact Hpm | exact Hqm].
Qed.

Lemma format_answer_quotes_witness :
  format_answer ascii_only
    (lit "The page says " ++ [QUOTE] ++ (lit "open" ++ [NL] ++ lit "daily")
       ++ [QUOTE] ++ lit " twice.")
  = lit "The page says " ++ lit "<b>" ++ [QUOTE] ++ (lit "open" ++ [NL] ++ lit "daily")
      ++ [QUOTE] ++ lit "</b>" ++ lit " twice."
  /\ format_answer ascii_only (lit "The page says " ++ [QUOTE] ++ lit " twice.")
     = lit "The page says " ++ [QUOTE] ++ lit " twice.".
Proof.
  apply (@format_answer_quotes ascii_only (lit "The page says ")
           (lit "open" ++ [NL] ++ lit "daily") (lit " twice."));
    reflexivity.
Defined.
